(** * Algo-Trading: backfill pipeline and SMA target/stop strategy

    A shallow embedding of
      - [scripts/backtest.py]   (strategy callbacks, CSV loader, trade summary)
      - [scripts/historical_data_fetch.py] (chunked backfill with retries)
      - [scripts/main.py]       (single-window fetch, same normaliser)
    followed by the properties established about them.

    Part I holds the model, Part II the theorems. *)

From Stdlib Require Import ZArith QArith Qpower Lia Bool List Finite.
From Stdlib Require SpecFloat.
From Stdlib Require Import Strings.String Strings.Ascii.
From stdpp Require Import base option list gmap strings.

Import ListNotations.
Local Open Scope Z_scope.

(* ===================================================================== *)
(** * Part I: the model                                                   *)
(* ===================================================================== *)

(** ** Floating point numbers of the strategy

    Prices, [target] and [stop_loss] are Python floats.  The strategy only
    adds, subtracts, multiplies and compares them, so the model is stated
    over any carrier that offers these operations; nothing is assumed about
    rounding.  [a >= b] is read as [b <= a]. *)

Class FloatOps (F : Type) := {
  fone : F;
  fadd : F -> F -> F;
  fsub : F -> F -> F;
  fmul : F -> F -> F;
  fle : F -> F -> bool;
  (** [bool(x)] of a float: false exactly for zero *)
  ftruthy : F -> bool
}.

Definition fge {F} `{FloatOps F} (a b : F) : bool := fle b a.

(** Exact rationals as one carrier, used to run the model on numbers. *)
#[export] Instance Q_FloatOps : FloatOps Q := {
  fone := 1%Q;
  fadd := Qplus;
  fsub := Qminus;
  fmul := Qmult;
  fle := Qle_bool;
  ftruthy := fun q => negb (Qeq_bool q 0%Q)
}.

(* --------------------------------------------------------------------- *)
(** ** [SmaTargetStopStrategy] ([scripts/backtest.py])                    *)
(* --------------------------------------------------------------------- *)

Module Strategy.

(** Side of an order: [order.isbuy()] / [order.issell()]. *)
Inductive OrdType := Buy | Sell.

(** Order statuses of the backtesting framework. *)
Inductive Status :=
  | Created | Submitted | Accepted | Partial | Completed
  | Canceled | Expired | Margin | Rejected.

Definition is_completed (st : Status) : bool :=
  match st with Completed => true | _ => false end.

(** A status after which the broker no longer works on the order and
    that is not [Completed]. *)
Definition is_dead (st : Status) : bool :=
  match st with
  | Canceled | Expired | Margin | Rejected => true
  | _ => false
  end.

Section WithFloats.
Context {F : Type} `{FloatOps F}.

(** The order object handed to [notify_order]. *)
Record Order := {
  ordtype : OrdType;
  status : Status;
  executed_price : F
}.

(** [params] of the strategy. *)
Record Params := {
  target : F;
  stop_loss : F;
  short_window : Z;
  long_window : Z
}.

(** The two attributes set in [__init__].  [self.order] holds the order
    object returned by [buy()]/[sell()]; the strategy only ever tests it
    for truth, so the model keeps the side of that order. *)
Record State := {
  order : option OrdType;
  entry_price : option F
}.

Definition init : State := {| order := None; entry_price := None |}.

(** Lines written by [self.log]. *)
Inductive LogMsg :=
  | BuyExecuted (p : F)
  | SellExecuted (p : F)
  | LongTarget (p : F)
  | LongStop (p : F)
  | ShortTarget (p : F)
  | ShortStop (p : F).

(** What one callback does to the outside: orders handed to the broker by
    [self.buy()] / [self.sell()], and log lines, in program order. *)
Inductive Action :=
  | Submit (t : OrdType)
  | Log (m : LogMsg).

Definition submissions (acts : list Action) : list OrdType :=
  omap (fun a => match a with Submit t => Some t | Log _ => None end) acts.

(** [notify_order(self, order)] *)
Definition notify_order (s : State) (o : Order) : State * list Action :=
  if is_completed (status o) then
    match ordtype o with
    | Buy =>
        ({| order := None; entry_price := Some (executed_price o) |},
         [Log (BuyExecuted (executed_price o))])
    | Sell =>
        ({| order := None; entry_price := Some (executed_price o) |},
         [Log (SellExecuted (executed_price o))])
    end
  else (s, []).

(** The block [if self.position.size > 0 and self.entry_price: ...];
    [self.entry_price] counts as true when it is set and not [0.0]. *)
Definition long_exit (p : Params) (size : Z) (close : F) (s : State)
  : State * list Action :=
  match entry_price s with
  | Some e =>
      if (0 <? size) && ftruthy e then
        if fge close (fmul e (fadd fone (target p))) then
          ({| order := Some Sell; entry_price := entry_price s |},
           [Submit Sell; Log (LongTarget close)])
        else if fle close (fmul e (fsub fone (stop_loss p))) then
          ({| order := Some Sell; entry_price := entry_price s |},
           [Submit Sell; Log (LongStop close)])
        else (s, [])
      else (s, [])
  | None => (s, [])
  end.

(** The block [if self.position.size < 0 and self.entry_price: ...] *)
Definition short_exit (p : Params) (size : Z) (close : F) (s : State)
  : State * list Action :=
  match entry_price s with
  | Some e =>
      if (size <? 0) && ftruthy e then
        if fle close (fmul e (fsub fone (target p))) then
          ({| order := Some Buy; entry_price := entry_price s |},
           [Submit Buy; Log (ShortTarget close)])
        else if fge close (fmul e (fadd fone (stop_loss p))) then
          ({| order := Some Buy; entry_price := entry_price s |},
           [Submit Buy; Log (ShortStop close)])
        else (s, [])
      else (s, [])
  | None => (s, [])
  end.

(** The two exit blocks run one after the other; the first does not
    return. *)
Definition exits (p : Params) (size : Z) (close : F) (s : State)
  : State * list Action :=
  let '(s1, a1) := long_exit p size close s in
  let '(s2, a2) := short_exit p size close s1 in
  (s2, a1 ++ a2).

(** [next(self)].  [size] is [self.position.size] (the position object is
    true when the size is not zero), [close] is [self.data.close[0]] and
    [crossover] the value of the crossover indicator on this bar. *)
Definition next (p : Params) (size : Z) (close : F) (crossover : Z)
    (s : State) : State * list Action :=
  match order s with
  | Some _ => (s, [])
  | None =>
      if size =? 0 then
        if 0 <? crossover then
          ({| order := Some Buy; entry_price := entry_price s |},
           [Submit Buy])
        else if crossover <? 0 then
          ({| order := Some Sell; entry_price := entry_price s |},
           [Submit Sell])
        else exits p size close s
      else exits p size close s
  end.

(** *** The engine around the strategy

    The framework's broker is not part of the repository.  What the
    strategy relies on is modelled here: a submitted order waits at the
    broker; when the broker reports on the oldest waiting order it first
    applies the report (a completed buy adds the stake to the position, a
    completed sell takes it away; a completed or dead order stops waiting)
    and then calls [notify_order]; on a bar it calls [next] and takes over
    the orders submitted there.  The stake is the framework's default of
    one unit. *)

Definition stake : Z := 1.

Definition signed (t : OrdType) : Z :=
  match t with Buy => stake | Sell => - stake end.

Record System := {
  strat : State;
  position : Z;
  waiting : list OrdType;
  printed : list LogMsg
}.

Definition start : System :=
  {| strat := init; position := 0; waiting := []; printed := [] |}.

Definition logs (acts : list Action) : list LogMsg :=
  omap (fun a => match a with Log m => Some m | Submit _ => None end) acts.

Inductive Event :=
  | Bar (close : F) (crossover : Z)
  | Report (st : Status) (price : F).

Definition on_bar (p : Params) (close : F) (crossover : Z) (sys : System)
  : System :=
  let '(s', acts) := next p (position sys) close crossover (strat sys) in
  {| strat := s';
     position := position sys;
     waiting := waiting sys ++ submissions acts;
     printed := printed sys ++ logs acts |}.

Definition on_report (st : Status) (price : F) (sys : System) : System :=
  match waiting sys with
  | [] => sys
  | t :: rest =>
      let o := {| ordtype := t; status := st; executed_price := price |} in
      let '(s', acts) := notify_order (strat sys) o in
      {| strat := s';
         position := if is_completed st then position sys + signed t
                     else position sys;
         waiting := if is_completed st || is_dead st then rest
                    else waiting sys;
         printed := printed sys ++ logs acts |}
  end.

Definition step (p : Params) (ev : Event) (sys : System) : System :=
  match ev with
  | Bar close crossover => on_bar p close crossover sys
  | Report st price => on_report st price sys
  end.

Definition run (p : Params) (evs : list Event) (sys : System) : System :=
  fold_left (fun acc ev => step p ev acc) evs sys.

(** The engine invariant: nothing waits and the position is at most one
    stake either way, or a single order waits, the strategy holds its
    marker, and the order either opens a position from flat or closes the
    one stake that is open. *)
Definition engine_inv (sys : System) : Prop :=
  match waiting sys with
  | [] => - stake <= position sys <= stake
  | [t] =>
      order (strat sys) <> None /\
      (position sys = 0 \/ position sys = - signed t)
  | _ => False
  end.

(** Position side as the spec names it. *)
Inductive Side := Flat | Long | Short.

Definition side_of (size : Z) : Side :=
  if size =? 0 then Flat else if 0 <? size then Long else Short.

End WithFloats.

Arguments Order F : clear implicits.
Arguments Params F : clear implicits.
Arguments State F : clear implicits.
Arguments LogMsg F : clear implicits.
Arguments Action F : clear implicits.
Arguments System F : clear implicits.
Arguments Event F : clear implicits.

End Strategy.

(* --------------------------------------------------------------------- *)
(** ** Exceptions                                                         *)
(* --------------------------------------------------------------------- *)

Inductive Exn :=
  | ValueError | KeyError | AttributeError | TypeError | OverflowError
  | ZeroDivisionError.

Inductive result (A : Type) :=
  | Ok (a : A)
  | Raise (e : Exn).
Arguments Ok {A} a.
Arguments Raise {A} e.

Definition rbind {A B} (r : result A) (k : A -> result B) : result B :=
  match r with
  | Ok a => k a
  | Raise e => Raise e
  end.

Notation "x <-- r ;; k" := (rbind r (fun x => k))
  (at level 100, r at next level, right associativity).

(* --------------------------------------------------------------------- *)
(** ** Tables ([pandas.DataFrame]) as far as the scripts use them         *)
(* --------------------------------------------------------------------- *)

Module Table.

(** One value of a record or of a table cell: a string, a number, or
    missing -- the [None] a JSON null arrives as, and the missing value
    the library fills in.  No arithmetic is done on the numbers here, so
    decimal literals are carried as exact rationals. *)
Inductive Cell :=
  | CStr (s : string)
  | CNum (q : Q)
  | CNone.

Abbreviation Column := (string * list Cell)%type.

(** A frame: its index (when one was set) and its named columns, in
    order. *)
Record Frame := {
  index : option Column;
  columns : list Column
}.

Definition names (df : Frame) : list string := map fst (columns df).

Definition has_col (n : string) (df : Frame) : bool :=
  existsb (String.eqb n) (names df).

Definition nrows (df : Frame) : nat :=
  match index df, columns df with
  | Some (_, v), _ => length v
  | None, (_, c) :: _ => length c
  | None, [] => 0%nat
  end.

(** [df[n]] for a column label. *)
Definition getcol (n : string) (df : Frame) : result (list Cell) :=
  match find (fun c => String.eqb n (fst c)) (columns df) with
  | Some c => Ok (snd c)
  | None => Raise KeyError
  end.

(** The cell of column [n] in row [i]. *)
Definition cell_at (n : string) (i : nat) (df : Frame) : option Cell :=
  match getcol n df with
  | Ok v => v !! i
  | Raise _ => None
  end.

(** [df[n] = values]: every column of that name is replaced; a new name is
    appended on the right. *)
Definition setcol (n : string) (v : list Cell) (df : Frame) : Frame :=
  {| index := index df;
     columns :=
       if has_col n df
       then map (fun c => if String.eqb n (fst c) then (n, v) else c)
                (columns df)
       else columns df ++ [(n, v)] |}.

(** [df[[n1; ...]]]: for each label all columns that carry it, in the
    order of the labels; [KeyError] when a label has none. *)
Fixpoint pick (ns : list string) (cols : list Column) : result (list Column) :=
  match ns with
  | [] => Ok []
  | n :: ns' =>
      match List.filter (fun c => String.eqb n (fst c)) cols with
      | [] => Raise KeyError
      | found => rest <-- pick ns' cols ;; Ok (found ++ rest)
      end
  end.

Definition select (ns : list string) (df : Frame) : result Frame :=
  cols <-- pick ns (columns df) ;;
  Ok {| index := index df; columns := cols |}.

(** [df.rename(columns={...})] *)
Definition rename_label (m : list (string * string)) (n : string) : string :=
  match find (fun kv => String.eqb n (fst kv)) m with
  | Some kv => snd kv
  | None => n
  end.

Definition rename (m : list (string * string)) (df : Frame) : Frame :=
  {| index := index df;
     columns := map (fun c => (rename_label m (fst c), snd c)) (columns df) |}.

(** [df.set_index(n, inplace=True)]: the first column of that name becomes
    the index and leaves the columns. *)
Fixpoint remove_first (n : string) (cols : list Column) : list Column :=
  match cols with
  | [] => []
  | c :: cs => if String.eqb n (fst c) then cs else c :: remove_first n cs
  end.

Definition set_index (n : string) (df : Frame) : result Frame :=
  v <-- getcol n df ;;
  Ok {| index := Some (n, v); columns := remove_first n (columns df) |}.

(** [pd.concat(frames, ignore_index=True)] for frames that carry the
    columns of the first one. *)
Definition concat (dfs : list Frame) : Frame :=
  match dfs with
  | [] => {| index := None; columns := [] |}
  | d :: _ =>
      {| index := None;
         columns :=
           map (fun c =>
                  (fst c,
                   flat_map (fun f => match getcol (fst c) f with
                                      | Ok v => v
                                      | Raise _ => repeat CNone (nrows f)
                                      end) dfs))
               (columns d) |}
  end.

(** [pd.DataFrame(data, columns=labels)] for a list of records: short
    records are filled up with missing values to the longest one, and the
    longest one has to be as wide as the labels. *)
Definition width (data : list (list Cell)) : nat :=
  fold_right (fun r w => Nat.max (length r) w) 0%nat data.

Definition pad (w : nat) (r : list Cell) : list Cell :=
  r ++ repeat CNone (w - length r).

Definition nth_cells (i : nat) (data : list (list Cell)) : list Cell :=
  map (fun r => nth i r CNone) data.

Definition from_records (data : list (list Cell)) (labels : list string)
  : result Frame :=
  if Nat.eqb (width data) (length labels) then
    let padded := map (pad (length labels)) data in
    Ok {| index := None;
          columns := imap (fun i n => (n, nth_cells i padded)) labels |}
  else Raise ValueError.

End Table.

(* --------------------------------------------------------------------- *)
(** ** The candle normaliser
       ([scripts/historical_data_fetch.py] l.86-89, [scripts/main.py]
       l.70-79)                                                           *)
(* --------------------------------------------------------------------- *)

Module Normalizer.
Import Table.

Local Open Scope string_scope.

(** [s.split('T')]: the pieces between the separators; an empty string has
    one empty piece. *)
Fixpoint split_on (sep : ascii) (s : string) : list string :=
  match s with
  | EmptyString => [EmptyString]
  | String a rest =>
      if Ascii.eqb a sep then EmptyString :: split_on sep rest
      else match split_on sep rest with
           | [] => [String a EmptyString]
           | p :: ps => String a p :: ps
           end
  end.

(** Does the character occur in the string? *)
Fixpoint occurs (a : ascii) (s : string) : bool :=
  match s with
  | EmptyString => false
  | String b rest => Ascii.eqb b a || occurs a rest
  end.

Definition is_plus (a : ascii) : bool := Ascii.eqb a "+"%char.

(** [\d] on a text of ASCII characters: one of the digits [0] to [9].
    (On other texts the pattern also takes the decimal digits of other
    scripts; the timestamps of the API are ASCII.) *)
Definition is_digit (a : ascii) : bool :=
  let n := nat_of_ascii a in (48 <=? n)%nat && (n <=? 57)%nat.

(** Leading ['+'] characters cannot start a match of [[^+]+]. *)
Fixpoint skip_plus (s : string) : string :=
  match s with
  | String a rest => if is_plus a then skip_plus rest else s
  | EmptyString => EmptyString
  end.

(** The longest prefix without ['+'], and what follows it. *)
Fixpoint span_no_plus (s : string) : string * string :=
  match s with
  | EmptyString => (EmptyString, EmptyString)
  | String a rest =>
      if is_plus a then (EmptyString, s)
      else let '(t, r) := span_no_plus rest in (String a t, r)
  end.

(** The optional group [(\+\d{2}:\d{2})?] at the head of [s]. *)
Definition offset_at (s : string) : option string :=
  match s with
  | String p (String d1 (String d2 (String c (String d3 (String d4 _))))) =>
      if is_plus p && is_digit d1 && is_digit d2 && Ascii.eqb c ":"%char
         && is_digit d3 && is_digit d4
      then Some (String p (String d1 (String d2 (String c
                   (String d3 (String d4 EmptyString))))))
      else None
  | _ => None
  end.

(** First match of [([^+]+)(\+\d{2}:\d{2})?] in [s]: the two groups, or
    nothing when [s] has no character other than ['+']. *)
Definition extract (s : string) : option (string * option string) :=
  match span_no_plus (skip_plus s) with
  | (EmptyString, _) => None
  | (t, r) => Some (t, offset_at r)
  end.

(** The text of an offset [+HH:MM] from its four digits. *)
Definition offset_text (h1 h2 m1 m2 : ascii) : string :=
  String "+" (String h1 (String h2 (String ":"
    (String m1 (String m2 EmptyString))))).

Definition opt_cell (o : option string) : Cell :=
  match o with Some s => CStr s | None => CNone end.

(** Pieces of one [DateTime] cell; only strings have pieces. *)
Definition pieces (c : Cell) : list string :=
  match c with
  | CStr s => split_on "T"%char s
  | _ => []
  end.

Definition is_num (c : Cell) : bool :=
  match c with CNum _ => true | _ => false end.

Definition is_str (c : Cell) : bool :=
  match c with CStr _ => true | _ => false end.

(** The [.str] accessor refuses a column of numbers; a column of
    [None] values passes. *)
Definition str_ok (col : list Cell) : bool :=
  existsb is_str col || negb (existsb is_num col).

(** [col.str.split('T', expand=True)] assigned to two labels: there have
    to be exactly two result columns, that is, the longest split has two
    pieces.  Rows with fewer pieces get missing values. *)
Definition split_T (col : list Cell) : result (list Cell * list Cell) :=
  if negb (str_ok col) then Raise AttributeError
  else
    let ps := map pieces col in
    if Nat.eqb (fold_right (fun p w => Nat.max (length p) w) 0%nat ps) 2
    then Ok (map (fun p => opt_cell (nth_error p 0)) ps,
             map (fun p => opt_cell (nth_error p 1)) ps)
    else Raise ValueError.

(** [col.str.extract(r'([^+]+)(\+\d{2}:\d{2})?')] assigned to two
    labels. *)
Definition extract_cell (c : Cell) : Cell * Cell :=
  match c with
  | CStr s =>
      match extract s with
      | Some (t, tz) => (CStr t, opt_cell tz)
      | None => (CNone, CNone)
      end
  | _ => (CNone, CNone)
  end.

Definition extract_tz (col : list Cell) : result (list Cell * list Cell) :=
  if negb (str_ok col) then Raise AttributeError
  else Ok (map (fun c => fst (extract_cell c)) col,
           map (fun c => snd (extract_cell c)) col).

Definition raw_labels : list string :=
  ["DateTime"; "Open"; "High"; "Low"; "Close"; "Volume"].

Definition out_labels : list string :=
  ["Date"; "Time"; "Timezone"; "Open"; "High"; "Low"; "Close"].

(** The four normalising statements on one batch of records. *)
Definition normalize (data : list (list Cell)) : result Frame :=
  df <-- from_records data raw_labels ;;
  dt <-- getcol "DateTime" df ;;
  dt2 <-- split_T dt ;;
  let df := setcol "Time" (snd dt2) (setcol "Date" (fst dt2) df) in
  tm <-- getcol "Time" df ;;
  tz2 <-- extract_tz tm ;;
  let df := setcol "Timezone" (snd tz2) (setcol "Time" (fst tz2) df) in
  select out_labels df.

(** The three fields of one timestamp, for a record on its own. *)
Definition split_timestamp (s : string)
  : result (Cell * Cell * Cell) :=
  dt2 <-- split_T [CStr s] ;;
  tz2 <-- extract_tz (snd dt2) ;;
  Ok (nth 0 (fst dt2) CNone, nth 0 (fst tz2) CNone, nth 0 (snd tz2) CNone).

(** Joining the fields again; a missing field adds nothing. *)
Definition cell_text (c : Cell) : string :=
  match c with CStr s => s | _ => EmptyString end.

Definition rejoin (d t tz : Cell) : string :=
  cell_text d ++ "T" ++ cell_text t ++ cell_text tz.

End Normalizer.

(* --------------------------------------------------------------------- *)
(** ** The backfill run ([scripts/historical_data_fetch.py])              *)
(* --------------------------------------------------------------------- *)

Module Backfill.
Import Table Normalizer.

(** *** Calendar days

    A [datetime] at midnight is carried as its proleptic Gregorian ordinal
    ([toordinal()]); [strftime("%Y-%m-%d")] renders the day, one text per
    ordinal, so [from_date] and [to_date] are carried as ordinals too. *)

Definition MINYEAR : Z := 1.
Definition MAXYEAR : Z := 9999.

Definition days_before_year (year : Z) : Z :=
  let y := year - 1 in y * 365 + y / 4 - y / 100 + y / 400.

Definition max_ordinal : Z := days_before_year (MAXYEAR + 1).

(** [datetime(year, 1, 1)] *)
Definition jan1 (year : Z) : result Z :=
  if (MINYEAR <=? year) && (year <=? MAXYEAR)
  then Ok (days_before_year year + 1)
  else Raise ValueError.

(** [d + timedelta(days=n)] *)
Definition add_days (d n : Z) : result Z :=
  let r := d + n in
  if (1 <=? r) && (r <=? max_ordinal) then Ok r else Raise OverflowError.

(** *** The remote source *)

(** A JSON value as it can sit under a key of the response. *)
Inductive Value :=
  | VNull
  | VBool (b : bool)
  | VText (s : string)
  | VRows (rows : list (list Cell)).

Definition truthy (v : Value) : bool :=
  match v with
  | VNull => false
  | VBool b => b
  | VText s => negb (String.eqb s EmptyString)
  | VRows rows => match rows with [] => false | _ :: _ => true end
  end.

(** What [getCandleData] hands back: it raises, or returns [None] or a
    dictionary. *)
Inductive ApiResult :=
  | Raises
  | Returns (r : option (gmap string Value)).

(** A point in time of a request: the day and the minute of that day. *)
Definition Instant : Type := Z * Z.

Record HistoricParam := {
  exchange : string;
  symboltoken : string;
  interval : string;
  fromdate : Instant;
  todate : Instant
}.

Definition symbol_token : string := "99926000".
Definition exchange_name : string := "NSE".
Definition interval_name : string := "ONE_MINUTE".

(** ["... 09:00"] and ["... 15:30"] *)
Definition session_open : Z := 9 * 60.
Definition session_close : Z := 15 * 60 + 30.

Definition historicParam (from_date to_date : Z) : HistoricParam :=
  {| exchange := exchange_name;
     symboltoken := symbol_token;
     interval := interval_name;
     fromdate := (from_date, session_open);
     todate := (to_date, session_close) |}.

(** [response and "data" in response and response["data"]] *)
Definition usable (r : option (gmap string Value)) : option Value :=
  match r with
  | None => None
  | Some d =>
      if bool_decide (d = ∅) then None
      else match d !! "data"%string with
           | Some v => if truthy v then Some v else None
           | None => None
           end
  end.

Definition failed (a : ApiResult) : bool :=
  match a with
  | Raises => true
  | Returns r => match usable r with Some _ => false | None => true end
  end.

Section Run.

(** The remote source answers the [k]-th call made with one and the same
    request ([k] counts from 0).  A run asks for each chunk in one
    iteration only, so every behaviour of the source is of this shape. *)
Variable getCandleData : HistoricParam -> nat -> ApiResult.

(** The [for attempt in range(3)] loop from attempt [k] on, with [n]
    attempts left; warnings and the 5 second waits leave no mark on the
    result. *)
Fixpoint attempts (req : HistoricParam) (k n : nat) : option Value :=
  match n with
  | O => None
  | S n' =>
      match getCandleData req k with
      | Returns r =>
          match usable r with
          | Some v => Some v
          | None => attempts req (S k) n'
          end
      | Raises => attempts req (S k) n'
      end
  end.

(** [fetch_historical_data(from_date, to_date)] *)
Definition fetch_historical_data (from_date to_date : Z) : option Value :=
  attempts (historicParam from_date to_date) 0 3.

(** The normalising statements of the loop body on the fetched value;
    [pd.DataFrame] takes rows only. *)
Definition normalize_value (v : Value) : result Frame :=
  match v with
  | VRows rows => normalize rows
  | _ => Raise ValueError
  end.

(** The module-level variables the loop works on, and the ranges
    announced by [print("Fetching data from ... to ...")]. *)
Record Loop := {
  current_date : Z;
  all_data : list Frame;
  missing_dates : list (Z * Z);
  first_date : option Z;
  last_date : option Z;
  fetching : list (Z * Z)
}.

(** One pass through the body of [while current_date < end_date]. *)
Definition iteration (st : Loop) : result Loop :=
  next_date <-- add_days (current_date st) 30 ;;
  let from_date := current_date st in
  let to_date := next_date in
  match fetch_historical_data from_date to_date with
  | Some data =>
      df <-- normalize_value data ;;
      Ok {| current_date := next_date;
            all_data := all_data st ++ [df];
            missing_dates := missing_dates st;
            first_date := match first_date st with
                          | None => Some from_date
                          | Some f => Some f
                          end;
            last_date := Some to_date;
            fetching := fetching st ++ [(from_date, to_date)] |}
  | None =>
      Ok {| current_date := next_date;
            all_data := all_data st;
            missing_dates := missing_dates st ++ [(from_date, to_date)];
            first_date := first_date st;
            last_date := last_date st;
            fetching := fetching st ++ [(from_date, to_date)] |}
  end.

(** The [while] loop; [None] when the passes allowed by [fuel] are used
    up before the condition turns false. *)
Fixpoint loop (fuel : nat) (end_date : Z) (st : Loop) : option (result Loop) :=
  if current_date st <? end_date then
    match fuel with
    | O => None
    | S fuel' =>
        match iteration st with
        | Ok st' => loop fuel' end_date st'
        | Raise e => Some (Raise e)
        end
    end
  else Some (Ok st).

Definition enter (start : Z) : Loop :=
  {| current_date := start;
     all_data := [];
     missing_dates := [];
     first_date := None;
     last_date := None;
     fetching := [] |}.

(** What the script leaves behind: the file with the merged data, named
    by first and last date, and the log of missing ranges. *)
Record Output := {
  hdf : option (Z * Z * Frame);
  missing_log : option (list (Z * Z));
  final : Loop
}.

Definition finish (st : Loop) : Output :=
  {| hdf := match all_data st, first_date st, last_date st with
            | _ :: _, Some f, Some l => Some (f, l, concat (all_data st))
            | _, _, _ => None
            end;
     missing_log := match missing_dates st with
                    | [] => None
                    | m => Some m
                    end;
     final := st |}.

(** The script from [current_date = datetime(start_year, 1, 1)] on.  The
    loop moves 30 days per pass, so the days of the span are fuel
    enough. *)
Definition main (start_year end_year : Z) : option (result Output) :=
  match jan1 start_year, jan1 end_year with
  | Ok start, Ok end_date =>
      match loop (Z.to_nat (end_date - start)) end_date (enter start) with
      | Some (Ok st) => Some (Ok (finish st))
      | Some (Raise e) => Some (Raise e)
      | None => None
      end
  | Raise e, _ => Some (Raise e)
  | _, Raise e => Some (Raise e)
  end.

(** Does the fetch for a range come back empty-handed? *)
Definition fetch_fails (r : Z * Z) : bool :=
  match fetch_historical_data (fst r) (snd r) with
  | None => true
  | Some _ => false
  end.

(** The frame a range has delivered. *)
Definition delivered (r : Z * Z) (df : Frame) : Prop :=
  exists data,
    fetch_historical_data (fst r) (snd r) = Some data /\
    normalize_value data = Ok df.

(** The bookkeeping of failed and delivered ranges. *)
Definition booked (st : Loop) : Prop :=
  missing_dates st
  = List.filter (fetch_fails) (fetching st) /\
  Forall2 (delivered)
    (List.filter (fun r => negb (fetch_fails r)) (fetching st))
    (all_data st).

End Run.

(** The requested window of a chunk, in minutes. *)
Definition minutes (i : Instant) : Z := fst i * 1440 + snd i.

(** The [k]-th range of a run that starts on day [start]. *)
Definition chunk (start : Z) (k : nat) : Z * Z :=
  (start + 30 * Z.of_nat k, start + 30 * Z.of_nat k + 30).


(** The ranges announced so far: [n] ranges of 30 days laid end to end
    from [start], each beginning before the end date. *)
Definition laid_out (start end_date : Z) (st : Loop) : Prop :=
  exists n : nat,
    current_date st = start + 30 * Z.of_nat n /\
    fetching st = map (chunk start) (seq 0 n) /\
    (forall k, (k < n)%nat -> start + 30 * Z.of_nat k < end_date).

End Backfill.

(* --------------------------------------------------------------------- *)
(** ** [load_data] ([scripts/backtest.py])                                *)
(* --------------------------------------------------------------------- *)

Module Loader.
Import Table.

(** The dictionary given to [df.rename(columns=...)]. *)
Definition ohlc_names : list (string * string) :=
  [("Open", "open"); ("High", "high"); ("Low", "low"); ("Close", "close")].

Section Load.

(** Library steps on the way to the index, taken as they come:
    [col + " "] on a column, and [pd.to_datetime(a + b, errors='coerce')]
    on two columns. *)
Variable add_text : list Cell -> string -> result (list Cell).
Variable to_datetime_sum : list Cell -> list Cell -> result (list Cell).

(** [load_data(csv_file)] from the frame that [pd.read_csv] delivers. *)
Definition load_data (df : Frame) : result Frame :=
  d <-- getcol "Date" df ;;
  d' <-- add_text d " " ;;
  t <-- getcol "Time" df ;;
  dt <-- to_datetime_sum d' t ;;
  let df := setcol "Date_Time" dt df in
  df <-- set_index "Date_Time" df ;;
  let df := rename ohlc_names df in
  let df :=
    if negb (has_col "Volume" df)
    then setcol "volume" (repeat (CNum 0) (nrows df)) df
    else rename [("Volume", "volume")] df in
  select ["open"; "high"; "low"; "close"; "volume"] df.

End Load.

End Loader.

(* --------------------------------------------------------------------- *)
(** ** The trade summary ([scripts/backtest.py], l.184-190)               *)
(* --------------------------------------------------------------------- *)

Module Analytics.

(** A Python float is an IEEE 754 double: 53 bits of precision, exponents
    below 1024, results rounded to the nearest double, ties to even. *)
Definition float := SpecFloat.spec_float.

(** An int as the operand of one float operation, before any rounding:
    its sign and its magnitude. *)
Definition of_int (z : Z) : float :=
  match z with
  | Z0 => SpecFloat.S754_zero false
  | Zpos p => SpecFloat.S754_finite false p 0
  | Zneg p => SpecFloat.S754_finite true p 0
  end.

(** [a / b] on two ints: the double nearest to the quotient;
    [ZeroDivisionError] for a zero divisor and [OverflowError] when the
    quotient is too large for a double. *)
Definition truediv (a b : Z) : result float :=
  if b =? 0 then Raise ZeroDivisionError
  else match SpecFloat.SFdiv 53 1024 (of_int a) (of_int b) with
       | SpecFloat.S754_infinity _ => Raise OverflowError
       | q => Ok q
       end.

(** The int [100] as the right operand of [float * int]: [100.0]. *)
Definition hundred : float := SpecFloat.binary_normalize 53 1024 100 0 false.

(** [x * 100] on a float. *)
Definition times_hundred (x : float) : float :=
  SpecFloat.SFmul 53 1024 x hundred.

(** What the conditional expression yields: a float from its first
    branch, the int [0] from its second. *)
Inductive Number :=
  | NInt (z : Z)
  | NFloat (f : float).

(** [math.isfinite(f)]: neither an infinity nor a NaN. *)
Definition is_finite (f : float) : bool :=
  match f with
  | SpecFloat.S754_zero _ | SpecFloat.S754_finite _ _ _ => true
  | _ => false
  end.

(** The real number a float stands for; an infinity or a NaN stands for
    none and is given 0. *)
Definition value (f : float) : Q :=
  match f with
  | SpecFloat.S754_finite s m e =>
      ((if s then -1 else 1) * inject_Z (Zpos m) * 2 ^ e)%Q
  | _ => 0%Q
  end.

(** [analysis.get(k1, {}).get(k2, 0)] on the analyser's nested counts. *)
Definition get2 (analysis : gmap string (gmap string Z)) (k1 k2 : string) : Z :=
  default 0 (default ∅ (analysis !! k1) !! k2).

(** [(winning_trades / total_trades * 100) if total_trades > 0 else 0] *)
Definition win_probability (winning_trades total_trades : Z) : result Number :=
  if 0 <? total_trades then
    q <-- truediv winning_trades total_trades ;;
    Ok (NFloat (times_hundred q))
  else Ok (NInt 0).

Record Summary := {
  total_trades : Z;
  long_trades : Z;
  short_trades : Z;
  winning_trades : Z;
  losing_trades : Z;
  win_prob : Number
}.

Definition summary (analysis : gmap string (gmap string Z)) : result Summary :=
  let total := get2 analysis "total" "closed" in
  let long := get2 analysis "long" "total" in
  let short := get2 analysis "short" "total" in
  let won := get2 analysis "won" "total" in
  let lost := get2 analysis "lost" "total" in
  wp <-- win_probability won total ;;
  Ok {| total_trades := total;
        long_trades := long;
        short_trades := short;
        winning_trades := won;
        losing_trades := lost;
        win_prob := wp |}.

End Analytics.

(* --------------------------------------------------------------------- *)
(** ** Notions used to describe the normaliser                            *)
(* --------------------------------------------------------------------- *)

Module Pieces.
Import Table Normalizer.

(** [sep.join(pieces)] *)
Fixpoint join_on (sep : ascii) (ps : list string) : string :=
  match ps with
  | [] => EmptyString
  | p :: rest =>
      match rest with
      | [] => p
      | _ :: _ => (p ++ String sep (join_on sep rest))%string
      end
  end.

(** How often the character occurs. *)
Fixpoint count_char (a : ascii) (s : string) : nat :=
  match s with
  | EmptyString => 0%nat
  | String b rest =>
      ((if Ascii.eqb b a then 1 else 0) + count_char a rest)%nat
  end.

(** A string of ['+'] characters only (the empty one included). *)
Fixpoint only_plus (s : string) : bool :=
  match s with
  | EmptyString => true
  | String a rest => is_plus a && only_plus rest
  end.

Definition opt_text (o : option string) : string :=
  match o with Some t => t | None => EmptyString end.

(** [s.isascii()]: every character is below 128. *)
Fixpoint is_ascii_text (s : string) : bool :=
  match s with
  | EmptyString => true
  | String a rest => (nat_of_ascii a <? 128)%nat && is_ascii_text rest
  end.

(** The largest number of pieces a cell of the column splits into. *)
Definition longest_split (col : list Cell) : nat :=
  fold_right (fun p w => Nat.max (length p) w) 0%nat (map pieces col).

(** The [DateTime] column of a batch. *)
Definition stamps (data : list (list Cell)) : list Cell :=
  nth_cells 0 (map (pad 6) data).

End Pieces.

(* --------------------------------------------------------------------- *)
(** ** The single-window fetch ([scripts/main.py])                        *)
(* --------------------------------------------------------------------- *)

Module Script.
Import Table Normalizer Backfill.

(** [not response or 'data' not in response or not response['data']] *)
Definition unusable (r : option (gmap string Value)) : bool :=
  match r with
  | None => true
  | Some d =>
      bool_decide (d = ∅)
      || match d !! "data"%string with
         | None => true
         | Some v => negb (truthy v)
         end
  end.

(** How the script ends: with the table it saves, with the exception of
    the API call raised again, or with an exception of its own. *)
Inductive Outcome :=
  | Saved (df : Frame)
  | ApiRaised
  | Raised (e : Exn).

(** ["2025-01-01"] and ["2025-01-31"] as days. *)
Definition from_date : Z := days_before_year 2025 + 1.
Definition to_date : Z := days_before_year 2025 + 31.

Section Single.

(** The one call the script makes. *)
Variable getCandleData : HistoricParam -> ApiResult.

(** The Return column from the Close and the Open column:
    [((Close - Open) / Open * 100).round(2)] rendered as ["x.xx %"];
    float arithmetic and formatting, taken as they come. *)
Variable return_column : list Cell -> list Cell -> result (list Cell).

(** [response['data']] *)
Definition data_of (r : option (gmap string Value)) : result Value :=
  match r with
  | None => Raise TypeError
  | Some d =>
      match d !! "data"%string with
      | Some v => Ok v
      | None => Raise KeyError
      end
  end.

(** From the response on: check, normalise, add the Return column. *)
Definition table_of (r : option (gmap string Value)) : result Frame :=
  if unusable r then Raise ValueError
  else
    candle_data <-- data_of r ;;
    df <-- normalize_value candle_data ;;
    c <-- getcol "Close" df ;;
    o <-- getcol "Open" df ;;
    o' <-- getcol "Open" df ;;
    ret <-- return_column c o ;;
    Ok (setcol "Return" ret df).

Definition script : Outcome :=
  match getCandleData (historicParam from_date to_date) with
  | Raises => ApiRaised
  | Returns r =>
      match table_of r with
      | Ok df => Saved df
      | Raise e => Raised e
      end
  end.

End Single.

End Script.

(* --------------------------------------------------------------------- *)
(** ** The credentials ([config.py])                                      *)
(* --------------------------------------------------------------------- *)

Module Config.

(** The four module variables, each what [os.getenv] gave. *)
Record Credentials := {
  API_KEY : option string;
  USERNAME : option string;
  MPIN : option string;
  TOTP_SECRET : option string
}.

(** [not x] for what [os.getenv] gives: true for [None] and for [""]. *)
Definition missing (v : option string) : bool :=
  match v with
  | None => true
  | Some s => String.eqb s EmptyString
  end.

(** The module body after [load_dotenv], on the environment it left. *)
Definition load (env : gmap string string) : result Credentials :=
  let api_key := env !! "API_KEY"%string in
  let username := env !! "USERNAME"%string in
  let mpin := env !! "MPIN"%string in
  let totp_secret := env !! "TOTP_SECRET"%string in
  if missing api_key || missing username || missing mpin
     || missing totp_secret
  then Raise ValueError
  else Ok {| API_KEY := api_key; USERNAME := username;
             MPIN := mpin; TOTP_SECRET := totp_secret |}.

End Config.

(* ===================================================================== *)
(** * Part II: properties                                                 *)
(* ===================================================================== *)

(** ** The strategy *)

Section StrategyFacts.
Import Strategy.
Context {F : Type} `{FloatOps F}.

Implicit Types (s : State F) (p : Params F) (sys : System F).

Lemma notify_other_status s (o : Order F) :
  is_completed (status o) = false -> notify_order s o = (s, []).
Proof. unfold notify_order. now intros ->. Qed.

Lemma notify_completed s (o : Order F) :
  is_completed (status o) = true ->
  fst (notify_order s o)
  = {| order := None; entry_price := Some (executed_price o) |}.
Proof. unfold notify_order. intros ->. now destruct (ordtype o). Qed.

Lemma next_pending p size close x s :
  order s <> None -> next p size close x s = (s, []).
Proof. unfold next. destruct (order s); [reflexivity | congruence]. Qed.

(** Each exit block hands over no order, or exactly the one it stores. *)
Lemma long_exit_cases p size close s :
  long_exit p size close s = (s, [])
  \/ (0 < size /\ exists m,
        long_exit p size close s
        = ({| order := Some Sell; entry_price := entry_price s |},
           [Submit Sell; Log m])).
Proof.
  unfold long_exit. destruct (entry_price s) as [e|]; [|now left].
  destruct (0 <? size) eqn:Hs; simpl; [|now left].
  apply Z.ltb_lt in Hs.
  destruct (ftruthy e); [|now left].
  destruct (fge close _); [right; eauto|].
  destruct (fle close _); [right; eauto | now left].
Qed.

Lemma short_exit_cases p size close s :
  short_exit p size close s = (s, [])
  \/ (size < 0 /\ exists m,
        short_exit p size close s
        = ({| order := Some Buy; entry_price := entry_price s |},
           [Submit Buy; Log m])).
Proof.
  unfold short_exit. destruct (entry_price s) as [e|]; [|now left].
  destruct (size <? 0) eqn:Hs; simpl; [|now left].
  apply Z.ltb_lt in Hs.
  destruct (ftruthy e); [|now left].
  destruct (fle close _); [right; eauto|].
  destruct (fge close _); [right; eauto | now left].
Qed.

(** The position cannot be long and short at once, so the two blocks
    never both fire. *)
Lemma exits_cases p size close s :
  exits p size close s = (s, [])
  \/ (exists t m,
        signed t * size < 0 /\
        exits p size close s
        = ({| order := Some t; entry_price := entry_price s |},
           [Submit t; Log m])).
Proof.
  unfold exits.
  destruct (long_exit_cases p size close s) as [-> | (Hpos & m & ->)].
  - destruct (short_exit_cases p size close s) as [-> | (Hneg & m & ->)].
    + now left.
    + right. exists Buy, m. split; [unfold signed, stake; lia | reflexivity].
  - destruct (short_exit_cases p size close
                {| order := Some Sell; entry_price := entry_price s |})
      as [-> | (Hneg & _)]; [|lia].
    right. exists Sell, m. split; [unfold signed, stake; lia | reflexivity].
Qed.

(** All outcomes of [next]. *)
Lemma next_cases p size close x s :
  next p size close x s = (s, [])
  \/ (order s = None /\ exists t acts,
        (size = 0 \/ signed t * size < 0) /\
        submissions acts = [t] /\
        next p size close x s
        = ({| order := Some t; entry_price := entry_price s |}, acts)).
Proof.
  unfold next. destruct (order s) eqn:Ho; [now left|].
  destruct (size =? 0) eqn:Hz.
  - apply Z.eqb_eq in Hz.
    destruct (0 <? x).
    { right. split; [reflexivity|]. exists Buy, [Submit Buy]. auto. }
    destruct (x <? 0).
    { right. split; [reflexivity|]. exists Sell, [Submit Sell]. auto. }
    destruct (exits_cases p size close s) as [-> | (t & m & Ht & ->)];
      [now left|]. subst size. lia.
  - destruct (exits_cases p size close s) as [-> | (t & m & Ht & ->)];
      [now left|].
    right. split; [reflexivity|]. exists t, [Submit t; Log m]. auto.
Qed.

Lemma next_submits_at_most_one p size close x s :
  (length (submissions (snd (next p size close x s))) <= 1)%nat.
Proof.
  destruct (next_cases p size close x s)
    as [-> | (_ & t & acts & _ & Hs & ->)]; simpl; [lia|].
  rewrite Hs. simpl. lia.
Qed.

Lemma engine_inv_bar p close x sys :
  engine_inv sys -> engine_inv (on_bar p close x sys).
Proof.
  unfold engine_inv, on_bar. intros Hinv.
  destruct (next_cases p (position sys) close x (strat sys))
    as [-> | (Ho & t & acts & Ht & Hs & ->)]; simpl.
  - rewrite app_nil_r. exact Hinv.
  - rewrite Hs.
    destruct (waiting sys) as [|t0 [|? ?]]; simpl in *.
    + split; [congruence|].
      destruct Ht as [Ht | Ht]; [now left | right].
      destruct t; unfold signed, stake in *; lia.
    + destruct Hinv as [Hinv _]. congruence.
    + contradiction.
Qed.

Lemma engine_inv_report st price sys :
  engine_inv sys -> engine_inv (on_report st price sys).
Proof.
  unfold engine_inv, on_report. intros Hinv.
  destruct (waiting sys) as [|t [|? ?]] eqn:Hw; simpl in *.
  - now rewrite Hw.
  - destruct (is_completed st) eqn:Hc.
    + destruct (notify_order (strat sys) _) as [s' acts]. simpl.
      destruct Hinv as [_ [Hp | Hp]]; rewrite Hp;
        destruct t; unfold signed, stake; lia.
    + rewrite notify_other_status by exact Hc. simpl.
      destruct (is_dead st); simpl; [|exact Hinv].
      destruct Hinv as [_ [Hp | Hp]]; rewrite Hp;
        destruct t; unfold signed, stake; lia.
  - contradiction.
Qed.

Lemma engine_inv_run p evs sys :
  engine_inv sys -> engine_inv (run p evs sys).
Proof.
  unfold run. revert sys.
  induction evs as [|ev evs IH]; intros sys Hinv; simpl; [exact Hinv|].
  apply IH. destruct ev; simpl.
  - now apply engine_inv_bar.
  - now apply engine_inv_report.
Qed.

Lemma engine_inv_start : engine_inv (start (F := F)).
Proof. unfold engine_inv, start, stake. simpl. lia. Qed.

End StrategyFacts.

Section StrategyClaims.
Import Strategy.
Context {F : Type} `{FloatOps F}.

Implicit Types (s : State F) (p : Params F) (sys : System F).

(** C1 (as the code has it): when the broker reports the waiting order
    completed, [entry_price] becomes the executed price -- for an exit fill
    as well, where it is overwritten and not cleared -- and the
    pending-order marker is cleared; the position moves by the stake, so an
    entry fill from flat gives Long for a buy and Short for a sell, and the
    fill that closes the open stake gives Flat. *)
Theorem completed_fill_effect sys t rest price :
  waiting sys = t :: rest ->
  let sys' := on_report Completed price sys in
  entry_price (strat sys') = Some price /\
  order (strat sys') = None /\
  position sys' = position sys + signed t /\
  (position sys = 0 ->
   side_of (position sys') = match t with Buy => Long | Sell => Short end) /\
  (position sys = - signed t -> side_of (position sys') = Flat).
Proof.
  intros Hw. unfold on_report. rewrite Hw. simpl.
  unfold notify_order. simpl.
  destruct t; simpl; repeat split; intros ->; reflexivity.
Qed.

(** C2: with the pending-order marker set, [next] submits nothing and
    leaves the strategy as it is; no call of [next] submits more than one
    order; and along every run of the engine from its start at most one
    order waits at the broker, the marker is set while it waits, and the
    position never exceeds one stake. *)
Theorem single_order_single_position :
  (forall p size close x t e,
     next p size close x {| order := Some t; entry_price := e |}
     = ({| order := Some t; entry_price := e |}, [])) /\
  (forall p size close x s,
     (length (submissions (snd (next p size close x s))) <= 1)%nat) /\
  (forall p evs,
     let sys := run p evs start in
     (length (waiting sys) <= 1)%nat /\
     (waiting sys <> [] -> order (strat sys) <> None) /\
     - stake <= position sys <= stake).
Proof.
  split; [reflexivity|].
  split; [apply next_submits_at_most_one|].
  intros p evs sys.
  pose proof (engine_inv_run p evs start engine_inv_start) as Hinv.
  fold sys in Hinv. unfold engine_inv in Hinv.
  destruct (waiting sys) as [|t [|? ?]]; simpl.
  - repeat split; try lia; congruence.
  - destruct Hinv as [Ho Hp]. repeat split; try lia; try tauto;
      destruct Hp as [-> | ->]; destruct t; unfold signed, stake; lia.
  - contradiction.
Qed.

(** C3: with no order pending, a long position and a recorded entry
    price, a close that meets the profit target and the stop-loss level at
    once leaves through the profit-target branch; for a short position the
    mirrored target test likewise comes first. *)
Theorem target_checked_before_stop :
  (forall p size close x s e,
     order s = None -> 0 < size ->
     entry_price s = Some e -> ftruthy e = true ->
     fge close (fmul e (fadd fone (target p))) = true ->
     fle close (fmul e (fsub fone (stop_loss p))) = true ->
     next p size close x s
     = ({| order := Some Sell; entry_price := Some e |},
        [Submit Sell; Log (LongTarget close)])) /\
  (forall p size close x s e,
     order s = None -> size < 0 ->
     entry_price s = Some e -> ftruthy e = true ->
     fle close (fmul e (fsub fone (target p))) = true ->
     fge close (fmul e (fadd fone (stop_loss p))) = true ->
     next p size close x s
     = ({| order := Some Buy; entry_price := Some e |},
        [Submit Buy; Log (ShortTarget close)])).
Proof.
  split; intros p size close x s e Ho Hsize He Ht Htarget _.
  - assert (Hz : (size =? 0) = false) by (apply Z.eqb_neq; lia).
    assert (Hp : (0 <? size) = true) by (apply Z.ltb_lt; lia).
    assert (Hn : (size <? 0) = false) by (apply Z.ltb_ge; lia).
    unfold next, exits, long_exit, short_exit.
    rewrite Ho, Hz, He, Hp, Ht. simpl. rewrite Htarget. simpl.
    rewrite Hn. reflexivity.
  - assert (Hz : (size =? 0) = false) by (apply Z.eqb_neq; lia).
    assert (Hp : (0 <? size) = false) by (apply Z.ltb_ge; lia).
    assert (Hn : (size <? 0) = true) by (apply Z.ltb_lt; lia).
    unfold next, exits, long_exit, short_exit.
    rewrite Ho, Hz, He, Hp. simpl. rewrite He, Hn, Ht. simpl.
    rewrite Htarget. reflexivity.
Qed.

(** C7: a report whose status is not [Completed] leaves the strategy as
    it is, so a set pending-order marker stays set; from then on, as long
    as no [Completed] report arrives, the marker remains, the strategy
    state does not change, no order joins those waiting at the broker, and
    [next] on any further bar submits nothing and decides nothing. *)
Theorem dead_order_blocks_strategy p sys st price evs :
  order (strat sys) <> None ->
  is_completed st = false ->
  Forall (fun ev => match ev with
                    | Report st' _ => is_completed st' = false
                    | Bar _ _ => True
                    end) evs ->
  let sys1 := on_report st price sys in
  let sys2 := run p evs sys1 in
  strat sys1 = strat sys /\
  strat sys2 = strat sys /\
  position sys2 = position sys /\
  (length (waiting sys2) <= length (waiting sys))%nat /\
  (forall close x,
     next p (position sys2) close x (strat sys2) = (strat sys2, [])).
Proof.
  intros Ho Hst Hevs sys1 sys2.
  assert (H1 : strat sys1 = strat sys /\ position sys1 = position sys /\
               (length (waiting sys1) <= length (waiting sys))%nat).
  { subst sys1. unfold on_report.
    destruct (waiting sys) as [|t rest] eqn:Hw; [rewrite Hw; auto|].
    rewrite notify_other_status by exact Hst. rewrite Hst. simpl.
    repeat split. destruct (is_dead st); simpl; lia. }
  clearbody sys1. destruct H1 as (Hs1 & Hp1 & Hl1).
  assert (H2 : strat sys2 = strat sys1 /\ position sys2 = position sys1 /\
               (length (waiting sys2) <= length (waiting sys1))%nat).
  { subst sys2. unfold run.
    assert (Ho1 : order (strat sys1) <> None) by (rewrite Hs1; exact Ho).
    clear Hs1 Hp1 Hl1. revert sys1 Ho1.
    induction Hevs as [|ev evs Hev _ IH]; intros sys1 Ho1; simpl; [auto|].
    assert (Hstep : strat (step p ev sys1) = strat sys1 /\
                    position (step p ev sys1) = position sys1 /\
                    (length (waiting (step p ev sys1))
                     <= length (waiting sys1))%nat).
    { destruct ev as [close x | st' price']; simpl.
      - unfold on_bar. rewrite next_pending by exact Ho1. simpl.
        rewrite app_nil_r. auto.
      - unfold on_report.
        destruct (waiting sys1) as [|t rest] eqn:Hw; [rewrite Hw; auto|].
        rewrite notify_other_status by exact Hev. rewrite Hev. simpl.
        repeat split. destruct (is_dead st'); simpl; lia. }
    destruct Hstep as (Hs & Hp & Hl).
    destruct (IH (step p ev sys1)) as (Hs' & Hp' & Hl').
    { rewrite Hs. exact Ho1. }
    repeat split; [congruence | congruence | lia]. }
  destruct H2 as (Hs2 & Hp2 & Hl2).
  repeat split; try congruence; try lia.
  intros close x. apply next_pending. rewrite Hs2, Hs1. exact Ho.
Qed.

End StrategyClaims.

(** *** The strategy on numbers *)

Section StrategyRuns.
Import Strategy.
Local Open Scope Q_scope.

(** C1, as the spec states it, fails: after a long entry filled at 100 and
    the exit filled at 101 the position is flat, and [entry_price] is the
    exit price 101, not unset. *)
Lemma exit_fill_overwrites_entry_price :
  let p := {| target := 3 # 1000; stop_loss := 1 # 1000;
              short_window := 10; long_window := 50 |} in
  let sys := run p [Bar 99 1%Z; Report Completed 100;
                    Bar 101 0%Z; Report Completed 101] start in
  side_of (position sys) = Flat /\
  waiting sys = [] /\
  entry_price (strat sys) = Some 101 /\
  entry_price (strat sys) <> None.
Proof. vm_compute. repeat split; congruence. Qed.

(** The spec's example of the exit priority: entry 100, target 0.003,
    stop loss 0.001, close 100.30 leaves through the profit branch. *)
Example exit_priority_example :
  next {| target := 3 # 1000; stop_loss := 1 # 1000;
          short_window := 10; long_window := 50 |}
       1 (1003 # 10) 0
       {| order := None; entry_price := Some 100 |}
  = ({| order := Some Sell; entry_price := Some 100 |},
     [Submit Sell; Log (LongTarget (1003 # 10))]).
Proof. reflexivity. Qed.

Lemma completed_fill_effect_witness :
  let sys := {| strat := {| order := Some Sell; entry_price := Some 100 |};
                position := 1; waiting := [Sell]; printed := [] |} in
  let sys' := on_report Completed 101 sys in
  entry_price (strat sys') = Some 101 /\
  order (strat sys') = None /\
  position sys' = (position sys + signed Sell)%Z /\
  (position sys = 0%Z -> side_of (position sys') = Short) /\
  (position sys = (- signed Sell)%Z -> side_of (position sys') = Flat).
Proof.
  exact (completed_fill_effect
           {| strat := {| order := Some Sell; entry_price := Some 100 |};
              position := 1; waiting := [Sell]; printed := [] |}
           Sell [] 101 eq_refl).
Defined.

Lemma target_checked_before_stop_witness :
  next {| target := 3 # 1000; stop_loss := - (5 # 1000);
          short_window := 10; long_window := 50 |}
       1 (1003 # 10) 0
       {| order := None; entry_price := Some 100 |}
  = ({| order := Some Sell; entry_price := Some 100 |},
     [Submit Sell; Log (LongTarget (1003 # 10))]).
Proof.
  apply (proj1 target_checked_before_stop); reflexivity.
Defined.

Lemma dead_order_blocks_strategy_witness :
  let p := {| target := 3 # 1000; stop_loss := 1 # 1000;
              short_window := 10; long_window := 50 |} in
  let sys := {| strat := {| order := Some Buy; entry_price := None |};
                position := 0; waiting := [Buy]; printed := [] |} in
  let evs := [Bar 100 1%Z; Report Accepted 0; Bar 101 (-1)%Z] in
  let sys1 := on_report Rejected 0 sys in
  let sys2 := run p evs sys1 in
  strat sys1 = strat sys /\
  strat sys2 = strat sys /\
  position sys2 = position sys /\
  (length (waiting sys2) <= length (waiting sys))%nat /\
  (forall close x,
     next p (position sys2) close x (strat sys2) = (strat sys2, [])).
Proof.
  apply dead_order_blocks_strategy.
  - simpl. congruence.
  - reflexivity.
  - repeat constructor.
Defined.

End StrategyRuns.

(** ** The normaliser *)

Section NormalizerFacts.
Import Table Normalizer.
Local Open Scope string_scope.

Lemma split_on_absent sep s :
  occurs sep s = false -> split_on sep s = [s].
Proof.
  induction s as [|a s IH]; simpl; [reflexivity|].
  intros Hocc. apply orb_false_iff in Hocc as [Ha Hs].
  rewrite Ha, (IH Hs). reflexivity.
Qed.

Lemma split_on_first sep a b :
  occurs sep a = false ->
  split_on sep (a ++ String sep b) = a :: split_on sep b.
Proof.
  induction a as [|c a IH]; simpl.
  - intros _. now rewrite Ascii.eqb_refl.
  - intros Hocc. apply orb_false_iff in Hocc as [Hc Ha].
    rewrite Hc, (IH Ha). reflexivity.
Qed.

Lemma append_empty_r s : s ++ EmptyString = s.
Proof.
  induction s as [|a s IH]; [reflexivity|].
  change (String a (s ++ EmptyString) = String a s). now rewrite IH.
Qed.

Lemma occurs_app c a b : occurs c (a ++ b) = occurs c a || occurs c b.
Proof.
  induction a as [|x a IH]; simpl; [reflexivity|].
  rewrite IH. apply orb_assoc.
Qed.

Lemma span_no_plus_stop t r :
  occurs "+"%char t = false ->
  span_no_plus (t ++ String "+"%char r) = (t, String "+"%char r).
Proof.
  induction t as [|c t IH]; simpl; [reflexivity|].
  intros Hocc. apply orb_false_iff in Hocc as [Hc Ht].
  unfold is_plus. rewrite Hc, (IH Ht). reflexivity.
Qed.

Lemma span_no_plus_all t :
  occurs "+"%char t = false -> span_no_plus t = (t, EmptyString).
Proof.
  induction t as [|c t IH]; simpl; [reflexivity|].
  intros Hocc. apply orb_false_iff in Hocc as [Hc Ht].
  unfold is_plus. rewrite Hc, (IH Ht). reflexivity.
Qed.

Lemma skip_plus_head t r :
  t <> EmptyString -> occurs "+"%char t = false ->
  skip_plus (t ++ r) = t ++ r.
Proof.
  destruct t as [|c t]; [congruence|]. simpl.
  intros _ Hocc. apply orb_false_iff in Hocc as [Hc _].
  unfold is_plus. now rewrite Hc.
Qed.

Lemma digit_not_T a : is_digit a = true -> Ascii.eqb a "T"%char = false.
Proof.
  destruct a as [[] [] [] [] [] [] [] []]; vm_compute; congruence.
Qed.

(** What an accepted batch turns into. *)
Lemma normalize_ok data df :
  normalize data = Ok df ->
  let rows := map (pad 6) data in
  exists d t t' tz,
    split_T (nth_cells 0 rows) = Ok (d, t) /\
    extract_tz t = Ok (t', tz) /\
    df = {| index := None;
            columns := [("Date", d); ("Time", t'); ("Timezone", tz);
                        ("Open", nth_cells 1 rows);
                        ("High", nth_cells 2 rows);
                        ("Low", nth_cells 3 rows);
                        ("Close", nth_cells 4 rows)] |}.
Proof.
  unfold normalize, from_records.
  destruct (Nat.eqb (width data) (length raw_labels)); [|discriminate].
  cbn -[nth_cells pad split_T extract_tz].
  destruct (split_T _) as [[d t]|e] eqn:Hsplit; [|discriminate].
  cbn -[nth_cells pad split_T extract_tz].
  destruct (extract_tz t) as [[t' tz]|e] eqn:Hex; [|discriminate].
  cbn -[nth_cells pad split_T extract_tz].
  intros [= <-]. exists d, t, t', tz. auto.
Qed.

Lemma split_T_ok col d t :
  split_T col = Ok (d, t) ->
  d = map (fun c => opt_cell (nth_error (pieces c) 0)) col /\
  t = map (fun c => opt_cell (nth_error (pieces c) 1)) col.
Proof.
  unfold split_T. destruct (negb (str_ok col)); [discriminate|].
  destruct (Nat.eqb _ 2); [|discriminate].
  rewrite !map_map. intros [= <- <-]. auto.
Qed.

Lemma extract_tz_ok col t tz :
  extract_tz col = Ok (t, tz) ->
  t = map (fun c => fst (extract_cell c)) col /\
  tz = map (fun c => snd (extract_cell c)) col.
Proof.
  unfold extract_tz. destruct (negb (str_ok col)); [discriminate|].
  intros [= <- <-]. auto.
Qed.

Lemma pieces_date_time date rest :
  occurs "T"%char date = false -> occurs "T"%char rest = false ->
  pieces (CStr (date ++ String "T"%char rest)) = [date; rest].
Proof.
  intros Hd Hr. simpl.
  now rewrite (split_on_first _ _ _ Hd), (split_on_absent _ _ Hr).
Qed.

Lemma extract_with_offset time h1 h2 m1 m2 :
  time <> EmptyString -> occurs "+"%char time = false ->
  is_digit h1 && is_digit h2 && is_digit m1 && is_digit m2 = true ->
  extract (time ++ offset_text h1 h2 m1 m2)
  = Some (time, Some (offset_text h1 h2 m1 m2)).
Proof.
  intros Hne Hplus Hdig.
  apply andb_true_iff in Hdig as [Hdig Hm2].
  apply andb_true_iff in Hdig as [Hdig Hm1].
  apply andb_true_iff in Hdig as [Hh1 Hh2].
  unfold extract. rewrite (skip_plus_head _ _ Hne Hplus).
  unfold offset_text at 1. rewrite (span_no_plus_stop _ _ Hplus).
  destruct time as [|c time]; [congruence|].
  unfold offset_at, offset_text.
  rewrite Hh1, Hh2, Hm1, Hm2. reflexivity.
Qed.

Lemma extract_without_offset time :
  time <> EmptyString -> occurs "+"%char time = false ->
  extract time = Some (time, None).
Proof.
  intros Hne Hplus. unfold extract.
  assert (Hskip : skip_plus time = time).
  { destruct time as [|c time]; [congruence|]. simpl in *.
    apply orb_false_iff in Hplus as [Hc _].
    unfold is_plus. now rewrite Hc. }
  rewrite Hskip, (span_no_plus_all _ Hplus).
  destruct time; [congruence | reflexivity].
Qed.

Lemma offset_has_no_T h1 h2 m1 m2 :
  is_digit h1 && is_digit h2 && is_digit m1 && is_digit m2 = true ->
  occurs "T"%char (offset_text h1 h2 m1 m2) = false.
Proof.
  intros Hdig.
  apply andb_true_iff in Hdig as [Hdig Hm2].
  apply andb_true_iff in Hdig as [Hdig Hm1].
  apply andb_true_iff in Hdig as [Hh1 Hh2].
  unfold offset_text. simpl.
  now rewrite !digit_not_T.
Qed.

(** The first cell of a record survives the filling up of short
    records. *)
Lemma first_cell_padded (data : list (list Cell)) w i r c :
  data !! i = Some r -> head r = Some c ->
  nth_cells 0 (map (pad w) data) !! i = Some c.
Proof.
  intros Hi Hc. unfold nth_cells.
  rewrite !list_lookup_fmap, Hi. simpl.
  destruct r as [|c' r]; [discriminate|]. simpl in *. congruence.
Qed.

(** C9: in every batch the normaliser accepts, a record whose timestamp
    reads date, ['T'], time (time not empty, neither part with a ['T'],
    the time without ['+']) and then an offset [+HH:MM] comes out with
    exactly these three parts as Date, Time and Timezone, and joining them
    gives the timestamp back; without the offset the Timezone is the
    missing value, not a default, and the join still gives the timestamp
    back. *)
Theorem timestamp_split_rejoin
    (data : list (list Cell)) df i r date time h1 h2 m1 m2 :
  normalize data = Ok df ->
  data !! i = Some r ->
  occurs "T"%char date = false ->
  occurs "T"%char time = false ->
  occurs "+"%char time = false ->
  time <> EmptyString ->
  is_digit h1 && is_digit h2 && is_digit m1 && is_digit m2 = true ->
  let off := offset_text h1 h2 m1 m2 in
  (head r = Some (CStr (date ++ "T" ++ time ++ off)) ->
   cell_at "Date" i df = Some (CStr date) /\
   cell_at "Time" i df = Some (CStr time) /\
   cell_at "Timezone" i df = Some (CStr off)) /\
  (head r = Some (CStr (date ++ "T" ++ time)) ->
   cell_at "Date" i df = Some (CStr date) /\
   cell_at "Time" i df = Some (CStr time) /\
   cell_at "Timezone" i df = Some CNone) /\
  rejoin (CStr date) (CStr time) (CStr off) = date ++ "T" ++ time ++ off /\
  rejoin (CStr date) (CStr time) CNone = date ++ "T" ++ time.
Proof.
  intros Hnorm Hi HdT HtT Hplus Hne Hdig off. subst off.
  apply normalize_ok in Hnorm as (d & t & t' & tz & Hsplit & Hex & ->).
  apply split_T_ok in Hsplit as [-> ->].
  apply extract_tz_ok in Hex as [-> ->].
  unfold cell_at. cbn [getcol columns find fst snd String.eqb Ascii.eqb
                       Bool.eqb].
  assert (HoffT : occurs "T"%char (time ++ offset_text h1 h2 m1 m2) = false).
  { rewrite occurs_app, HtT. now apply offset_has_no_T. }
  split; [|split].
  - intros Hhead.
    pose proof (first_cell_padded data 6 i r _ Hi Hhead) as Hcell.
    rewrite !list_lookup_fmap, Hcell. cbn [fmap option_fmap option_map].
    change (date ++ "T" ++ time ++ offset_text h1 h2 m1 m2)
      with (date ++ String "T"%char (time ++ offset_text h1 h2 m1 m2)).
    rewrite (pieces_date_time _ _ HdT HoffT).
    cbn [nth_error opt_cell extract_cell].
    rewrite (extract_with_offset _ _ _ _ _ Hne Hplus Hdig). auto.
  - intros Hhead.
    pose proof (first_cell_padded data 6 i r _ Hi Hhead) as Hcell.
    rewrite !list_lookup_fmap, Hcell. cbn [fmap option_fmap option_map].
    change (date ++ "T" ++ time) with (date ++ String "T"%char time).
    rewrite (pieces_date_time _ _ HdT HtT).
    cbn [nth_error opt_cell extract_cell].
    rewrite (extract_without_offset _ Hne Hplus). auto.
  - unfold rejoin. simpl. split; [reflexivity|].
    now rewrite append_empty_r.
Qed.

End NormalizerFacts.

Section NormalizerRuns.
Import Table Normalizer.
Local Open Scope string_scope.

Lemma timestamp_split_rejoin_witness :
  let data := [[CStr "2025-01-05T09:15:00+05:30";
                CNum 1; CNum 2; CNum 3; CNum 4; CNum 100]] in
  exists df,
    normalize data = Ok df /\
    cell_at "Date" 0 df = Some (CStr "2025-01-05") /\
    cell_at "Time" 0 df = Some (CStr "09:15:00") /\
    cell_at "Timezone" 0 df = Some (CStr "+05:30") /\
    rejoin (CStr "2025-01-05") (CStr "09:15:00") (CStr "+05:30")
    = "2025-01-05T09:15:00+05:30".
Proof.
  intros data.
  eassert (Hn : normalize data = Ok _) by (vm_compute; reflexivity).
  destruct (timestamp_split_rejoin data _ 0%nat _
              "2025-01-05" "09:15:00" "0" "5" "3" "0"
              Hn eq_refl eq_refl eq_refl eq_refl
              ltac:(discriminate) eq_refl)
    as (Hwith & _ & Hjoin & _).
  destruct (Hwith eq_refl) as (Hd & Ht & Hz).
  eexists. split; [exact Hn|].
  repeat split; assumption.
Defined.

(** C8, as the spec states it, fails for the normaliser: a record that
    carries the volume 100 is accepted, and the series that comes out has
    the seven fields Date .. Close and no volume field at all. *)
Lemma normalizer_drops_volume :
  let data := [[CStr "2025-01-05T09:15:00+05:30";
                CNum 1; CNum 2; CNum 3; CNum 4; CNum 100]] in
  exists df,
    normalize data = Ok df /\
    names df = out_labels /\
    cell_at "Volume" 0 df = None /\
    cell_at "volume" 0 df = None.
Proof. eexists. split; [vm_compute; reflexivity|]. now vm_compute. Qed.

(** Records that leave the volume out are not accepted: five values do
    not fill the six labels. *)
Example records_without_volume_rejected :
  normalize [[CStr "2025-01-05T09:15:00+05:30";
              CNum 1; CNum 2; CNum 3; CNum 4]]
  = Raise ValueError.
Proof. reflexivity. Qed.

End NormalizerRuns.

(** ** Tables and the loader *)

Section TableFacts.
Import Table.
Local Open Scope string_scope.

(** The test "column [c] carries the label [n]". *)
Local Abbreviation lab n := (fun c : Column => String.eqb n (fst c)).

Lemma has_col_find n df :
  has_col n df = true <-> find (lab n) (columns df) <> None.
Proof.
  unfold has_col, names.
  induction (columns df) as [|c cols IH]; simpl; [split; congruence|].
  destruct (String.eqb n (fst c)); simpl; [split; congruence | exact IH].
Qed.

Lemma has_col_false_find n df :
  has_col n df = false <-> find (lab n) (columns df) = None.
Proof.
  unfold has_col, names.
  induction (columns df) as [|c cols IH]; simpl; [tauto|].
  destruct (String.eqb n (fst c)); simpl; [split; congruence | exact IH].
Qed.

Lemma find_head_filter (n : string) (cols : list Column) :
  find (lab n) cols = head (List.filter (lab n) cols).
Proof.
  induction cols as [|c cols IH]; simpl; [reflexivity|].
  destruct (String.eqb n (fst c)); simpl; [reflexivity | exact IH].
Qed.

Lemma find_app_none (n : string) (a b : list Column) :
  find (lab n) a = None -> find (lab n) (a ++ b) = find (lab n) b.
Proof.
  induction a as [|c a IH]; simpl; [reflexivity|].
  destruct (String.eqb n (fst c)); [discriminate | exact IH].
Qed.

Lemma find_app_some (n : string) (a b : list Column) c :
  find (lab n) a = Some c -> find (lab n) (a ++ b) = Some c.
Proof.
  induction a as [|c' a IH]; simpl; [discriminate|].
  destruct (String.eqb n (fst c')); [auto | exact IH].
Qed.

Lemma find_filter_other (n m : string) (cols : list Column) :
  n <> m -> find (lab n) (List.filter (lab m) cols) = None.
Proof.
  intros Hne. induction cols as [|c cols IH]; simpl; [reflexivity|].
  destruct (String.eqb m (fst c)) eqn:Hm; simpl; [|exact IH].
  apply String.eqb_eq in Hm. subst m.
  destruct (String.eqb n (fst c)) eqn:Hn; [|exact IH].
  apply String.eqb_eq in Hn. congruence.
Qed.

(** Selecting keeps, under each chosen label, the first column that
    carried it. *)
Lemma pick_find ns (cols res : list Column) n :
  pick ns cols = Ok res -> In n ns ->
  find (lab n) res = find (lab n) cols.
Proof.
  revert res. induction ns as [|m ns IH]; intros res Hpick Hin;
    [destruct Hin|].
  cbn [pick] in Hpick.
  destruct (List.filter (lab m) cols) as [|c found] eqn:Hf; [discriminate|].
  destruct (pick ns cols) as [rest|] eqn:Hrest; cbn [rbind] in Hpick;
    [|discriminate].
  injection Hpick as <-.
  destruct (String.eqb n m) eqn:Hnm.
  - apply String.eqb_eq in Hnm. subst m.
    rewrite (find_head_filter n cols), Hf.
    assert (Hc : In c (List.filter (lab n) cols)) by (rewrite Hf; now left).
    apply List.filter_In in Hc as [_ Hc].
    simpl. now rewrite Hc.
  - apply String.eqb_neq in Hnm.
    change (c :: found ++ rest)%list with ((c :: found) ++ rest)%list.
    rewrite find_app_none.
    + apply (IH rest eq_refl). destruct Hin as [->|Hin]; [congruence|auto].
    + rewrite <- Hf. now apply find_filter_other.
Qed.

Lemma pick_has ns (cols res : list Column) n :
  pick ns cols = Ok res -> In n ns -> find (lab n) cols <> None.
Proof.
  revert res. induction ns as [|m ns IH]; intros res Hpick Hin;
    [destruct Hin|].
  cbn [pick] in Hpick.
  destruct (List.filter (lab m) cols) as [|c found] eqn:Hf; [discriminate|].
  destruct (pick ns cols) as [rest|] eqn:Hrest; cbn [rbind] in Hpick;
    [|discriminate].
  destruct Hin as [-> | Hin]; [|now apply (IH rest)].
  rewrite find_head_filter, Hf. discriminate.
Qed.

Lemma find_setcol_same n v df :
  find (lab n) (columns (setcol n v df)) = Some (n, v).
Proof.
  unfold setcol. simpl.
  destruct (has_col n df) eqn:Hhas.
  - apply has_col_find in Hhas.
    induction (columns df) as [|c cols IH]; simpl in *; [congruence|].
    destruct (String.eqb n (fst c)) eqn:Hc; simpl.
    + now rewrite String.eqb_refl.
    + rewrite Hc. auto.
  - apply has_col_false_find in Hhas.
    rewrite (find_app_none _ _ _ Hhas). simpl.
    now rewrite String.eqb_refl.
Qed.

Lemma find_setcol_other n m v df :
  n <> m ->
  find (lab n) (columns (setcol m v df)) = find (lab n) (columns df).
Proof.
  intros Hne. unfold setcol. simpl.
  assert (Hnm : String.eqb n m = false) by now apply String.eqb_neq.
  destruct (has_col m df).
  - induction (columns df) as [|c cols IH]; simpl; [reflexivity|].
    destruct (String.eqb m (fst c)) eqn:Hm; simpl.
    + apply String.eqb_eq in Hm. rewrite <- Hm, Hnm. exact IH.
    + now rewrite IH.
  - induction (columns df) as [|c cols IH]; simpl.
    + now rewrite Hnm.
    + now rewrite IH.
Qed.

Lemma find_remove_first_other n m (cols : list Column) :
  n <> m -> find (lab n) (remove_first m cols) = find (lab n) cols.
Proof.
  intros Hne. induction cols as [|c cols IH]; simpl; [reflexivity|].
  destruct (String.eqb m (fst c)) eqn:Hm; simpl.
  - apply String.eqb_eq in Hm.
    assert (Hn : String.eqb n (fst c) = false)
      by (apply String.eqb_neq; congruence).
    now rewrite Hn.
  - now rewrite IH.
Qed.

(** A renaming that neither takes the label [n] away nor hands it out
    leaves the column under [n] alone. *)
Lemma find_rename_fixed m n df :
  (forall k, rename_label m k = n <-> k = n) ->
  find (lab n) (columns (rename m df)) = find (lab n) (columns df).
Proof.
  intros Hfix. unfold rename. simpl.
  induction (columns df) as [|c cols IH]; simpl; [reflexivity|].
  destruct (String.eqb n (fst c)) eqn:Hc.
  - apply String.eqb_eq in Hc.
    assert (Hr : rename_label m (fst c) = n) by (apply Hfix; auto).
    rewrite Hr, String.eqb_refl. destruct c as [k v]; simpl in *.
    now subst k.
  - assert (Hr : String.eqb n (rename_label m (fst c)) = false).
    { apply String.eqb_neq. intros Heq. symmetry in Heq.
      apply (proj1 (Hfix _)) in Heq. apply String.eqb_neq in Hc.
      congruence. }
    now rewrite Hr.
Qed.

(** Renaming [a] to [b] where no column is called [b] yet. *)
Lemma find_rename_moved a b df :
  find (lab b) (columns df) = None ->
  find (lab b) (columns (rename [(a, b)] df))
  = option_map (fun c => (b, snd c)) (find (lab a) (columns df)).
Proof.
  unfold rename. simpl.
  induction (columns df) as [|c cols IH]; simpl; [reflexivity|].
  destruct (String.eqb b (fst c)) eqn:Hb; [discriminate|].
  intros Hnone. unfold rename_label. simpl.
  rewrite (String.eqb_sym (fst c) a).
  destruct (String.eqb a (fst c)) eqn:Ha; simpl.
  - now rewrite String.eqb_refl.
  - rewrite Hb. auto.
Qed.

End TableFacts.

Section LoaderFacts.
Import Table Loader.
Local Open Scope string_scope.

Variable add_text : list Cell -> string -> result (list Cell).
Variable to_datetime_sum : list Cell -> list Cell -> result (list Cell).

Local Abbreviation lab n := (fun c : Column => String.eqb n (fst c)).

Lemma ohlc_names_keep_volume k :
  (rename_label ohlc_names k = "Volume" <-> k = "Volume") /\
  (rename_label ohlc_names k = "volume" <-> k = "volume").
Proof.
  unfold rename_label, ohlc_names. cbn [find fst snd].
  destruct (String.eqb k "Open") eqn:H1;
    [apply String.eqb_eq in H1; subst k; split; split; discriminate|].
  destruct (String.eqb k "High") eqn:H2;
    [apply String.eqb_eq in H2; subst k; split; split; discriminate|].
  destruct (String.eqb k "Low") eqn:H3;
    [apply String.eqb_eq in H3; subst k; split; split; discriminate|].
  destruct (String.eqb k "Close") eqn:H4;
    [apply String.eqb_eq in H4; subst k; split; split; discriminate|].
  tauto.
Qed.

(** Up to the test for a [Volume] column, the loader does not touch the
    columns called [Volume] or [volume]. *)
Lemma before_volume_test df dt v n :
  n = "Volume" \/ n = "volume" ->
  find (lab n)
    (columns (rename ohlc_names
       {| index := Some ("Date_Time", v);
          columns := remove_first "Date_Time"
                       (columns (setcol "Date_Time" dt df)) |}))
  = find (lab n) (columns df).
Proof.
  intros Hn.
  rewrite find_rename_fixed.
  - cbn [columns]. rewrite find_remove_first_other.
    + apply find_setcol_other. destruct Hn; subst n; discriminate.
    + destruct Hn; subst n; discriminate.
  - intros k. destruct Hn; subst n; apply ohlc_names_keep_volume.
Qed.

Lemma load_data_volume df out :
  load_data add_text to_datetime_sum df = Ok out ->
  has_col "volume" out = true /\
  (has_col "Volume" df = false ->
   getcol "volume" out = Ok (repeat (CNum 0) (nrows out))) /\
  (has_col "Volume" df = true -> has_col "volume" df = false ->
   getcol "volume" out = getcol "Volume" df).
Proof.
  unfold load_data.
  destruct (getcol "Date" df) as [d|]; cbn [rbind]; [|discriminate].
  destruct (add_text d " ") as [d'|]; cbn [rbind]; [|discriminate].
  destruct (getcol "Time" df) as [t|]; cbn [rbind]; [|discriminate].
  destruct (to_datetime_sum d' t) as [dt|]; cbn [rbind]; [|discriminate].
  unfold set_index.
  destruct (getcol "Date_Time" _) as [v|]; cbn [rbind]; [|discriminate].
  set (df3 := rename ohlc_names _).
  assert (Hkeep : forall n, n = "Volume" \/ n = "volume" ->
            find (lab n) (columns df3) = find (lab n) (columns df))
    by (intros n Hn; apply before_volume_test; exact Hn).
  assert (Hidx : index df3 = Some ("Date_Time", v)) by reflexivity.
  clearbody df3.
  assert (Hsame : has_col "Volume" df3 = has_col "Volume" df).
  { destruct (has_col "Volume" df) eqn:Hv.
    - apply has_col_find. rewrite Hkeep by auto. now apply has_col_find.
    - apply has_col_false_find. rewrite Hkeep by auto.
      now apply has_col_false_find. }
  rewrite Hsame. unfold select.
  set (df4 := if negb (has_col "Volume" df) then _ else _).
  destruct (pick _ (columns df4)) as [cols|] eqn:Hpick; cbn [rbind];
    [|discriminate].
  intros [= <-].
  assert (Hin : In "volume" ["open"; "high"; "low"; "close"; "volume"])
    by (simpl; auto 10).
  pose proof (pick_find _ _ _ _ Hpick Hin) as Hfind.
  pose proof (pick_has _ _ _ _ Hpick Hin) as Hhas.
  split; [|split].
  - apply has_col_find. cbn [columns]. now rewrite Hfind.
  - intros Hno. unfold getcol. cbn [columns]. rewrite Hfind.
    subst df4. rewrite Hno. cbn [negb].
    rewrite find_setcol_same. cbn [snd].
    unfold nrows at 2. cbn [index setcol].
    unfold nrows. now rewrite Hidx.
  - intros Hyes Hlower. unfold getcol at 1. cbn [columns]. rewrite Hfind.
    subst df4. rewrite Hyes. cbn [negb].
    apply has_col_false_find in Hlower.
    rewrite find_rename_moved by (rewrite Hkeep by auto; exact Hlower).
    rewrite Hkeep by auto. unfold getcol.
    destruct (find (lab "Volume") (columns df)); reflexivity.
Qed.

(** The columns that carry one of the two volume labels. *)
Local Abbreviation vol := (fun k : string =>
  String.eqb "Volume" k || String.eqb "volume" k).

Lemma filter_setcol_other (p : string -> bool) m v df :
  p m = false ->
  List.filter (fun c : Column => p (fst c)) (columns (setcol m v df))
  = List.filter (fun c : Column => p (fst c)) (columns df).
Proof.
  intros Hp. unfold setcol. cbn [columns].
  destruct (has_col m df).
  - induction (columns df) as [|c cols IH]; simpl; [reflexivity|].
    destruct (String.eqb m (fst c)) eqn:Hm; simpl.
    + apply String.eqb_eq in Hm. rewrite <- Hm, Hp. exact IH.
    + destruct (p (fst c)); now rewrite IH.
  - rewrite List.filter_app. simpl. rewrite Hp. apply List.app_nil_r.
Qed.

Lemma filter_remove_first_other (p : string -> bool) m (cols : list Column) :
  p m = false ->
  List.filter (fun c : Column => p (fst c)) (remove_first m cols)
  = List.filter (fun c : Column => p (fst c)) cols.
Proof.
  intros Hp. induction cols as [|c cols IH]; simpl; [reflexivity|].
  destruct (String.eqb m (fst c)) eqn:Hm; simpl.
  - apply String.eqb_eq in Hm. now rewrite <- Hm, Hp.
  - now rewrite IH.
Qed.

(** A renaming that leaves the labels picked by [p] alone and hands none
    of them out keeps the columns under these labels. *)
Lemma filter_rename_fixed (p : string -> bool) m df :
  (forall k, p (rename_label m k) = p k) ->
  (forall k, p k = true -> rename_label m k = k) ->
  List.filter (fun c : Column => p (fst c)) (columns (rename m df))
  = List.filter (fun c : Column => p (fst c)) (columns df).
Proof.
  intros Hsame Hfix. unfold rename. cbn [columns].
  induction (columns df) as [|c cols IH]; simpl; [reflexivity|].
  rewrite Hsame. destruct (p (fst c)) eqn:Hc; [|exact IH].
  rewrite (Hfix _ Hc), IH. now destruct c.
Qed.

(** Renaming [a] to [b] puts the columns of both labels under [b], in
    the order they stand in. *)
Lemma filter_rename_merged a b df :
  List.filter (lab b) (columns (rename [(a, b)] df))
  = map (fun c : Column => (b, snd c))
      (List.filter
         (fun c : Column => String.eqb a (fst c) || String.eqb b (fst c))
         (columns df)).
Proof.
  unfold rename. cbn [columns].
  induction (columns df) as [|c cols IH]; simpl; [reflexivity|].
  assert (Hl : rename_label [(a, b)] (fst c)
               = if String.eqb a (fst c) then b else fst c).
  { unfold rename_label. cbn [find fst snd].
    rewrite (String.eqb_sym (fst c) a).
    now destruct (String.eqb a (fst c)). }
  rewrite Hl.
  destruct (String.eqb a (fst c)) eqn:Ha; simpl.
  - rewrite String.eqb_refl. now rewrite IH.
  - destruct (String.eqb b (fst c)) eqn:Hb; simpl; rewrite IH;
      [|reflexivity].
    apply String.eqb_eq in Hb. now rewrite <- Hb.
Qed.

Lemma filter_filter_label n m (cols : list Column) :
  List.filter (lab n) (List.filter (lab m) cols)
  = if String.eqb n m then List.filter (lab n) cols else [].
Proof.
  induction cols as [|c cols IH]; simpl; [now destruct (String.eqb n m)|].
  destruct (String.eqb m (fst c)) eqn:Hm; simpl.
  - apply String.eqb_eq in Hm. rewrite <- Hm, IH.
    now destruct (String.eqb n m).
  - rewrite IH. destruct (String.eqb n m) eqn:Hnm; [|reflexivity].
    apply String.eqb_eq in Hnm. subst m. now rewrite Hm.
Qed.

(** Under a label, selecting returns the columns of the frame that carry
    it, once for every time the label is asked for. *)
Lemma pick_filter ns (cols res : list Column) n :
  pick ns cols = Ok res ->
  List.filter (lab n) res
  = flat_map (fun m => if String.eqb n m then List.filter (lab n) cols
                       else []) ns.
Proof.
  revert res. induction ns as [|m ns IH]; intros res Hpick;
    cbn [pick] in Hpick.
  - now injection Hpick as <-.
  - destruct (List.filter (lab m) cols) as [|c found] eqn:Hf;
      [discriminate|].
    destruct (pick ns cols) as [rest|] eqn:Hrest; cbn [rbind] in Hpick;
      [|discriminate].
    injection Hpick as <-.
    change (c :: found ++ rest)%list with ((c :: found) ++ rest)%list.
    rewrite List.filter_app, <- Hf, (IH rest eq_refl).
    cbn [flat_map]. f_equal. apply filter_filter_label.
Qed.

Lemma pick_in ns (cols res : list Column) c :
  pick ns cols = Ok res -> In c res -> In c cols.
Proof.
  revert res. induction ns as [|m ns IH]; intros res Hpick Hin;
    cbn [pick] in Hpick.
  - injection Hpick as <-. destruct Hin.
  - destruct (List.filter (lab m) cols) as [|c0 found] eqn:Hf;
      [discriminate|].
    destruct (pick ns cols) as [rest|] eqn:Hrest; cbn [rbind] in Hpick;
      [|discriminate].
    injection Hpick as <-.
    change (c0 :: found ++ rest)%list with ((c0 :: found) ++ rest)%list in Hin.
    apply List.in_app_or in Hin as [Hin | Hin]; [|now apply (IH rest)].
    rewrite <- Hf in Hin. now apply List.filter_In in Hin.
Qed.

Lemma setcol_in n v df (c : Column) :
  In c (columns (setcol n v df)) -> fst c = n -> snd c = v.
Proof.
  unfold setcol. cbn [columns]. intros Hin Hc.
  destruct (has_col n df) eqn:Hhas.
  - apply List.in_map_iff in Hin as (c0 & Hc0 & _).
    destruct (String.eqb n (fst c0)) eqn:Hn; [now subst c|].
    subst c0. apply String.eqb_neq in Hn. congruence.
  - apply List.in_app_or in Hin as [Hin | [<- | []]]; [|reflexivity].
    assert (Htrue : has_col n df = true).
    { unfold has_col, names. apply List.existsb_exists. exists (fst c).
      split; [apply List.in_map; exact Hin|].
      rewrite Hc. apply String.eqb_refl. }
    congruence.
Qed.

Lemma ohlc_names_keep_volumes k :
  vol (rename_label ohlc_names k) = vol k /\
  (vol k = true -> rename_label ohlc_names k = k).
Proof.
  unfold rename_label, ohlc_names. cbn [find fst snd].
  destruct (String.eqb k "Open") eqn:H1;
    [apply String.eqb_eq in H1; subst k; split; [reflexivity|discriminate]|].
  destruct (String.eqb k "High") eqn:H2;
    [apply String.eqb_eq in H2; subst k; split; [reflexivity|discriminate]|].
  destruct (String.eqb k "Low") eqn:H3;
    [apply String.eqb_eq in H3; subst k; split; [reflexivity|discriminate]|].
  destruct (String.eqb k "Close") eqn:H4;
    [apply String.eqb_eq in H4; subst k; split; [reflexivity|discriminate]|].
  auto.
Qed.

(** All the volume columns of the loaded frame: every one of them is the
    zero column when the file has no [Volume] column, and otherwise they
    are the file's columns called [Volume] or [volume], in the order of
    the file. *)
Lemma load_data_volume_columns df out :
  load_data add_text to_datetime_sum df = Ok out ->
  (has_col "Volume" df = false ->
   forall c : Column, In c (columns out) -> fst c = "volume" ->
     snd c = repeat (CNum 0) (nrows out)) /\
  (has_col "Volume" df = true ->
   List.filter (lab "volume") (columns out)
   = map (fun c : Column => ("volume", snd c))
       (List.filter (fun c : Column => vol (fst c)) (columns df))).
Proof.
  unfold load_data.
  destruct (getcol "Date" df) as [d|]; cbn [rbind]; [|discriminate].
  destruct (add_text d " ") as [d'|]; cbn [rbind]; [|discriminate].
  destruct (getcol "Time" df) as [t|]; cbn [rbind]; [|discriminate].
  destruct (to_datetime_sum d' t) as [dt|]; cbn [rbind]; [|discriminate].
  unfold set_index.
  destruct (getcol "Date_Time" _) as [v|]; cbn [rbind]; [|discriminate].
  set (df3 := rename ohlc_names _).
  assert (Hkeep : forall n, n = "Volume" \/ n = "volume" ->
            find (lab n) (columns df3) = find (lab n) (columns df))
    by (intros n Hn; apply before_volume_test; exact Hn).
  assert (Hvols : List.filter (fun c : Column => vol (fst c)) (columns df3)
                  = List.filter (fun c : Column => vol (fst c)) (columns df)).
  { subst df3.
    rewrite (filter_rename_fixed vol)
      by (intros k; apply ohlc_names_keep_volumes).
    cbn [columns].
    rewrite (filter_remove_first_other vol) by reflexivity.
    apply (filter_setcol_other vol). reflexivity. }
  assert (Hidx : index df3 = Some ("Date_Time", v)) by reflexivity.
  clearbody df3.
  assert (Hsame : has_col "Volume" df3 = has_col "Volume" df).
  { destruct (has_col "Volume" df) eqn:Hv.
    - apply has_col_find. rewrite Hkeep by auto. now apply has_col_find.
    - apply has_col_false_find. rewrite Hkeep by auto.
      now apply has_col_false_find. }
  rewrite Hsame. unfold select.
  set (df4 := if negb (has_col "Volume" df) then _ else _).
  destruct (pick _ (columns df4)) as [cols|] eqn:Hpick; cbn [rbind];
    [|discriminate].
  intros [= <-]. cbn [columns]. split.
  - intros Hno c Hin Hc.
    apply (pick_in _ _ _ _ Hpick) in Hin.
    subst df4. rewrite Hno in *. cbn [negb] in *.
    rewrite (setcol_in _ _ _ _ Hin Hc).
    unfold nrows. cbn [index setcol]. now rewrite Hidx.
  - intros Hyes.
    rewrite (pick_filter _ _ _ "volume" Hpick). cbn [flat_map].
    change (String.eqb "volume" "open") with false.
    change (String.eqb "volume" "high") with false.
    change (String.eqb "volume" "low") with false.
    change (String.eqb "volume" "close") with false.
    change (String.eqb "volume" "volume") with true.
    cbn iota. rewrite List.app_nil_r. cbn [app].
    subst df4. rewrite Hyes. cbn [negb].
    rewrite filter_rename_merged, Hvols. reflexivity.
Qed.

End LoaderFacts.

(** C8 (as the code has it): a batch the normaliser accepts comes out
    with the fields Date, Time, Timezone, Open, High, Low, Close and
    without any volume field -- the source volume is dropped.  The volume
    of a candle is supplied by [load_data]: whenever it returns, its frame
    has a [volume] column.  When the file has no [Volume] column, every
    [volume] column of the result is 0 in every row (a lower-case
    [volume] column of the file is overwritten).  When the file has a
    [Volume] column, the [volume] columns of the result are the file's
    columns called [Volume] or [volume], in the order of the file: the
    file's [Volume] column alone when there is no [volume] column beside
    it, and two columns of the same name when there is. *)
Theorem volume_dropped_then_defaulted :
  (forall data df,
     Normalizer.normalize data = Ok df ->
     Table.names df = Normalizer.out_labels /\
     Table.has_col "Volume" df = false /\
     Table.has_col "volume" df = false) /\
  (forall add_text to_datetime_sum df out,
     Loader.load_data add_text to_datetime_sum df = Ok out ->
     Table.has_col "volume" out = true /\
     (Table.has_col "Volume" df = false ->
      Table.getcol "volume" out
      = Ok (repeat (Table.CNum 0) (Table.nrows out)) /\
      forall c : Table.Column,
        In c (Table.columns out) -> fst c = "volume"%string ->
        snd c = repeat (Table.CNum 0) (Table.nrows out)) /\
     (Table.has_col "Volume" df = true ->
      List.filter (fun c : Table.Column => String.eqb "volume" (fst c))
        (Table.columns out)
      = map (fun c : Table.Column => ("volume"%string, snd c))
          (List.filter
             (fun c : Table.Column =>
                String.eqb "Volume" (fst c) || String.eqb "volume" (fst c))
             (Table.columns df)) /\
      (Table.has_col "volume" df = false ->
       Table.getcol "volume" out = Table.getcol "Volume" df))).
Proof.
  split.
  - intros data df Hnorm.
    apply normalize_ok in Hnorm as (d & t & t' & tz & _ & _ & ->).
    repeat split.
  - intros add_text to_datetime_sum df out Hload.
    destruct (load_data_volume _ _ _ _ Hload) as (Hhas & Hzero & Hfile).
    destruct (load_data_volume_columns _ _ _ _ Hload) as (Hzeros & Hboth).
    split; [exact Hhas|]. split.
    + intros Hno. split; [exact (Hzero Hno) | exact (Hzeros Hno)].
    + intros Hyes. split; [exact (Hboth Hyes) | exact (Hfile Hyes)].
Qed.

Lemma volume_dropped_then_defaulted_witness :
  let add_text := fun (col : list Table.Cell) (_ : string) => Ok col in
  let to_datetime_sum := fun (a _ : list Table.Cell) => Ok a in
  let df := {| Table.index := None;
               Table.columns :=
                 [("Date"%string, [Table.CStr "2025-01-05"]);
                  ("Time"%string, [Table.CStr "09:15:00"]);
                  ("Open"%string, [Table.CNum 1]);
                  ("High"%string, [Table.CNum 2]);
                  ("Low"%string, [Table.CNum 3]);
                  ("Close"%string, [Table.CNum 4])] |} in
  exists out,
    Loader.load_data add_text to_datetime_sum df = Ok out /\
    Table.getcol "volume" out = Ok [Table.CNum 0].
Proof.
  intros add_text to_datetime_sum df. eexists.
  split; [vm_compute; reflexivity|].
  exact (proj1 (proj1 (proj2 (proj2 volume_dropped_then_defaulted
                                add_text to_datetime_sum df _ eq_refl))
                  eq_refl)).
Defined.

(** A file that carries both a [volume] and a [Volume] column is loaded
    with both of them under the one name [volume], the lower-case one
    first as it stands first in the file. *)
Example load_data_keeps_both_volumes :
  let add_text := fun (col : list Table.Cell) (_ : string) => Ok col in
  let to_datetime_sum := fun (a _ : list Table.Cell) => Ok a in
  let df := {| Table.index := None;
               Table.columns :=
                 [("Date"%string, [Table.CStr "2025-01-05"]);
                  ("Time"%string, [Table.CStr "09:15:00"]);
                  ("Open"%string, [Table.CNum 1]);
                  ("High"%string, [Table.CNum 2]);
                  ("Low"%string, [Table.CNum 3]);
                  ("Close"%string, [Table.CNum 4]);
                  ("volume"%string, [Table.CNum 7]);
                  ("Volume"%string, [Table.CNum 9])] |} in
  exists out,
    Loader.load_data add_text to_datetime_sum df = Ok out /\
    Table.columns out
    = [("open"%string, [Table.CNum 1]); ("high"%string, [Table.CNum 2]);
       ("low"%string, [Table.CNum 3]); ("close"%string, [Table.CNum 4]);
       ("volume"%string, [Table.CNum 7]); ("volume"%string, [Table.CNum 9])].
Proof.
  eexists. split; vm_compute; reflexivity.
Qed.

(** ** The backfill run *)

Section BackfillFacts.
Import Table Normalizer Backfill.

Variable getCandleData : HistoricParam -> nat -> ApiResult.

Local Abbreviation fetch := (fetch_historical_data getCandleData).
Local Abbreviation iter := (iteration getCandleData).


Lemma add_days_ok d n :
  1 <= d + n <= max_ordinal -> add_days d n = Ok (d + n).
Proof.
  intros [Hlo Hhi]. unfold add_days.
  apply Z.leb_le in Hlo, Hhi. now rewrite Hlo, Hhi.
Qed.

Lemma add_days_inv d n r : add_days d n = Ok r -> r = d + n.
Proof.
  unfold add_days. destruct (_ && _); [|discriminate]. now intros [= <-].
Qed.

(** What a pass that returns has done. *)
Lemma iteration_ok st st' :
  iter st = Ok st' ->
  let from_date := current_date st in
  let to_date := current_date st + 30 in
  current_date st' = to_date /\
  fetching st' = fetching st ++ [(from_date, to_date)] /\
  ((fetch from_date to_date = None /\
    all_data st' = all_data st /\
    missing_dates st' = missing_dates st ++ [(from_date, to_date)] /\
    first_date st' = first_date st /\
    last_date st' = last_date st)
   \/
   (exists data df,
      fetch from_date to_date = Some data /\
      normalize_value data = Ok df /\
      all_data st' = all_data st ++ [df] /\
      missing_dates st' = missing_dates st /\
      last_date st' = Some to_date)).
Proof.
  unfold iteration.
  destruct (add_days (current_date st) 30) as [next_date|] eqn:Hadd;
    cbn [rbind]; [|discriminate].
  apply add_days_inv in Hadd. subst next_date.
  destruct (fetch_historical_data _ _ _) as [data|] eqn:Hfetch.
  - destruct (normalize_value data) as [df|] eqn:Hnorm;
      cbn [rbind]; [|discriminate].
    intros [= <-]. cbn. repeat split. right. exists data, df. auto.
  - intros [= <-]. cbn. repeat split. left. auto.
Qed.

(** The loop keeps whatever each pass keeps, and leaves at or after the
    end date. *)
Lemma loop_keeps (P : Loop -> Prop) end_date :
  (forall st st', current_date st < end_date -> iter st = Ok st' ->
                  P st -> P st') ->
  forall fuel st st',
    loop getCandleData fuel end_date st = Some (Ok st') ->
    P st -> P st' /\ end_date <= current_date st'.
Proof.
  intros Hstep fuel.
  induction fuel as [|fuel IH]; intros st st'; simpl;
    destruct (current_date st <? end_date) eqn:Hlt.
  - discriminate.
  - intros [= <-] HP. apply Z.ltb_ge in Hlt. auto.
  - destruct (iter st) as [st1|] eqn:Hiter; [|discriminate].
    intros Hloop HP. apply (IH st1 st' Hloop).
    apply (Hstep st st1); auto. now apply Z.ltb_lt.
  - intros [= <-] HP. apply Z.ltb_ge in Hlt. auto.
Qed.

(** The days of the span are fuel enough. *)
Lemma loop_returns end_date fuel st :
  end_date - current_date st <= Z.of_nat fuel ->
  loop getCandleData fuel end_date st <> None.
Proof.
  revert st. induction fuel as [|fuel IH]; intros st Hfuel; simpl;
    destruct (current_date st <? end_date) eqn:Hlt; try discriminate.
  - apply Z.ltb_lt in Hlt. lia.
  - destruct (iter st) as [st1|] eqn:Hiter; [|discriminate].
    apply IH. apply iteration_ok in Hiter as [Hcur _].
    rewrite Hcur. lia.
Qed.

(** A fetched value is one the source returned in a usable response. *)
Lemma attempts_some req k n data :
  attempts getCandleData req k n = Some data ->
  exists j r, getCandleData req j = Returns r /\ usable r = Some data.
Proof.
  revert k. induction n as [|n IH]; intros k; simpl; [discriminate|].
  destruct (getCandleData req k) as [|r] eqn:Hk; [apply IH|].
  destruct (usable r) as [v|] eqn:Hu; [|apply IH].
  intros [= <-]. eauto.
Qed.

Lemma laid_out_step start end_date st st' :
  current_date st < end_date -> iter st = Ok st' ->
  laid_out start end_date st -> laid_out start end_date st'.
Proof.
  intros Hlt Hiter (n & Hcur & Hfetch & Hin).
  apply iteration_ok in Hiter as (Hcur' & Hfetch' & _).
  exists (S n). repeat split.
  - rewrite Hcur', Hcur. lia.
  - rewrite Hfetch', Hfetch, seq_S, map_app. simpl.
    unfold chunk at 3. now rewrite Hcur.
  - intros k Hk. destruct (Nat.eq_dec k n) as [-> | Hne].
    + now rewrite <- Hcur.
    + apply Hin. lia.
Qed.

Lemma booked_step end_date st st' :
  current_date st < end_date -> iter st = Ok st' ->
  booked getCandleData st -> booked getCandleData st'.
Proof.
  intros _ Hiter [Hmiss Hdata].
  apply iteration_ok in Hiter as (_ & Hfetch' & Hcase).
  unfold booked in *. rewrite Hfetch', !List.filter_app. simpl.
  unfold fetch_fails at 2 4. simpl.
  destruct Hcase as [(Hnone & Hall & Hmiss' & _)
                    | (data & df & Hsome & Hnorm & Hall & Hmiss' & _)].
  - rewrite Hnone, Hall, Hmiss', Hmiss. simpl.
    rewrite app_nil_r. auto.
  - rewrite Hsome, Hall, Hmiss', Hmiss. simpl.
    rewrite app_nil_r. split; [reflexivity|].
    apply Forall2_app; [exact Hdata|].
    constructor; [|constructor]. exists data. auto.
Qed.

Lemma jan1_bounds year d :
  jan1 year = Ok d -> 1 <= d <= max_ordinal - 30.
Proof.
  unfold jan1, MINYEAR, MAXYEAR.
  destruct (_ && _) eqn:Hy; [|discriminate]. intros [= <-].
  apply andb_true_iff in Hy as [Hlo Hhi].
  apply Z.leb_le in Hlo, Hhi.
  change max_ordinal with 3652059.
  unfold days_before_year. Z.div_mod_to_equations. lia.
Qed.

Lemma main_ok start_year end_year out :
  main getCandleData start_year end_year = Some (Ok out) ->
  exists start end_date st,
    jan1 start_year = Ok start /\
    jan1 end_year = Ok end_date /\
    loop getCandleData (Z.to_nat (end_date - start)) end_date (enter start)
    = Some (Ok st) /\
    out = finish st.
Proof.
  unfold main.
  destruct (jan1 start_year) as [start|]; [|discriminate].
  destruct (jan1 end_year) as [end_date|]; [|discriminate].
  destruct (loop _ _ _ _) as [[st|]|] eqn:Hloop; try discriminate.
  intros [= <-]. eauto 10.
Qed.

(** The script always comes to an end: with an exception or with its
    output. *)
Lemma main_returns start_year end_year :
  main getCandleData start_year end_year <> None.
Proof.
  unfold main.
  destruct (jan1 start_year) as [start|]; [|discriminate].
  destruct (jan1 end_year) as [end_date|]; [|discriminate].
  pose proof (loop_returns end_date (Z.to_nat (end_date - start))
                (enter start)) as Hret.
  destruct (loop _ _ _ _) as [[st|]|]; try discriminate.
  exfalso. apply Hret; [simpl; lia | reflexivity].
Qed.

Lemma laid_out_enter start end_date : laid_out start end_date (enter start).
Proof.
  exists 0%nat. simpl. repeat split; [lia | intros k Hk; lia].
Qed.

Lemma booked_enter start : booked getCandleData (enter start).
Proof. split; [reflexivity | constructor]. Qed.

(** The ranges of a finished run in closed form. *)
Lemma finished_ranges start_year end_year start end_date out :
  jan1 start_year = Ok start -> jan1 end_year = Ok end_date ->
  main getCandleData start_year end_year = Some (Ok out) ->
  exists n : nat,
    fetching (final out) = map (chunk start) (seq 0 n) /\
    end_date <= start + 30 * Z.of_nat n /\
    (forall k, (k < n)%nat -> start + 30 * Z.of_nat k < end_date).
Proof.
  intros Hs He Hmain.
  apply main_ok in Hmain as (s0 & e0 & st & Hs0 & He0 & Hloop & ->).
  rewrite Hs in Hs0. rewrite He in He0.
  injection Hs0 as <-. injection He0 as <-.
  destruct (loop_keeps (laid_out start end_date) end_date
              (laid_out_step start end_date) _ _ _ Hloop
              (laid_out_enter start end_date))
    as [(n & Hcur & Hfetch & Hin) Hexit].
  exists n. simpl. repeat split; [exact Hfetch | lia | exact Hin].
Qed.

Lemma chunk_lookup start n i r :
  map (chunk start) (seq 0 n) !! i = Some r ->
  r = chunk start i /\ (i < n)%nat.
Proof.
  rewrite list_lookup_fmap.
  destruct (seq 0 n !! i) as [k|] eqn:Hk; [|discriminate].
  apply lookup_seq in Hk as [-> Hlt]. simpl. now intros [= <-].
Qed.

Lemma chunk_in start n r :
  In r (map (chunk start) (seq 0 n)) ->
  exists k, r = chunk start k /\ (k < n)%nat.
Proof.
  intros Hin. apply in_map_iff in Hin as (k & <- & Hk).
  apply in_seq in Hk. exists k. split; [reflexivity | lia].
Qed.

End BackfillFacts.

Section BackfillClaims.
Import Table Normalizer Backfill.

Variable getCandleData : HistoricParam -> nat -> ApiResult.

(** C4 (as the code has it): the ranges of a finished run are 30 days
    long each, the last one included; each begins on the day the one
    before ends, so as day ranges [from, to) they do not overlap; the
    first begins on the first day of the span, every range begins inside
    the span, and together they cover every day of the span.  The last
    range is not cut at the end of the span: it ends on or after the end
    date, less than 30 days past it. *)
Theorem ranges_laid_end_to_end start_year end_year start end_date out :
  jan1 start_year = Ok start ->
  jan1 end_year = Ok end_date ->
  main getCandleData start_year end_year = Some (Ok out) ->
  let rs := fetching (final out) in
  Forall (fun r => snd r = fst r + 30) rs /\
  (forall i a b, rs !! i = Some a -> rs !! S i = Some b -> fst b = snd a) /\
  (forall i j a b, (i < j)%nat -> rs !! i = Some a -> rs !! j = Some b ->
                   snd a <= fst b) /\
  (forall r, head rs = Some r -> fst r = start) /\
  (forall r, In r rs -> fst r < end_date /\ snd r < end_date + 30) /\
  (forall r, last rs = Some r -> end_date <= snd r) /\
  (forall d, start <= d < end_date ->
             exists r, In r rs /\ fst r <= d < snd r).
Proof.
  intros Hs He Hmain rs.
  destruct (finished_ranges getCandleData _ _ _ _ _ Hs He Hmain)
    as (n & Hrs & Hexit & Hin).
  fold rs in Hrs. rewrite Hrs. clear Hrs rs.
  split; [|split; [|split; [|split; [|split; [|split]]]]].
  - apply List.Forall_forall. intros r Hr.
    apply chunk_in in Hr as (k & -> & _).
    unfold chunk. simpl. lia.
  - intros i a b Ha Hb.
    apply chunk_lookup in Ha as [-> _]. apply chunk_lookup in Hb as [-> _].
    unfold chunk. simpl. lia.
  - intros i j a b Hij Ha Hb.
    apply chunk_lookup in Ha as [-> _]. apply chunk_lookup in Hb as [-> _].
    unfold chunk. simpl. lia.
  - intros r Hr. rewrite head_lookup in Hr.
    apply chunk_lookup in Hr as [-> _]. unfold chunk. simpl. lia.
  - intros r Hr. apply chunk_in in Hr as (k & -> & Hk). simpl.
    specialize (Hin k Hk). lia.
  - intros r Hr. rewrite last_lookup in Hr.
    apply chunk_lookup in Hr as [-> _].
    rewrite length_map, length_seq. unfold chunk. simpl.
    destruct n as [|n]; simpl in *; lia.
  - intros d [Hlo Hhi].
    set (k := Z.to_nat ((d - start) / 30)).
    assert (Hk : 0 <= (d - start) / 30) by (apply Z.div_pos; lia).
    assert (Hd : start + 30 * Z.of_nat k <= d < start + 30 * Z.of_nat k + 30).
    { unfold k. rewrite Z2Nat.id by exact Hk.
      pose proof (Z.div_mod (d - start) 30 ltac:(lia)) as Hdm.
      pose proof (Z.mod_pos_bound (d - start) 30 ltac:(lia)) as Hm. lia. }
    exists (chunk start k). split; [|exact Hd].
    apply in_map, in_seq. split; [lia|]. simpl.
    assert (Z.of_nat k < Z.of_nat n) by lia. lia.
Qed.

Local Abbreviation fetch := (fetch_historical_data getCandleData).
Local Abbreviation iter := (iteration getCandleData).

Lemma iteration_raises st data e :
  1 <= current_date st + 30 <= max_ordinal ->
  fetch (current_date st) (current_date st + 30) = Some data ->
  normalize_value data = Raise e ->
  iter st = Raise e.
Proof.
  intros Hdays Hfetch Hnorm. unfold iteration.
  rewrite (add_days_ok _ _ Hdays). cbn [rbind].
  now rewrite Hfetch, Hnorm.
Qed.

Lemma iteration_returns st :
  1 <= current_date st + 30 <= max_ordinal ->
  (forall req k r data,
     getCandleData req k = Returns r -> usable r = Some data ->
     exists df, normalize_value data = Ok df) ->
  exists st', iter st = Ok st'.
Proof.
  intros Hdays Hgood. unfold iteration.
  rewrite (add_days_ok _ _ Hdays). cbn [rbind].
  destruct (fetch_historical_data _ _ _) as [data|] eqn:Hfetch; [|eauto].
  apply attempts_some in Hfetch as (j & r & Hj & Hu).
  destruct (Hgood _ _ _ _ Hj Hu) as [df ->]. cbn [rbind]. eauto.
Qed.

Lemma loop_completes end_date fuel st :
  1 <= current_date st ->
  end_date <= max_ordinal - 30 ->
  end_date - current_date st <= Z.of_nat fuel ->
  (forall req k r data,
     getCandleData req k = Returns r -> usable r = Some data ->
     exists df, normalize_value data = Ok df) ->
  exists st', loop getCandleData fuel end_date st = Some (Ok st').
Proof.
  intros Hlo Hend Hfuel Hgood. revert st Hlo Hfuel.
  induction fuel as [|fuel IH]; intros st Hlo Hfuel; simpl;
    destruct (current_date st <? end_date) eqn:Hlt; eauto.
  - apply Z.ltb_lt in Hlt. lia.
  - apply Z.ltb_lt in Hlt.
    destruct (iteration_returns st ltac:(lia) Hgood) as [st1 Hiter].
    rewrite Hiter.
    apply iteration_ok in Hiter as (Hcur & _).
    apply IH; rewrite Hcur; lia.
Qed.

(** C5 (as the code has it): normalising runs outside the retry loop and
    outside any handler.  When the fetched records of a chunk cannot be
    normalised, the exception leaves the loop body and the loop: the run
    aborts there, the chunk is neither retried nor logged as missing, and
    nothing is written.  A run over valid years completes whenever every
    usable response of the source normalises -- failed fetches alone never
    stop it. *)
Theorem malformed_batch_aborts_run :
  (forall fuel end_date st data e,
     current_date st < end_date ->
     1 <= current_date st + 30 <= max_ordinal ->
     fetch (current_date st) (current_date st + 30) = Some data ->
     normalize_value data = Raise e ->
     iter st = Raise e /\
     loop getCandleData (S fuel) end_date st = Some (Raise e)) /\
  (forall start_year end_year,
     MINYEAR <= start_year <= MAXYEAR ->
     MINYEAR <= end_year <= MAXYEAR ->
     (forall req k r data,
        getCandleData req k = Returns r -> usable r = Some data ->
        exists df, normalize_value data = Ok df) ->
     exists out, main getCandleData start_year end_year = Some (Ok out)).
Proof.
  split.
  - intros fuel end_date st data e Hlt Hdays Hfetch Hnorm.
    pose proof (iteration_raises st data e Hdays Hfetch Hnorm) as Hiter.
    split; [exact Hiter|]. simpl.
    apply Z.ltb_lt in Hlt. now rewrite Hlt, Hiter.
  - intros start_year end_year [Hs1 Hs2] [He1 He2] Hgood.
    unfold main.
    assert (Hjs : exists start, jan1 start_year = Ok start).
    { unfold jan1. apply Z.leb_le in Hs1, Hs2. rewrite Hs1, Hs2. eauto. }
    assert (Hje : exists end_date, jan1 end_year = Ok end_date).
    { unfold jan1. apply Z.leb_le in He1, He2. rewrite He1, He2. eauto. }
    destruct Hjs as [start Hjs]. destruct Hje as [end_date Hje].
    rewrite Hjs, Hje.
    apply jan1_bounds in Hjs, Hje.
    destruct (loop_completes end_date (Z.to_nat (end_date - start))
                (enter start)) as [st ->]; simpl; eauto; lia.
Qed.


End BackfillClaims.

(** *** The backfill on concrete sources *)

Section BackfillRuns.
Import Table Normalizer Backfill.

(** C4, as the spec states it, fails: over the span 2024-01-01 to
    2025-01-01 (366 days) the thirteenth range is 30 days long like the
    others and ends 24 days after the end of the span; and the window
    asked for the first range (up to 15:30 of its last day) reaches into
    the window asked for the second (from 09:00 of that same day). *)
Lemma last_range_passes_span_end :
  let api := fun (_ : HistoricParam) (_ : nat) => Raises in
  exists out end_date r a b,
    jan1 2025 = Ok end_date /\
    main api 2024 2025 = Some (Ok out) /\
    length (fetching (final out)) = 13%nat /\
    last (fetching (final out)) = Some r /\
    snd r = fst r + 30 /\
    snd r = end_date + 24 /\
    fetching (final out) !! 0%nat = Some a /\
    fetching (final out) !! 1%nat = Some b /\
    minutes (fromdate (historicParam (fst b) (snd b)))
    < minutes (todate (historicParam (fst a) (snd a))).
Proof.
  intros api. do 5 eexists.
  split; [vm_compute; reflexivity|].
  split; [vm_compute; reflexivity|].
  split; [vm_compute; reflexivity|].
  split; [vm_compute; reflexivity|].
  split; [vm_compute; reflexivity|].
  split; [vm_compute; reflexivity|].
  split; [vm_compute; reflexivity|].
  split; [vm_compute; reflexivity|].
  vm_compute. reflexivity.
Qed.

Lemma ranges_laid_end_to_end_witness :
  let api := fun (_ : HistoricParam) (_ : nat) => Raises in
  exists start end_date out,
    jan1 2024 = Ok start /\
    jan1 2025 = Ok end_date /\
    main api 2024 2025 = Some (Ok out) /\
    Forall (fun r => snd r = fst r + 30) (fetching (final out)) /\
    (forall d, start <= d < end_date ->
               exists r, In r (fetching (final out)) /\ fst r <= d < snd r).
Proof.
  intros api.
  eassert (Hs : jan1 2024 = Ok _) by (vm_compute; reflexivity).
  eassert (He : jan1 2025 = Ok _) by (vm_compute; reflexivity).
  eassert (Hm : main api 2024 2025 = Some (Ok _)) by (vm_compute; reflexivity).
  pose proof (ranges_laid_end_to_end api 2024 2025 _ _ _ Hs He Hm) as Hall.
  do 3 eexists.
  split; [exact Hs|]. split; [exact He|]. split; [exact Hm|].
  split; [exact (proj1 Hall) | exact (proj2 (proj2 (proj2 (proj2 (proj2
                                       (proj2 Hall))))))].
Defined.

(** C5, as the spec states it, fails: a source whose batch has records of
    seven fields is answered with an exception from the normalising
    statements, and the run over 2024 ends with that exception on its
    first chunk instead of completing. *)
Lemma malformed_batch_stops_backfill :
  let bad := VRows [[CStr "2024-01-01T09:15:00+05:30"; CNum 1; CNum 2;
                     CNum 3; CNum 4; CNum 5; CNum 6]] in
  let api := fun (_ : HistoricParam) (_ : nat) =>
               Returns (Some {["data"%string := bad]}) in
  exists start,
    jan1 2024 = Ok start /\
    fetch_historical_data api start (start + 30) = Some bad /\
    normalize_value bad = Raise ValueError /\
    main api 2024 2025 = Some (Raise ValueError).
Proof.
  intros bad api. eexists.
  split; [vm_compute; reflexivity|].
  split; [vm_compute; reflexivity|].
  split; vm_compute; reflexivity.
Qed.

Lemma malformed_batch_aborts_run_witness :
  let good := VRows [[CStr "2024-01-01T09:15:00+05:30"; CNum 1; CNum 2;
                      CNum 3; CNum 4; CNum 5]] in
  let api := fun (_ : HistoricParam) (_ : nat) =>
               Returns (Some {["data"%string := good]}) in
  exists out, main api 2024 2025 = Some (Ok out).
Proof.
  intros good api.
  apply (proj2 (malformed_batch_aborts_run api) 2024 2025).
  - vm_compute. split; discriminate.
  - vm_compute. split; discriminate.
  - intros req k r data Hr Hu. injection Hr as <-.
    vm_compute in Hu. injection Hu as <-.
    eexists. vm_compute. reflexivity.
Defined.


End BackfillRuns.

(** ** Doubles: rounding stays within bounds *)

Section FloatFacts.
Import SpecFloat Analytics.

Ltac pow_side :=
  first [ lia
        | apply Z.pow_pos_nonneg; lia
        | apply Z.pow_nonzero; lia
        | apply Z.lt_le_incl, Z.pow_pos_nonneg; lia ].

Lemma digits2_size p : digits2_pos p = Pos.size p.
Proof. induction p; simpl; congruence. Qed.

Lemma Zdigits2_log2 m : 0 < m -> Zdigits2 m = Z.log2 m + 1.
Proof.
  destruct m as [|p|p]; try lia. intros _. simpl.
  rewrite digits2_size. destruct p; simpl; lia.
Qed.

Lemma Zdigits2_nonneg m : 0 <= Zdigits2 m.
Proof. destruct m; simpl; lia. Qed.

Lemma Zdigits2_mono a b : 0 <= a <= b -> Zdigits2 a <= Zdigits2 b.
Proof.
  intros [Ha Hab]. destruct (Z.eq_dec a 0) as [-> | Hne].
  - apply Zdigits2_nonneg.
  - rewrite !Zdigits2_log2 by lia.
    pose proof (Z.log2_le_mono a b Hab). lia.
Qed.

Lemma Zdigits2_succ m : 0 <= m -> Zdigits2 (m + 1) <= Zdigits2 m + 1.
Proof.
  intros Hm. destruct (Z.eq_dec m 0) as [-> | Hne]; [simpl; lia|].
  rewrite !Zdigits2_log2 by lia.
  pose proof (Z.log2_succ_le m). unfold Z.succ in *. lia.
Qed.

Lemma Zdigits2_pow2 s : 0 <= s -> Zdigits2 (2 ^ s) = s + 1.
Proof.
  intros Hs. rewrite Zdigits2_log2 by (apply Z.pow_pos_nonneg; lia).
  now rewrite Z.log2_pow2.
Qed.

Lemma Zdigits2_div_pow2 m n :
  0 <= m -> 0 < n -> Zdigits2 (m / 2 ^ n) <= Z.max 0 (Zdigits2 m - n).
Proof.
  intros Hm Hn.
  destruct (Z.eq_dec (m / 2 ^ n) 0) as [-> | Hq]; [simpl; lia|].
  assert (Hqpos : 0 < m / 2 ^ n).
  { pose proof (Z.div_pos m (2 ^ n) Hm ltac:(apply Z.pow_pos_nonneg; lia)). lia. }
  assert (Hmpos : 0 < m).
  { destruct (Z.eq_dec m 0) as [-> | ?]; [|lia]. rewrite Z.div_0_l in Hq; [lia|].
    apply Z.pow_nonzero; lia. }
  assert (Hge : 2 ^ n <= m).
  { destruct (Z.lt_ge_cases m (2 ^ n)) as [Hlt | Hge]; [|exact Hge].
    rewrite Z.div_small in Hq by lia. lia. }
  apply Z.log2_le_pow2 in Hge; [|exact Hmpos].
  rewrite !Zdigits2_log2 by lia.
  rewrite <- Z.shiftr_div_pow2 by lia.
  rewrite Z.log2_shiftr by lia. lia.
Qed.

Lemma shr_1_m r : 0 <= shr_m r -> shr_m (shr_1 r) = shr_m r / 2.
Proof.
  destruct r as [m rb sb]. simpl. intros Hm.
  destruct m as [|[p|p|]|p]; try lia; simpl; try reflexivity.
  - rewrite Pos2Z.inj_xI. apply Z.div_unique with (r := 1); lia.
  - rewrite Pos2Z.inj_xO. apply Z.div_unique with (r := 0); lia.
Qed.

Lemma iter_shr_m p r :
  0 <= shr_m r -> shr_m (iter_pos shr_1 p r) = shr_m r / 2 ^ Zpos p.
Proof.
  revert r. induction p as [p IH | p IH |]; intros r Hr; simpl iter_pos.
  - assert (H1 : 0 <= shr_m (shr_1 r))
      by (rewrite shr_1_m by exact Hr; apply Z.div_pos; lia).
    assert (H2 : 0 <= shr_m (iter_pos shr_1 p (shr_1 r))).
    { rewrite IH by exact H1. apply Z.div_pos; [exact H1|].
      apply Z.pow_pos_nonneg; lia. }
    rewrite IH by exact H2. rewrite IH by exact H1. rewrite shr_1_m by exact Hr.
    rewrite !Z.div_div by pow_side.
    f_equal.
    replace (Zpos p~1) with (1 + Zpos p + Zpos p) by lia.
    rewrite !Z.pow_add_r by lia. lia.
  - assert (H2 : 0 <= shr_m (iter_pos shr_1 p r)).
    { rewrite IH by exact Hr. apply Z.div_pos; [exact Hr|].
      apply Z.pow_pos_nonneg; lia. }
    rewrite IH by exact H2. rewrite IH by exact Hr.
    rewrite Z.div_div by pow_side.
    f_equal.
    replace (Zpos p~0) with (Zpos p + Zpos p) by lia.
    rewrite Z.pow_add_r by lia. lia.
  - rewrite shr_1_m by exact Hr. reflexivity.
Qed.

Lemma shr_record_of_loc_m m l : shr_m (shr_record_of_loc m l) = m.
Proof. destruct l as [|[]]; reflexivity. Qed.

(** One shift to the exponent [fexp] asks for. *)
Lemma shr_fexp_bounds m e l mrs e1 :
  0 <= m ->
  shr_fexp 53 1024 m e l = (mrs, e1) ->
  0 <= shr_m mrs <= m /\
  e1 = Z.max e (fexp 53 1024 (Zdigits2 m + e)) /\
  Zdigits2 (shr_m mrs) + e1 <= Z.max (Zdigits2 m + e) e1.
Proof.
  intros Hm. unfold shr_fexp, shr.
  set (n := fexp 53 1024 (Zdigits2 m + e) - e).
  destruct n as [|p|p] eqn:Hn.
  - intros [= <- <-]. rewrite shr_record_of_loc_m. lia.
  - intros [= <- <-].
    rewrite iter_shr_m by (rewrite shr_record_of_loc_m; exact Hm).
    rewrite shr_record_of_loc_m.
    assert (Hpow : 0 < 2 ^ Zpos p) by (apply Z.pow_pos_nonneg; lia).
    split; [|split].
    + split; [apply Z.div_pos; lia|].
      apply Z.div_le_upper_bound; [lia|]. nia.
    + lia.
    + pose proof (Zdigits2_div_pow2 m (Zpos p) Hm ltac:(lia)). lia.
  - intros [= <- <-]. rewrite shr_record_of_loc_m. lia.
Qed.

Lemma round_nearest_even_bounds m l :
  m <= round_nearest_even m l <= m + 1.
Proof.
  unfold round_nearest_even. destruct l as [|[]]; try lia.
  destruct (Z.even m); lia.
Qed.

(** Rounding a value below [2^1023] with a small enough exponent does not
    overflow. *)
Lemma binary_round_aux_finite sx mx ex lx :
  0 <= mx -> Zdigits2 mx + ex <= 1023 -> ex <= 971 ->
  forall s, binary_round_aux 53 1024 sx mx ex lx <> S754_infinity s.
Proof.
  intros Hm Hd He s. unfold binary_round_aux.
  destruct (shr_fexp 53 1024 mx ex lx) as [mrs1 e1] eqn:H1.
  destruct (shr_fexp_bounds _ _ _ _ _ Hm H1) as ([Hm1 _] & He1 & Hd1).
  pose proof (round_nearest_even_bounds (shr_m mrs1)
                (loc_of_shr_record mrs1)) as Hr.
  set (mr := round_nearest_even (shr_m mrs1) (loc_of_shr_record mrs1)) in *.
  destruct (shr_fexp 53 1024 mr e1 loc_Exact) as [mrs2 e2] eqn:H2.
  assert (Hmr : 0 <= mr) by lia.
  destruct (shr_fexp_bounds _ _ _ _ _ Hmr H2) as (_ & He2 & _).
  assert (Hdr : Zdigits2 mr <= Zdigits2 (shr_m mrs1) + 1).
  { etransitivity; [apply (Zdigits2_mono mr (shr_m mrs1 + 1)); lia|].
    apply Zdigits2_succ; lia. }
  assert (Hle : e2 <= 971).
  { unfold fexp, emin in *. lia. }
  destruct (shr_m mrs2); try discriminate.
  apply Z.leb_le in Hle. change (1024 - 53) with 971. rewrite Hle. discriminate.
Qed.

Lemma div_core_bounds p t mz ez lz :
  (p <= t)%positive ->
  SFdiv_core_binary 53 1024 (Zpos p) 0 (Zpos t) 0 = (mz, ez, lz) ->
  0 <= mz /\ Zdigits2 mz + ez <= 1 /\ ez <= 0.
Proof.
  intros Hpt. unfold SFdiv_core_binary.
  set (e' := Z.min _ _).
  assert (He' : e' <= 0) by (unfold e'; lia).
  set (s := 0 - 0 - e').
  set (m' := match s with Zpos _ => Z.shiftl (Zpos p) s | Z0 => Zpos p
             | Zneg _ => 0 end).
  assert (Hm' : m' = Zpos p * 2 ^ s).
  { unfold m'. destruct s as [|k|k] eqn:Hs; try lia.
    - rewrite Z.shiftl_mul_pow2 by lia. reflexivity. }
  assert (Hpow : 0 < 2 ^ s) by (apply Z.pow_pos_nonneg; lia).
  pose proof (Zdiv.Z_div_mod m' (Zpos t) ltac:(lia)) as Hdm.
  destruct (Z.div_eucl m' (Zpos t)) as [q r]. destruct Hdm as [Heq Hr].
  intros [= <- <- <-].
  assert (Hq : 0 <= q <= 2 ^ s) by nia.
  split; [lia|]. split; [|exact He'].
  pose proof (Zdigits2_mono q (2 ^ s) Hq) as Hmono.
  rewrite Zdigits2_pow2 in Hmono by lia. lia.
Qed.

(** The quotient of two counts, the smaller over the larger, fits a
    double. *)
Lemma div_fits sx sy p t s :
  (p <= t)%positive ->
  SFdiv 53 1024 (S754_finite sx p 0) (S754_finite sy t 0)
  <> S754_infinity s.
Proof.
  intros Hpt. unfold SFdiv.
  destruct (SFdiv_core_binary 53 1024 (Zpos p) 0 (Zpos t) 0)
    as [[mz ez] lz] eqn:Hcore.
  destruct (div_core_bounds p t mz ez lz Hpt Hcore) as (Hm & Hd & He).
  apply binary_round_aux_finite; lia.
Qed.

(** A count divided by itself is exactly one. *)
Lemma div_self p :
  SFdiv 53 1024 (S754_finite false p 0) (S754_finite false p 0)
  = S754_finite false 4503599627370496 (-52).
Proof.
  unfold SFdiv, SFdiv_core_binary.
  replace (Zdigits2 (Zpos p) + 0 - (Zdigits2 (Zpos p) + 0)) with 0 by lia.
  change (Z.min (fexp 53 1024 0) (0 - 0)) with (-53).
  change (0 - 0 - -53) with 53.
  cbv iota beta.
  rewrite Z.shiftl_mul_pow2 by lia.
  pose proof (Zdiv.Z_div_mod (Zpos p * 2 ^ 53) (Zpos p) ltac:(lia)) as Hdm.
  destruct (Z.div_eucl (Zpos p * 2 ^ 53) (Zpos p)) as [q r].
  destruct Hdm as [Heq Hr].
  assert (Hq : q = 2 ^ 53) by nia.
  assert (Hr0 : r = 0) by nia.
  subst q r.
  assert (Hloc : new_location (Zpos p) 0 = loc_Exact).
  { unfold new_location, new_location_even, new_location_odd.
    destruct (Z.even (Zpos p)); reflexivity. }
  rewrite Hloc. vm_compute. reflexivity.
Qed.

Lemma Zdigits2_mul_pow2 r k :
  0 < r -> 0 <= k -> Zdigits2 (r * 2 ^ k) = Zdigits2 r + k.
Proof.
  intros Hr Hk.
  assert (Hpow : 0 < 2 ^ k) by (apply Z.pow_pos_nonneg; lia).
  rewrite !Zdigits2_log2 by nia.
  rewrite Z.log2_mul_pow2 by lia. lia.
Qed.

(** A shift that drops only zero bits is exact. *)
Lemma shr_1_exact rec :
  shr_r rec = false -> shr_s rec = false -> (2 | shr_m rec) ->
  shr_r (shr_1 rec) = false /\ shr_s (shr_1 rec) = false.
Proof.
  destruct rec as [m rb sb]. simpl. intros -> -> [c Hc].
  destruct m as [|[p|p|]|[p|p|]]; simpl; auto; lia.
Qed.

Lemma iter_shr_exact p rec :
  0 <= shr_m rec -> shr_r rec = false -> shr_s rec = false ->
  (2 ^ Zpos p | shr_m rec) ->
  shr_r (iter_pos shr_1 p rec) = false /\
  shr_s (iter_pos shr_1 p rec) = false.
Proof.
  revert rec. induction p as [p IH | p IH |]; intros rec Hm Hr Hs [c Hc];
    simpl iter_pos.
  - assert (Hpow : 0 < 2 ^ Zpos p) by (apply Z.pow_pos_nonneg; lia).
    assert (Hc' : shr_m rec = c * 2 ^ Zpos p * 2 ^ Zpos p * 2).
    { rewrite Hc. replace (Zpos p~1) with (Zpos p + Zpos p + 1) by lia.
      rewrite !Z.pow_add_r by lia. change (2 ^ 1) with 2. lia. }
    destruct (shr_1_exact rec Hr Hs) as [Hr1 Hs1].
    { exists (c * 2 ^ Zpos p * 2 ^ Zpos p). lia. }
    assert (Hm1 : shr_m (shr_1 rec) = c * 2 ^ Zpos p * 2 ^ Zpos p).
    { rewrite shr_1_m by exact Hm. rewrite Hc'. apply Z.div_mul. lia. }
    destruct (IH (shr_1 rec)) as [Hr2 Hs2]; try assumption.
    { rewrite Hm1. nia. }
    { exists (c * 2 ^ Zpos p). lia. }
    assert (Hm2 : shr_m (iter_pos shr_1 p (shr_1 rec)) = c * 2 ^ Zpos p).
    { rewrite iter_shr_m by (rewrite Hm1; nia). rewrite Hm1.
      apply Z.div_mul. lia. }
    apply IH; try assumption.
    + rewrite Hm2. nia.
    + exists c. lia.
  - assert (Hpow : 0 < 2 ^ Zpos p) by (apply Z.pow_pos_nonneg; lia).
    assert (Hc' : shr_m rec = c * 2 ^ Zpos p * 2 ^ Zpos p).
    { rewrite Hc. replace (Zpos p~0) with (Zpos p + Zpos p) by lia.
      rewrite !Z.pow_add_r by lia. lia. }
    destruct (IH rec) as [Hr2 Hs2]; try assumption.
    { exists (c * 2 ^ Zpos p). lia. }
    assert (Hm2 : shr_m (iter_pos shr_1 p rec) = c * 2 ^ Zpos p).
    { rewrite iter_shr_m by exact Hm. rewrite Hc'. apply Z.div_mul. lia. }
    apply IH; try assumption.
    + rewrite Hm2. nia.
    + exists c. lia.
  - apply shr_1_exact; try assumption. exists c. rewrite Hc.
    change (2 ^ 1) with 2. lia.
Qed.

(** One shift to the exponent [fexp] asks for, on a mantissa whose value
    does not pass [r * 2 ^ g]. *)
Lemma shr_fexp_le m e l mrs e1 r g :
  0 <= m -> 0 < r -> Zdigits2 r <= 53 -> e <= g -> -1074 <= g ->
  m <= r * 2 ^ (g - e) ->
  shr_fexp 53 1024 m e l = (mrs, e1) ->
  e1 <= g /\
  0 <= shr_m mrs <= r * 2 ^ (g - e1) /\
  (m + 1 <= r * 2 ^ (g - e) -> shr_m mrs + 1 <= r * 2 ^ (g - e1)) /\
  (l = loc_Exact -> shr_m mrs = r * 2 ^ (g - e1) ->
   loc_of_shr_record mrs = loc_Exact).
Proof.
  intros Hm Hr Hdr He Hg Hle.
  assert (Hdm : Zdigits2 m + e <= Zdigits2 r + g).
  { pose proof (Zdigits2_mono m (r * 2 ^ (g - e)) ltac:(lia)) as Hmono.
    rewrite Zdigits2_mul_pow2 in Hmono by lia. lia. }
  unfold shr_fexp, shr.
  set (n := fexp 53 1024 (Zdigits2 m + e) - e).
  assert (Hn : n <= g - e) by (unfold n, fexp, emin; lia).
  destruct n as [|p|p] eqn:Hnp.
  - intros [= <- <-]. rewrite shr_record_of_loc_m.
    repeat split; try lia.
    intros -> _. reflexivity.
  - intros [= <- <-].
    rewrite iter_shr_m by (rewrite shr_record_of_loc_m; exact Hm).
    rewrite shr_record_of_loc_m.
    assert (Hpow : 0 < 2 ^ Zpos p) by (apply Z.pow_pos_nonneg; lia).
    assert (Hsplit : r * 2 ^ (g - e) = r * 2 ^ (g - (e + Zpos p)) * 2 ^ Zpos p).
    { replace (g - e) with (g - (e + Zpos p) + Zpos p) at 1 by lia.
      rewrite Z.pow_add_r by lia. lia. }
    set (K := r * 2 ^ (g - (e + Zpos p))) in *.
    assert (HK : 0 < K).
    { unfold K. apply Z.mul_pos_pos; [lia|]. apply Z.pow_pos_nonneg; lia. }
    pose proof (Z.div_mod m (2 ^ Zpos p) ltac:(lia)) as Hdiv.
    pose proof (Z.mod_pos_bound m (2 ^ Zpos p) Hpow) as Hmod.
    split; [lia|]. split; [|split].
    + split; [apply Z.div_pos; lia|]. nia.
    + intros Hlt. nia.
    + intros -> Heq.
      assert (Hmeq : m = K * 2 ^ Zpos p) by nia.
      destruct (iter_shr_exact p (shr_record_of_loc m loc_Exact))
        as [Hrf Hsf]; simpl; try reflexivity; try lia.
      { exists K. exact Hmeq. }
      destruct (iter_pos shr_1 p _) as [m' rb sb]. simpl in *.
      now subst rb sb.
  - intros [= <- <-]. rewrite shr_record_of_loc_m.
    repeat split; try lia.
    intros -> _. reflexivity.
Qed.

(** Rounding does not carry a value past a double: what is at most
    [r * 2 ^ g] before is at most that afterwards. *)
Lemma binary_round_aux_le sx mx ex lx r g :
  0 <= mx -> 0 < r -> Zdigits2 r <= 53 -> ex <= g -> -1074 <= g <= 971 ->
  mx + 1 <= r * 2 ^ (g - ex) \/
  (lx = loc_Exact /\ mx <= r * 2 ^ (g - ex)) ->
  match binary_round_aux 53 1024 sx mx ex lx with
  | S754_zero s => s = sx
  | S754_finite s m e => s = sx /\ e <= g /\ Zpos m <= r * 2 ^ (g - e)
  | _ => False
  end.
Proof.
  intros Hm Hr Hdr He Hg Hcase. unfold binary_round_aux.
  assert (Hle : mx <= r * 2 ^ (g - ex)) by (destruct Hcase; lia).
  destruct (shr_fexp 53 1024 mx ex lx) as [mrs1 e1] eqn:H1.
  destruct (shr_fexp_le _ _ _ _ _ r g Hm Hr Hdr He (proj1 Hg) Hle H1)
    as (He1 & [Hm1 Hm1le] & Hstrict & Hexact).
  pose proof (round_nearest_even_bounds (shr_m mrs1)
                (loc_of_shr_record mrs1)) as Hrb.
  assert (Hmr : round_nearest_even (shr_m mrs1) (loc_of_shr_record mrs1)
                <= r * 2 ^ (g - e1)).
  { destruct Hcase as [Hlt | [Hl _]]; [specialize (Hstrict Hlt); lia|].
    destruct (Z.eq_dec (shr_m mrs1) (r * 2 ^ (g - e1))) as [Heq | Hne];
      [|lia].
    rewrite (Hexact Hl Heq). simpl. lia. }
  set (mr := round_nearest_even (shr_m mrs1) (loc_of_shr_record mrs1)) in *.
  destruct (shr_fexp 53 1024 mr e1 loc_Exact) as [mrs2 e2] eqn:H2.
  assert (Hmr0 : 0 <= mr) by lia.
  assert (Hg0 : -1074 <= g) by lia.
  destruct (shr_fexp_le _ _ _ _ _ r g Hmr0 Hr Hdr He1 Hg0 Hmr H2)
    as (He2 & [Hm2 Hm2le] & _ & _).
  destruct (shr_m mrs2) as [|m2|m2]; [reflexivity| |lia].
  assert (Hfit : (e2 <=? 1024 - 53) = true) by (apply Z.leb_le; lia).
  rewrite Hfit. auto.
Qed.

(** The quotient of two counts, the smaller over the larger, is at most
    one. *)
Lemma div_le_one p t :
  (p <= t)%positive ->
  match SFdiv 53 1024 (S754_finite false p 0) (S754_finite false t 0) with
  | S754_zero s => s = false
  | S754_finite s m e => s = false /\ e <= 0 /\ Zpos m <= 2 ^ (- e)
  | _ => False
  end.
Proof.
  intros Hpt. destruct (Pos.eq_dec p t) as [<- | Hne].
  - rewrite div_self. repeat split; vm_compute; congruence.
  - unfold SFdiv.
    destruct (SFdiv_core_binary 53 1024 (Zpos p) 0 (Zpos t) 0)
      as [[mz ez] lz] eqn:Hcore.
    pose proof (binary_round_aux_le (xorb false false) mz ez lz 1 0) as Hb.
    revert Hcore. unfold SFdiv_core_binary.
    set (e' := Z.min _ _).
    assert (He' : e' <= 0) by (unfold e'; lia).
    set (s := 0 - 0 - e').
    set (m' := match s with Zpos _ => Z.shiftl (Zpos p) s | Z0 => Zpos p
               | Zneg _ => 0 end).
    assert (Hm' : m' = Zpos p * 2 ^ s).
    { unfold m'. destruct s as [|k|k] eqn:Hs; try lia.
      rewrite Z.shiftl_mul_pow2 by lia. reflexivity. }
    assert (Hpow : 0 < 2 ^ s) by (apply Z.pow_pos_nonneg; lia).
    pose proof (Zdiv.Z_div_mod m' (Zpos t) ltac:(lia)) as Hdm.
    destruct (Z.div_eucl m' (Zpos t)) as [q r]. destruct Hdm as [Heq Hr].
    intros [= <- <- <-].
    assert (Hlt : (Zpos p < Zpos t)) by lia.
    assert (Hq : 0 <= q /\ q + 1 <= 2 ^ s) by nia.
    replace (0 - e') with s in Hb by lia.
    rewrite Z.mul_1_l in Hb.
    specialize (Hb ltac:(lia) ltac:(lia) ltac:(simpl; lia) He' ltac:(lia)
                   ltac:(left; lia)).
    simpl xorb in *.
    destruct (binary_round_aux 53 1024 false q e' _) as [sz|sz| |sz mz ez];
      try exact Hb.
    destruct Hb as (-> & Hez & Hmz). rewrite Z.mul_1_l in Hmz.
    replace (0 - ez) with (- ez) in Hmz by lia. auto.
Qed.

Lemma hundred_eq : hundred = S754_finite false 7036874417766400 (-46).
Proof. vm_compute. reflexivity. Qed.

(** The value of a positive double below [r * 2 ^ g]. *)
Lemma value_le m e r g :
  0 <= g -> e <= g -> Zpos m <= r * 2 ^ (g - e) ->
  (0 < value (S754_finite false m e) <= inject_Z (r * 2 ^ g))%Q.
Proof.
  intros Hg He Hm. unfold value.
  assert (Hpos : (0 < 2 ^ e)%Q) by (apply Qpower_0_lt; reflexivity).
  rewrite Qmult_1_l. split.
  - apply Qmult_lt_0_compat; [reflexivity | exact Hpos].
  - assert (Hsplit : (inject_Z (r * 2 ^ g)
                      == inject_Z (r * 2 ^ (g - e)) * 2 ^ e)%Q).
    { rewrite !inject_Z_mult, !Zpower_Qpower by lia.
      rewrite <- Qmult_assoc, <- Qpower_plus by discriminate.
      replace (g - e + e) with g by lia. reflexivity. }
    rewrite Hsplit. apply Qmult_le_compat_r; [|apply Qlt_le_weak, Hpos].
    rewrite <- Zle_Qle. exact Hm.
Qed.

(** A double that is at most one, times 100, is at most 100. *)
Lemma times_hundred_le m e :
  e <= 0 -> Zpos m <= 2 ^ (- e) ->
  match times_hundred (S754_finite false m e) with
  | S754_zero s => s = false
  | S754_finite s m' e' =>
      s = false /\ (0 < value (S754_finite false m' e') <= 100)%Q
  | _ => False
  end.
Proof.
  intros He Hm. unfold times_hundred. rewrite hundred_eq.
  unfold SFmul. cbn [xorb].
  pose proof (binary_round_aux_le false
                (Zpos (m * 7036874417766400)) (e + -46) loc_Exact 25 2) as Hb.
  assert (Hpow : 0 < 2 ^ (- e)) by (apply Z.pow_pos_nonneg; lia).
  assert (Hsplit : 25 * 2 ^ (2 - (e + -46)) = 7036874417766400 * 2 ^ (- e)).
  { replace (2 - (e + -46)) with (48 + - e) by lia.
    rewrite Z.pow_add_r by lia. change (2 ^ 48) with 281474976710656. lia. }
  assert (Hcase : Zpos (m * 7036874417766400) + 1 <= 25 * 2 ^ (2 - (e + -46))
                  \/ (loc_Exact = loc_Exact /\
                      Zpos (m * 7036874417766400)
                      <= 25 * 2 ^ (2 - (e + -46)))).
  { right. split; [reflexivity|]. rewrite Hsplit, Pos2Z.inj_mul. nia. }
  assert (Hd : Zdigits2 25 <= 53) by (simpl; lia).
  specialize (Hb ltac:(lia) ltac:(lia) Hd ltac:(lia) ltac:(lia) Hcase).
  destruct (binary_round_aux 53 1024 false _ _ _) as [sz|sz| |sz mz ez];
    try exact Hb.
  destruct Hb as (-> & Hez & Hmz). split; [reflexivity|].
  apply (value_le mz ez 25 2); lia.
Qed.

End FloatFacts.

(** ** The trade summary *)

Section AnalyticsFacts.
Import SpecFloat Analytics.

Lemma truediv_cases a b :
  truediv a b = Raise ZeroDivisionError /\ b = 0 \/
  truediv a b = Raise OverflowError /\ b <> 0 /\ Z.abs b < Z.abs a \/
  truediv a b = Ok (SFdiv 53 1024 (of_int a) (of_int b)) /\ b <> 0.
Proof.
  unfold truediv. destruct (b =? 0) eqn:Hb.
  - apply Z.eqb_eq in Hb. auto.
  - apply Z.eqb_neq in Hb. right.
    destruct (SFdiv 53 1024 (of_int a) (of_int b)) as [s|s| |s m e] eqn:Hdiv;
      auto.
    left. split; [reflexivity|]. split; [exact Hb|].
    destruct (Z.lt_ge_cases (Z.abs b) (Z.abs a)) as [Hlt | Hge];
      [exact Hlt|].
    exfalso.
    destruct a as [|p|p], b as [|t|t]; try lia; try discriminate;
      simpl in Hge; unfold of_int in Hdiv;
      apply div_fits in Hdiv; try exact Hdiv; lia.
Qed.

(** A quotient that is within a double's range. *)
Lemma truediv_counts a b :
  b <> 0 -> Z.abs a <= Z.abs b ->
  truediv a b = Ok (SFdiv 53 1024 (of_int a) (of_int b)).
Proof.
  intros Hb Hab.
  destruct (truediv_cases a b) as [[_ H0] | [(_ & _ & Hlt) | [Hok _]]];
    [lia | lia | exact Hok].
Qed.

(** C10: the summary never ends in a division by zero.  With no closed
    trade the win probability is the int 0.  With at least one it is the
    double [winning_trades / total_trades * 100] -- both operations
    rounded as Python rounds them -- and it is delivered whenever there
    are no more winners than trades.  The only exception the summary can
    raise is the [OverflowError] of a quotient beyond the range of a
    double, which takes more winners than trades. *)
Theorem win_probability_defined (analysis : gmap string (gmap string Z)) :
  let won := get2 analysis "won"%string "total"%string in
  let total := get2 analysis "total"%string "closed"%string in
  summary analysis <> Raise ZeroDivisionError /\
  (total <= 0 ->
   exists s,
     summary analysis = Ok s /\
     winning_trades s = won /\ total_trades s = total /\
     win_prob s = NInt 0) /\
  (0 < total -> Z.abs won <= total ->
   exists s,
     summary analysis = Ok s /\
     winning_trades s = won /\ total_trades s = total /\
     win_prob s
     = NFloat (times_hundred (SFdiv 53 1024 (of_int won) (of_int total)))) /\
  (forall s,
     summary analysis = Ok s -> 0 < total ->
     win_prob s
     = NFloat (times_hundred (SFdiv 53 1024 (of_int won) (of_int total)))) /\
  (forall e,
     summary analysis = Raise e ->
     e = OverflowError /\ 0 < total < Z.abs won).
Proof.
  intros won total. unfold summary, win_probability. fold won total.
  destruct (0 <? total) eqn:Hpos.
  - apply Z.ltb_lt in Hpos.
    destruct (truediv_cases won total)
      as [[_ H0] | [(Hr & _ & Hlt) | [Hok _]]]; [lia| |].
    + rewrite Hr. cbn [rbind].
      split; [discriminate|]. split; [lia|]. split; [lia|].
      split; [discriminate|].
      intros e [= <-]. split; [reflexivity | lia].
    + rewrite Hok. cbn [rbind].
      split; [discriminate|]. split; [lia|].
      split; [intros _ _; eexists; repeat split|].
      split; [intros s [= <-] _; reflexivity | discriminate].
  - apply Z.ltb_ge in Hpos. cbn [rbind].
    split; [discriminate|].
    split; [intros _; eexists; repeat split|].
    split; [lia|]. split; [intros s _ Hlt; lia | discriminate].
Qed.

Lemma win_probability_defined_witness :
  let analysis : gmap string (gmap string Z) :=
    {[ "total"%string := {[ "closed"%string := 4 ]};
       "won"%string := {[ "total"%string := 3 ]} ]} in
  exists s,
    summary analysis = Ok s /\
    win_prob s = NFloat (S754_finite false 5277655813324800 (-46)).
Proof.
  intros analysis.
  destruct (win_probability_defined analysis) as (_ & _ & Hwp & _).
  destruct Hwp as (s & Hs & _ & _ & Hp).
  - vm_compute. reflexivity.
  - vm_compute. discriminate.
  - exists s. split; [exact Hs|].
    rewrite Hp. vm_compute. reflexivity.
Defined.

(** The doubles of the interpreter: [7 / 25 * 100] is
    [28.000000000000004] and [1 / 3 * 100] is [33.33333333333333]. *)
Example seven_of_twenty_five :
  win_probability 7 25
  = Ok (NFloat (S754_finite false 7881299347898369 (-48))).
Proof. vm_compute. reflexivity. Qed.

Example one_of_three :
  win_probability 1 3
  = Ok (NFloat (S754_finite false 4691249611844266 (-47))).
Proof. vm_compute. reflexivity. Qed.

(** More winners than trades, far out of range: the division raises. *)
Example quotient_out_of_range :
  win_probability (2 ^ 1024) 1 = Raise OverflowError.
Proof. vm_compute. reflexivity. Qed.

End AnalyticsFacts.

(* ===================================================================== *)
(** * Part II, continued: further properties of the code                  *)
(* ===================================================================== *)

(** ** More on the strategy *)

Section StrategyMore.
Import Strategy.
Context {F : Type} `{FloatOps F}.

Implicit Types (s : State F) (p : Params F) (sys : System F).

(** X1: [next] never touches [entry_price]; when it submits nothing it
    leaves the strategy as it was, and when it submits an order the
    pending-order marker was clear before and holds that very order
    afterwards. *)
Theorem next_marks_what_it_submits p size close x s :
  let r := next p size close x s in
  entry_price (fst r) = entry_price s /\
  (submissions (snd r) = [] -> fst r = s) /\
  (forall t, In t (submissions (snd r)) ->
             order s = None /\ order (fst r) = Some t).
Proof.
  intros r. subst r.
  destruct (next_cases p size close x s)
    as [-> | (Ho & t & acts & _ & Hsub & ->)]; simpl.
  - split; [reflexivity|]. split; [reflexivity|]. intros t [].
  - rewrite Hsub. split; [reflexivity|]. split; [discriminate|].
    intros t' [<- | []]. auto.
Qed.

Lemma exits_flat p close s : exits p 0 close s = (s, []).
Proof.
  unfold exits, long_exit, short_exit.
  destruct (entry_price s) as [e|] eqn:He; simpl; rewrite ?He; reflexivity.
Qed.

(** X2: with no order pending and no position, only the crossover
    decides: above zero a buy is submitted, below zero a sell, at zero
    nothing; the close, the thresholds and a left-over entry price play no
    part, and nothing is logged. *)
Theorem flat_entry_follows_crossover p close x s :
  order s = None ->
  next p 0 close x s
  = if 0 <? x
    then ({| order := Some Buy; entry_price := entry_price s |},
          [Submit Buy])
    else if x <? 0
    then ({| order := Some Sell; entry_price := entry_price s |},
          [Submit Sell])
    else (s, []).
Proof.
  intros Ho. unfold next. rewrite Ho. simpl.
  now rewrite exits_flat.
Qed.

(** X3: while a position is open the crossover is not looked at, and the
    only order [next] can submit is the one that closes the position: a
    sell when long, a buy when short. *)
Theorem open_position_only_closes p size close x x' s :
  size <> 0 ->
  next p size close x s = next p size close x' s /\
  (forall t, In t (submissions (snd (next p size close x s))) ->
             t = if 0 <? size then Sell else Buy).
Proof.
  intros Hsize. split.
  - unfold next. apply Z.eqb_neq in Hsize. now rewrite Hsize.
  - intros t Hin.
    destruct (next_cases p size close x s)
      as [Hnext | (_ & t' & acts & Hdir & Hsub & Hnext)];
      rewrite Hnext in Hin; simpl in Hin; [destruct Hin|].
    rewrite Hsub in Hin. destruct Hin as [<- | []].
    destruct Hdir as [Hz | Hdir]; [congruence|].
    destruct (0 <? size) eqn:Hpos.
    + apply Z.ltb_lt in Hpos.
      destruct t'; [unfold signed, stake in Hdir; lia | reflexivity].
    + apply Z.ltb_ge in Hpos.
      destruct t'; [reflexivity | unfold signed, stake in Hdir; lia].
Qed.

(** X4: an open position whose entry price is not recorded, or is
    recorded as zero, is never closed by [next]: neither target nor stop
    is evaluated. *)
Theorem no_exit_without_entry_price p size close x s :
  size <> 0 ->
  (entry_price s = None \/
   exists e, entry_price s = Some e /\ ftruthy e = false) ->
  next p size close x s = (s, []).
Proof.
  intros Hsize Hentry. unfold next.
  destruct (order s); [reflexivity|].
  apply Z.eqb_neq in Hsize. rewrite Hsize.
  unfold exits, long_exit, short_exit.
  destruct Hentry as [He | (e & He & Hfalse)]; rewrite He; simpl.
  - now rewrite He.
  - rewrite Hfalse, andb_false_r. simpl.
    now rewrite He, Hfalse, andb_false_r.
Qed.

(** X5: the rest of the exit table.  With no order pending, a recorded
    entry price and the target not reached, a long position is sold
    through the stop-loss branch when the close is at or below
    entry * (1 - stop_loss) and is otherwise held; a short position is
    bought back through its stop-loss branch when the close is at or above
    entry * (1 + stop_loss) and is otherwise held. *)
Theorem stop_or_hold :
  (forall p size close x s e,
     order s = None -> 0 < size ->
     entry_price s = Some e -> ftruthy e = true ->
     fge close (fmul e (fadd fone (target p))) = false ->
     next p size close x s
     = if fle close (fmul e (fsub fone (stop_loss p)))
       then ({| order := Some Sell; entry_price := Some e |},
             [Submit Sell; Log (LongStop close)])
       else (s, [])) /\
  (forall p size close x s e,
     order s = None -> size < 0 ->
     entry_price s = Some e -> ftruthy e = true ->
     fle close (fmul e (fsub fone (target p))) = false ->
     next p size close x s
     = if fge close (fmul e (fadd fone (stop_loss p)))
       then ({| order := Some Buy; entry_price := Some e |},
             [Submit Buy; Log (ShortStop close)])
       else (s, [])).
Proof.
  split; intros p size close x s e Ho Hsize He Ht Htarget.
  - assert (Hz : (size =? 0) = false) by (apply Z.eqb_neq; lia).
    assert (Hp : (0 <? size) = true) by (apply Z.ltb_lt; lia).
    assert (Hn : (size <? 0) = false) by (apply Z.ltb_ge; lia).
    unfold next, exits, long_exit, short_exit.
    rewrite Ho, Hz, He, Hp, Ht. simpl. rewrite Htarget.
    destruct (fle close _); simpl; rewrite ?He, Hn; reflexivity.
  - assert (Hz : (size =? 0) = false) by (apply Z.eqb_neq; lia).
    assert (Hp : (0 <? size) = false) by (apply Z.ltb_ge; lia).
    assert (Hn : (size <? 0) = true) by (apply Z.ltb_lt; lia).
    unfold next, exits, long_exit, short_exit.
    rewrite Ho, Hz, He, Hp. simpl. rewrite He, Hn, Ht. simpl.
    rewrite Htarget. destruct (fge close _); reflexivity.
Qed.

(** The marker mirrors the broker: it holds the side of the one waiting
    order, or nothing when none waits. *)
Lemma marker_step p ev sys :
  match ev with Report st _ => is_dead st = false | Bar _ _ => True end ->
  order (strat sys) = head (waiting sys) /\ (length (waiting sys) <= 1)%nat ->
  order (strat (step p ev sys)) = head (waiting (step p ev sys)) /\
  (length (waiting (step p ev sys)) <= 1)%nat.
Proof.
  intros Hev [Hm Hlen]. destruct ev as [close x | st price]; simpl.
  - unfold on_bar.
    destruct (next_cases p (position sys) close x (strat sys))
      as [-> | (Ho & t & acts & _ & Hsub & ->)]; simpl.
    + rewrite app_nil_r. auto.
    + rewrite Hsub. rewrite Ho in Hm.
      destruct (waiting sys); [simpl; auto | discriminate].
  - unfold on_report.
    destruct (waiting sys) as [|t rest] eqn:Hw; [rewrite Hw; auto|].
    destruct rest; [|simpl in Hlen; lia].
    destruct (is_completed st) eqn:Hc.
    + unfold notify_order. simpl. rewrite Hc.
      destruct t; simpl; auto.
    + rewrite notify_other_status by exact Hc. simpl.
      rewrite Hev. simpl. auto.
Qed.

(** X6: along every run of the engine in which no order dies (no report
    is Canceled, Expired, Margin or Rejected), the pending-order marker is
    set exactly while an order waits at the broker, and it names that
    order. *)
Theorem marker_mirrors_waiting_order p evs :
  Forall (fun ev => match ev with
                    | Report st _ => is_dead st = false
                    | Bar _ _ => True
                    end) evs ->
  let sys := run p evs start in
  order (strat sys) = head (waiting sys) /\
  (order (strat sys) <> None <-> waiting sys <> []).
Proof.
  intros Hevs sys.
  assert (Hinv : order (strat sys) = head (waiting sys) /\
                 (length (waiting sys) <= 1)%nat).
  { subst sys. unfold run.
    assert (Hstart : order (strat (start (F := F)))
                     = head (waiting (start (F := F))) /\
                     (length (waiting (start (F := F))) <= 1)%nat)
      by (simpl; auto).
    revert Hstart. generalize (start (F := F)) as sys0.
    induction Hevs as [|ev evs Hev _ IH]; intros sys0 Hstart; simpl;
      [exact Hstart|].
    apply IH. now apply marker_step. }
  destruct Hinv as [Hm _]. split; [exact Hm|].
  rewrite Hm. destruct (waiting sys); simpl; split; congruence.
Qed.

End StrategyMore.

Section StrategyMoreRuns.
Import Strategy.
Local Open Scope Q_scope.

Lemma flat_entry_follows_crossover_witness :
  next {| target := 3 # 1000; stop_loss := 1 # 1000;
          short_window := 10; long_window := 50 |}
       0 100 (-1)%Z {| order := None; entry_price := Some 101 |}
  = ({| order := Some Sell; entry_price := Some 101 |}, [Submit Sell]).
Proof. apply (flat_entry_follows_crossover (F := Q)). reflexivity. Defined.

Lemma open_position_only_closes_witness :
  let p := {| target := 3 # 1000; stop_loss := 1 # 1000;
              short_window := 10; long_window := 50 |} in
  let s := {| order := None; entry_price := Some 100 |} in
  next p 1 101 1%Z s = next p 1 101 (-1)%Z s /\
  (forall t, In t (submissions (snd (next p 1 101 1%Z s))) -> t = Sell).
Proof.
  intros p s. apply (open_position_only_closes p 1 101 1%Z (-1)%Z s).
  discriminate.
Defined.

Lemma no_exit_without_entry_price_witness :
  next {| target := 3 # 1000; stop_loss := 1 # 1000;
          short_window := 10; long_window := 50 |}
       1 1000 0%Z {| order := None; entry_price := Some 0 |}
  = ({| order := None; entry_price := Some 0 |}, []).
Proof.
  apply (no_exit_without_entry_price (F := Q)).
  - discriminate.
  - right. exists 0. split; reflexivity.
Defined.

Lemma stop_or_hold_witness :
  next {| target := 3 # 1000; stop_loss := 1 # 1000;
          short_window := 10; long_window := 50 |}
       1 (999 # 10) 0%Z {| order := None; entry_price := Some 100 |}
  = ({| order := Some Sell; entry_price := Some 100 |},
     [Submit Sell; Log (LongStop (999 # 10))]).
Proof.
  exact (proj1 stop_or_hold
           {| target := 3 # 1000; stop_loss := 1 # 1000;
              short_window := 10; long_window := 50 |}
           1%Z (999 # 10) 0%Z
           {| order := None; entry_price := Some 100 |} 100
           eq_refl eq_refl eq_refl eq_refl eq_refl).
Defined.

Lemma marker_mirrors_waiting_order_witness :
  let p := {| target := 3 # 1000; stop_loss := 1 # 1000;
              short_window := 10; long_window := 50 |} in
  let sys := run p [Bar 99 1%Z; Report Accepted 0] start in
  order (strat sys) = head (waiting sys) /\
  (order (strat sys) <> None <-> waiting sys <> []).
Proof.
  intros p. apply (marker_mirrors_waiting_order p).
  repeat constructor.
Defined.

End StrategyMoreRuns.

(** ** More on the normaliser *)

Section NormalizerMore.
Import Table Normalizer Pieces.
Local Open Scope string_scope.

Lemma app_cons a s t : String a s ++ t = String a (s ++ t).
Proof. reflexivity. Qed.

Lemma split_on_nonempty sep s : split_on sep s <> [].
Proof.
  destruct s as [|a s]; simpl; [discriminate|].
  destruct (Ascii.eqb a sep); [discriminate|].
  destruct (split_on sep s); discriminate.
Qed.

Lemma join_on_cons sep a p ps :
  join_on sep (String a p :: ps) = String a (join_on sep (p :: ps)).
Proof. destruct ps; reflexivity. Qed.

(** X7: splitting at a separator loses nothing: joining the pieces with
    the separator gives the string back, no piece holds the separator, and
    there is one piece more than there are separators. *)
Theorem split_on_join sep s :
  join_on sep (split_on sep s) = s /\
  Forall (fun p => occurs sep p = false) (split_on sep s) /\
  length (split_on sep s) = S (count_char sep s).
Proof.
  induction s as [|a s (Hjoin & Hfree & Hlen)].
  - simpl. repeat split. repeat constructor.
  - pose proof (split_on_nonempty sep s) as Hne.
    simpl. destruct (split_on sep s) as [|q qs]; [congruence|].
    destruct (Ascii.eqb a sep) eqn:Ha.
    + apply Ascii.eqb_eq in Ha. subst a.
      split; [|split].
      * cbn [join_on]. cbn [join_on] in Hjoin. now rewrite Hjoin.
      * constructor; [reflexivity | exact Hfree].
      * simpl. simpl in Hlen. now rewrite Hlen.
    + split; [|split].
      * rewrite join_on_cons. now rewrite Hjoin.
      * inversion Hfree as [|? ? Hq Hqs]; subst.
        constructor; [simpl; now rewrite Ha, Hq | exact Hqs].
      * simpl in *. exact Hlen.
Qed.

Lemma skip_plus_parts s :
  exists pre, s = pre ++ skip_plus s /\ only_plus pre = true.
Proof.
  induction s as [|a s (pre & Hs & Hpre)]; simpl.
  - exists EmptyString. auto.
  - destruct (is_plus a) eqn:Ha.
    + exists (String a pre). rewrite app_cons, <- Hs. simpl.
      now rewrite Ha, Hpre.
    + exists EmptyString. auto.
Qed.

Lemma span_no_plus_parts s t r :
  span_no_plus s = (t, r) ->
  s = t ++ r /\ occurs "+"%char t = false.
Proof.
  revert t r. induction s as [|a s IH]; intros t r; simpl.
  - intros [= <- <-]. auto.
  - destruct (is_plus a) eqn:Ha.
    + intros [= <- <-]. auto.
    + destruct (span_no_plus s) as [t' r'].
      destruct (IH t' r' eq_refl) as [Hs Hfree].
      intros [= <- <-]. rewrite app_cons, <- Hs. simpl.
      unfold is_plus in Ha. now rewrite Ha, Hfree.
Qed.

Lemma offset_at_parts r o :
  offset_at r = Some o ->
  exists post h1 h2 m1 m2,
    r = o ++ post /\ o = offset_text h1 h2 m1 m2 /\
    is_digit h1 && is_digit h2 && is_digit m1 && is_digit m2 = true.
Proof.
  unfold offset_at.
  destruct r as [|p [|d1 [|d2 [|c [|d3 [|d4 post]]]]]]; try discriminate.
  destruct (is_plus p) eqn:Hp; [|discriminate].
  destruct (is_digit d1) eqn:H1; [|discriminate].
  destruct (is_digit d2) eqn:H2; [|discriminate].
  destruct (Ascii.eqb c ":"%char) eqn:Hc; [|discriminate].
  destruct (is_digit d3) eqn:H3; [|discriminate].
  destruct (is_digit d4) eqn:H4; [|discriminate].
  simpl. intros [= <-].
  apply Ascii.eqb_eq in Hp, Hc. subst p c.
  exists post, d1, d2, d3, d4.
  split; [reflexivity|]. split; [reflexivity|].
  now rewrite H1, H2, H3, H4.
Qed.

Lemma only_plus_skip s : only_plus s = true <-> skip_plus s = EmptyString.
Proof.
  induction s as [|a s IH]; simpl; [tauto|].
  destruct (is_plus a); simpl; [exact IH | split; discriminate].
Qed.

(** X8: what the pattern takes out of a time text of ASCII characters.
    When it matches, the text reads: leading ['+'] characters, then the
    Time (not empty, free of ['+']), then the Timezone if one was found --
    always of the shape [+HH:MM] with digits [0] to [9] -- and then a rest
    that is dropped.  It fails to match exactly on texts made of ['+']
    characters only. *)
Theorem extract_takes_apart s :
  is_ascii_text s = true ->
  (forall t tz,
     extract s = Some (t, tz) ->
     exists pre post,
       s = pre ++ t ++ opt_text tz ++ post /\
       only_plus pre = true /\
       t <> EmptyString /\
       occurs "+"%char t = false /\
       (tz = None \/
        exists h1 h2 m1 m2,
          tz = Some (offset_text h1 h2 m1 m2) /\
          is_digit h1 && is_digit h2 && is_digit m1 && is_digit m2 = true))
  /\
  (extract s = None <-> only_plus s = true).
Proof.
  intros _.
  destruct (skip_plus_parts s) as (pre & Hs & Hpre).
  unfold extract.
  destruct (span_no_plus (skip_plus s)) as [t r] eqn:Hspan.
  destruct (span_no_plus_parts _ _ _ Hspan) as [Hskip Hfree].
  split.
  - intros t0 tz Hex.
    destruct t as [|a t]; [discriminate|].
    injection Hex as <- <-.
    destruct (offset_at r) as [o|] eqn:Hoff.
    + destruct (offset_at_parts _ _ Hoff) as
        (post & h1 & h2 & m1 & m2 & Hr & Ho & Hdig).
      exists pre, post. simpl opt_text.
      split; [rewrite Hs at 1; now rewrite Hskip, Hr|].
      split; [exact Hpre|]. split; [discriminate|]. split; [exact Hfree|].
      right. exists h1, h2, m1, m2. subst o. auto.
    + exists pre, r. simpl opt_text.
      split; [rewrite Hs at 1; now rewrite Hskip|].
      split; [exact Hpre|]. split; [discriminate|]. split; [exact Hfree|].
      now left.
  - rewrite only_plus_skip. split.
    + destruct t as [|a t]; [|discriminate]. intros _. clear Hskip Hs.
      destruct (skip_plus s) as [|b u] eqn:Hu; [reflexivity|].
      simpl in Hspan.
      assert (Hb : is_plus b = false).
      { clear -Hu. induction s as [|a s IH]; simpl in Hu; [discriminate|].
        destruct (is_plus a) eqn:Ha; [auto|]. injection Hu as -> _. exact Ha. }
      rewrite Hb in Hspan. destruct (span_no_plus u). discriminate.
    + intros Hempty. rewrite Hempty in Hspan. simpl in Hspan.
      injection Hspan as <- <-. reflexivity.
Qed.

Lemma extract_takes_apart_witness :
  is_ascii_text "09:15:00+05:30" = true /\
  exists pre post,
    "09:15:00+05:30"%string
    = (pre ++ "09:15:00" ++ "+05:30" ++ post)%string /\
    only_plus pre = true.
Proof.
  split; [reflexivity|].
  destruct (proj1 (extract_takes_apart "09:15:00+05:30" eq_refl)
              "09:15:00"%string (Some "+05:30"%string) eq_refl)
    as (pre & post & Htext & Hpre & _).
  exists pre, post. split; [exact Htext | exact Hpre].
Defined.

Lemma longest_split_reached col n :
  longest_split col = n -> (0 < n)%nat ->
  exists c, In c col /\ length (pieces c) = n.
Proof.
  unfold longest_split. revert n.
  induction col as [|c col IH]; intros n; simpl; [lia|].
  intros Hmax Hpos.
  destruct (Nat.max_spec (length (pieces c))
              (fold_right (fun p w => Nat.max (length p) w) 0%nat
                 (map pieces col))) as [[_ Heq] | [_ Heq]];
    rewrite Heq in Hmax.
  - destruct (IH n Hmax Hpos) as (c' & Hin & Hlen). eauto.
  - eauto.
Qed.

Lemma two_pieces_text c : length (pieces c) = 2%nat -> is_str c = true.
Proof. destruct c; simpl; [reflexivity | discriminate | discriminate]. Qed.

Lemma str_ok_of_text (col : list Cell) c :
  In c col -> is_str c = true -> str_ok col = true.
Proof.
  intros Hin Hc. unfold str_ok.
  assert (Hex : existsb is_str col = true)
    by (apply existsb_exists; eauto).
  now rewrite Hex.
Qed.

(** X9: the batches the normaliser accepts are exactly those whose
    longest record has six fields and whose timestamps split at ['T'] into
    at most two pieces, one of them at least into two. *)
Theorem normalize_accepts data :
  (exists df, normalize data = Ok df) <->
  width data = 6%nat /\ longest_split (stamps data) = 2%nat.
Proof.
  unfold normalize, from_records, stamps, longest_split.
  change (length raw_labels) with 6%nat.
  split.
  - intros [df Hnorm].
    destruct (Nat.eqb (width data) 6) eqn:Hw; [|discriminate].
    apply Nat.eqb_eq in Hw. split; [exact Hw|].
    revert Hnorm. cbn -[nth_cells pad split_T extract_tz].
    unfold split_T at 1.
    destruct (negb (str_ok _)); [discriminate|].
    destruct (Nat.eqb _ 2) eqn:H2; [|discriminate].
    intros _. now apply Nat.eqb_eq in H2.
  - intros [Hw Hlong].
    rewrite Hw. cbn -[nth_cells pad split_T extract_tz].
    set (col := nth_cells 0 (map (pad 6) data)) in *.
    destruct (longest_split_reached col 2 Hlong ltac:(lia))
      as (c & Hin & Hlen).
    assert (Hok : str_ok col = true)
      by (apply (str_ok_of_text col c Hin), two_pieces_text, Hlen).
    set (t := map (fun p => opt_cell (nth_error p 1)) (map pieces col)).
    assert (Hsplit : split_T col
                     = Ok (map (fun p => opt_cell (nth_error p 0))
                             (map pieces col), t)).
    { unfold split_T. rewrite Hok. cbn [negb].
      apply Nat.eqb_eq in Hlong. now rewrite Hlong. }
    assert (Hok2 : str_ok t = true).
    { apply (str_ok_of_text _ (opt_cell (nth_error (pieces c) 1))).
      - unfold t. rewrite map_map. apply in_map_iff. eauto.
      - destruct (pieces c) as [|a [|b [|? ?]]]; try discriminate.
        reflexivity. }
    assert (Hex : extract_tz t
                  = Ok (map (fun c => fst (extract_cell c)) t,
                        map (fun c => snd (extract_cell c)) t)).
    { unfold extract_tz. now rewrite Hok2. }
    rewrite Hsplit. cbn -[nth_cells pad split_T extract_tz].
    rewrite Hex. cbn -[nth_cells pad split_T extract_tz]. eauto.
Qed.

Lemma nth_pad k w (r : list Cell) : nth k (pad w r) CNone = nth k r CNone.
Proof.
  unfold pad. destruct (Nat.lt_ge_cases k (length r)) as [Hlt | Hge].
  - now apply app_nth1.
  - rewrite app_nth2 by exact Hge. rewrite nth_repeat.
    symmetry. now apply nth_overflow.
Qed.

Lemma nth_cells_lookup k w (data : list (list Cell)) i r :
  data !! i = Some r ->
  nth_cells k (map (pad w) data) !! i = Some (nth k r CNone).
Proof.
  intros Hi. unfold nth_cells.
  rewrite !list_lookup_fmap, Hi. simpl. now rewrite nth_pad.
Qed.

Lemma nth_cells_length k w (data : list (list Cell)) :
  length (nth_cells k (map (pad w) data)) = length data.
Proof. unfold nth_cells. now rewrite !length_map. Qed.

(** X10: an accepted batch keeps one row per record, in the order of the
    records: each of the seven columns is as long as the batch, and the
    Open, High, Low and Close of a row are the second to fifth value of
    its record, unchanged. *)
Theorem normalize_keeps_rows data df :
  normalize data = Ok df ->
  (forall n, In n out_labels ->
             exists col, getcol n df = Ok col /\ length col = length data) /\
  (forall i r, data !! i = Some r ->
     cell_at "Open" i df = Some (nth 1 r CNone) /\
     cell_at "High" i df = Some (nth 2 r CNone) /\
     cell_at "Low" i df = Some (nth 3 r CNone) /\
     cell_at "Close" i df = Some (nth 4 r CNone)).
Proof.
  intros Hnorm.
  apply normalize_ok in Hnorm as (d & t & t' & tz & Hsplit & Hex & ->).
  apply split_T_ok in Hsplit as [-> ->].
  apply extract_tz_ok in Hex as [-> ->].
  split.
  - intros n Hn. unfold out_labels in Hn. simpl in Hn.
    destruct Hn as [<- | [<- | [<- | [<- | [<- | [<- | [<- | []]]]]]]];
      eexists; (split; [reflexivity|]); cbn [snd];
      rewrite ?length_map; apply nth_cells_length.
  - intros i r Hi. unfold cell_at.
    cbn [getcol columns find fst snd String.eqb Ascii.eqb Bool.eqb].
    rewrite !(nth_cells_lookup _ _ _ _ _ Hi). auto.
Qed.

End NormalizerMore.

Section NormalizerMoreRuns.
Import Table Normalizer Pieces.
Local Open Scope string_scope.

Lemma normalize_keeps_rows_witness :
  let data := [[CStr "2025-01-05T09:15:00+05:30";
                CNum 1; CNum 2; CNum 3; CNum 4; CNum 100];
               [CStr "2025-01-05T09:16:00+05:30";
                CNum 5; CNum 6; CNum 7; CNum 8; CNum 200]] in
  exists df,
    normalize data = Ok df /\
    cell_at "Open" 1 df = Some (CNum 5) /\
    cell_at "Close" 1 df = Some (CNum 8).
Proof.
  intros data.
  eassert (Hn : normalize data = Ok _) by (vm_compute; reflexivity).
  destruct (proj2 (normalize_keeps_rows data _ Hn) 1%nat _ eq_refl)
    as (Ho & _ & _ & Hc).
  eexists. split; [exact Hn|]. split; [exact Ho | exact Hc].
Defined.

End NormalizerMoreRuns.

(** ** More on the backfill run *)

Section BackfillMore.
Import Table Normalizer Backfill.

Variable getCandleData : HistoricParam -> nat -> ApiResult.

Local Abbreviation fetch := (fetch_historical_data getCandleData).

Lemma usable_truthy r data : usable r = Some data -> truthy data = true.
Proof.
  unfold usable. destruct r as [d|]; [|discriminate].
  destruct (bool_decide (d = ∅)); [discriminate|].
  destruct (d !! "data"%string) as [v|]; [|discriminate].
  destruct (truthy v) eqn:Hv; [|discriminate].
  now intros [= <-].
Qed.

Lemma attempts_first req k n data :
  attempts getCandleData req k n = Some data <->
  exists j r,
    (j < n)%nat /\
    (forall i, (i < j)%nat ->
               failed (getCandleData req (k + i)%nat) = true) /\
    getCandleData req (k + j)%nat = Returns r /\
    usable r = Some data.
Proof.
  revert k. induction n as [|n IH]; intros k; simpl.
  - split; [discriminate | intros (j & r & Hj & _); lia].
  - split.
    + intros Hsome.
      destruct (getCandleData req k) as [|r] eqn:Hk.
      * apply IH in Hsome as (j & r & Hj & Hfail & Hret & Hu).
        exists (S j), r. split; [lia|]. split; [|split; [|exact Hu]].
        -- intros i Hi. destruct i as [|i].
           ++ rewrite Nat.add_0_r, Hk. reflexivity.
           ++ replace (k + S i)%nat with (S k + i)%nat by lia.
              apply Hfail. lia.
        -- now replace (k + S j)%nat with (S k + j)%nat by lia.
      * destruct (usable r) as [v|] eqn:Hu.
        -- injection Hsome as ->. exists 0%nat, r.
           split; [lia|]. split; [intros i Hi; lia|].
           now rewrite Nat.add_0_r.
        -- apply IH in Hsome as (j & r' & Hj & Hfail & Hret & Hu').
           exists (S j), r'. split; [lia|]. split; [|split; [|exact Hu']].
           ++ intros i Hi. destruct i as [|i].
              ** rewrite Nat.add_0_r, Hk. unfold failed. now rewrite Hu.
              ** replace (k + S i)%nat with (S k + i)%nat by lia.
                 apply Hfail. lia.
           ++ now replace (k + S j)%nat with (S k + j)%nat by lia.
    + intros (j & r & Hj & Hfail & Hret & Hu).
      destruct j as [|j].
      * rewrite Nat.add_0_r in Hret. now rewrite Hret, Hu.
      * assert (Hk : failed (getCandleData req k) = true).
        { rewrite <- (Nat.add_0_r k). apply Hfail. lia. }
        assert (Hrest : attempts getCandleData req (S k) n = Some data).
        { apply IH. exists j, r. split; [lia|]. split; [|split; [|exact Hu]].
          - intros i Hi. replace (S k + i)%nat with (k + S i)%nat by lia.
            apply Hfail. lia.
          - now replace (S k + j)%nat with (k + S j)%nat by lia. }
        unfold failed in Hk.
        destruct (getCandleData req k) as [|r0]; [exact Hrest|].
        destruct (usable r0); [discriminate | exact Hrest].
Qed.

(** X11: the fetch hands back the data of the first of its three attempts
    that neither raises nor comes back unusable -- whatever the earlier
    attempts did -- and what it hands back is never empty. *)
Theorem fetch_returns_first_usable from_date to_date data :
  fetch from_date to_date = Some data <->
  exists j r,
    (j < 3)%nat /\
    (forall i, (i < j)%nat ->
       failed (getCandleData (historicParam from_date to_date) i) = true) /\
    getCandleData (historicParam from_date to_date) j = Returns r /\
    usable r = Some data /\
    truthy data = true.
Proof.
  unfold fetch_historical_data. rewrite attempts_first. simpl.
  split; intros (j & r & Hj & Hfail & Hret & Hu).
  - exists j, r. repeat split; auto. now apply usable_truthy in Hu.
  - exists j, r. destruct Hu as [Hu _]. auto.
Qed.

(** X12: a finished run has asked for as many ranges as 30-day steps are
    needed to get from the first day of the span to or past its end:
    (days of the span + 29) / 30, and none for an empty span. *)
Theorem number_of_ranges start_year end_year start end_date out :
  jan1 start_year = Ok start ->
  jan1 end_year = Ok end_date ->
  main getCandleData start_year end_year = Some (Ok out) ->
  length (fetching (final out))
  = Z.to_nat ((end_date - start + 29) / 30).
Proof.
  intros Hs He Hmain.
  destruct (finished_ranges getCandleData _ _ _ _ _ Hs He Hmain)
    as (n & -> & Hexit & Hin).
  rewrite length_map, length_seq.
  destruct n as [|n].
  - assert (Hle : (end_date - start + 29) / 30 <= 0).
    { apply Z.lt_succ_r. apply Z.div_lt_upper_bound; lia. }
    lia.
  - specialize (Hin n ltac:(lia)).
    assert (Hq : (end_date - start + 29) / 30 = Z.of_nat (S n)).
    { symmetry. apply Z.div_unique with (r := end_date - start + 29
                                            - 30 * Z.of_nat (S n)); lia. }
    rewrite Hq. lia.
Qed.

(** X13: the windows asked for two successive ranges share a trading
    session: the earlier request runs to 15:30 of the day on which the
    later one starts at 09:00, so these 390 minutes are asked for
    twice. *)
Theorem successive_windows_share_a_session
    start_year end_year out i a b :
  main getCandleData start_year end_year = Some (Ok out) ->
  fetching (final out) !! i = Some a ->
  fetching (final out) !! S i = Some b ->
  fst (todate (historicParam (fst a) (snd a)))
  = fst (fromdate (historicParam (fst b) (snd b))) /\
  minutes (todate (historicParam (fst a) (snd a)))
  - minutes (fromdate (historicParam (fst b) (snd b))) = 390.
Proof.
  intros Hmain Ha Hb.
  pose proof Hmain as Hmain0.
  apply main_ok in Hmain0 as (start & end_date & st & Hs & He & _ & ->).
  destruct (finished_ranges getCandleData _ _ _ _ _ Hs He Hmain)
    as (n & Hrs & _).
  rewrite Hrs in Ha, Hb.
  apply chunk_lookup in Ha as [-> _]. apply chunk_lookup in Hb as [-> _].
  unfold minutes, historicParam, chunk, session_open, session_close.
  simpl. lia.
Qed.

End BackfillMore.

Section BackfillLedger.
Import Table Normalizer Backfill.

Variable getCandleData : HistoricParam -> nat -> ApiResult.

Local Abbreviation fetch := (fetch_historical_data getCandleData).
Local Abbreviation iter := (iteration getCandleData).
Local Abbreviation served st :=
  (List.filter (fun r => negb (fetch_fails getCandleData r)) (fetching st)).

Lemma iteration_dates st st' :
  iter st = Ok st' ->
  let r := (current_date st, current_date st + 30) in
  (fetch_fails getCandleData r = true /\
   first_date st' = first_date st /\ last_date st' = last_date st /\
   length (all_data st') = length (all_data st) /\
   length (missing_dates st') = S (length (missing_dates st)))
  \/
  (fetch_fails getCandleData r = false /\
   first_date st' = Some (match first_date st with
                          | Some f => f
                          | None => fst r
                          end) /\
   last_date st' = Some (snd r) /\
   length (all_data st') = S (length (all_data st)) /\
   length (missing_dates st') = length (missing_dates st)).
Proof.
  unfold iteration, fetch_fails.
  destruct (add_days (current_date st) 30) as [next_date|] eqn:Hadd;
    cbn [rbind]; [|discriminate].
  apply add_days_inv in Hadd. subst next_date. cbn [fst snd].
  destruct (fetch_historical_data _ _ _) as [data|].
  - destruct (normalize_value data) as [df|]; cbn [rbind]; [|discriminate].
    intros [= <-]. right. cbn.
    rewrite length_app. simpl.
    destruct (first_date st); repeat split; lia.
  - intros [= <-]. left. cbn. rewrite length_app. simpl.
    repeat split; lia.
Qed.

(** The dates kept for the file name belong to the first and the last
    range that delivered, and every range asked for is counted once. *)
Lemma ledger_step end_date st st' :
  current_date st < end_date -> iter st = Ok st' ->
  (first_date st = option_map fst (head (served st)) /\
   last_date st = option_map snd (last (served st)) /\
   (length (all_data st) + length (missing_dates st)
    = length (fetching st))%nat) ->
  (first_date st' = option_map fst (head (served st')) /\
   last_date st' = option_map snd (last (served st')) /\
   (length (all_data st') + length (missing_dates st')
    = length (fetching st'))%nat).
Proof.
  intros _ Hiter (Hfirst & Hlast & Hcount).
  pose proof (iteration_dates st st' Hiter) as Hdates.
  apply iteration_ok in Hiter as (_ & Hfetch' & _).
  rewrite Hfetch', List.filter_app, length_app. simpl.
  destruct Hdates as [(Hfail & Hf & Hl & Ha & Hm) | (Hok & Hf & Hl & Ha & Hm)].
  - rewrite Hfail. simpl. rewrite app_nil_r.
    rewrite Hf, Hl, Ha, Hm. repeat split; auto. lia.
  - rewrite Hok. simpl. rewrite Hf, Hl, Ha, Hm, last_snoc.
    split; [|split; [reflexivity | lia]].
    rewrite Hfirst. destruct (served st); reflexivity.
Qed.

Lemma filter_all_false {A} (f : A -> bool) (l : list A) :
  Forall (fun x => f x = false) l -> List.filter f l = [].
Proof.
  induction 1 as [|x l Hx _ IH]; [reflexivity|].
  cbn [List.filter]. rewrite Hx. exact IH.
Qed.

(** X14: the books of a finished run.  Every range asked for either
    delivered a frame or was logged as missing; the data file is written
    exactly when some range delivered, and is then named by the first day
    of the first and the last day of the last range that delivered; the
    log of missing ranges is written exactly when some range failed. *)
Theorem finished_run_ledger start_year end_year out :
  main getCandleData start_year end_year = Some (Ok out) ->
  let st := final out in
  (length (all_data st) + length (missing_dates st)
   = length (fetching st))%nat /\
  (hdf out = None <-> served st = []) /\
  (forall f l merged,
     hdf out = Some (f, l, merged) ->
     option_map fst (head (served st)) = Some f /\
     option_map snd (last (served st)) = Some l) /\
  (missing_log out = None <->
   Forall (fun r => fetch_fails getCandleData r = false) (fetching st)).
Proof.
  intros Hmain.
  apply main_ok in Hmain as (start & end_date & st & _ & _ & Hloop & ->).
  cbn [final finish].
  destruct (loop_keeps getCandleData _ end_date
              (ledger_step end_date) _ _ _ Hloop)
    as [(Hfirst & Hlast & Hcount) _].
  { simpl. auto. }
  destruct (loop_keeps getCandleData (booked getCandleData) end_date
              (booked_step getCandleData end_date) _ _ _ Hloop
              (booked_enter getCandleData start))
    as [[Hmiss Hdata] _].
  pose proof (Forall2_length _ _ _ Hdata) as Hlen.
  split; [exact Hcount|]. split; [|split].
  - unfold finish. cbn [hdf]. rewrite Hfirst, Hlast.
    destruct (all_data st) as [|df dfs];
      destruct (served st) as [|r rs] eqn:Hserved; try discriminate.
    + split; reflexivity.
    + simpl. destruct (last (r :: rs)) eqn:Hl; [|now apply last_None in Hl].
      simpl. split; discriminate.
  - unfold finish. cbn [hdf]. intros f l merged.
    rewrite Hfirst, Hlast.
    destruct (all_data st); [discriminate|].
    destruct (option_map fst _); [|discriminate].
    destruct (option_map snd _); [|discriminate].
    now intros [= -> -> _].
  - unfold finish. cbn [missing_log]. rewrite Hmiss.
    split.
    + intros Hnone. apply List.Forall_forall. intros r Hr.
      destruct (fetch_fails getCandleData r) eqn:Hf; [|reflexivity].
      assert (Hin : In r (List.filter (fetch_fails getCandleData)
                            (fetching st)))
        by (apply List.filter_In; auto).
      revert Hnone Hin.
      destruct (List.filter (fetch_fails getCandleData) (fetching st));
        [intros _ Hin; destruct Hin | intros Hd; discriminate Hd].
    + intros Hall.
      now rewrite (filter_all_false _ _ Hall).
Qed.

Lemma days_before_year_mono y1 y2 :
  1 <= y1 <= y2 -> days_before_year y1 <= days_before_year y2.
Proof.
  intros Hy. unfold days_before_year. Z.div_mod_to_equations. lia.
Qed.

(** X15: when the end year is not after the start year, the run asks the
    source nothing and writes nothing: no data file, no log. *)
Theorem empty_span_asks_nothing start_year end_year :
  MINYEAR <= end_year <= start_year ->
  start_year <= MAXYEAR ->
  exists out,
    main getCandleData start_year end_year = Some (Ok out) /\
    fetching (final out) = [] /\
    hdf out = None /\
    missing_log out = None.
Proof.
  unfold MINYEAR, MAXYEAR. intros [He Hes] Hs.
  unfold main, jan1, MINYEAR, MAXYEAR.
  assert (H1 : (1 <=? start_year) && (start_year <=? 9999) = true)
    by (apply andb_true_iff; split; apply Z.leb_le; lia).
  assert (H2 : (1 <=? end_year) && (end_year <=? 9999) = true)
    by (apply andb_true_iff; split; apply Z.leb_le; lia).
  rewrite H1, H2.
  pose proof (days_before_year_mono end_year start_year ltac:(lia)) as Hmono.
  replace (Z.to_nat _) with 0%nat by lia.
  simpl.
  assert (Hlt : (days_before_year start_year + 1
                 <? days_before_year end_year + 1) = false)
    by (apply Z.ltb_ge; lia).
  rewrite Hlt. eexists. split; [reflexivity|]. auto.
Qed.

Lemma loop_raises end_date fuel st e :
  loop getCandleData fuel end_date st = Some (Raise e) ->
  1 <= current_date st ->
  end_date <= max_ordinal - 30 ->
  exists from_date data,
    current_date st <= from_date < end_date /\
    fetch from_date (from_date + 30) = Some data /\
    normalize_value data = Raise e.
Proof.
  intros Hloop Hlo Hend. revert st Hloop Hlo.
  induction fuel as [|fuel IH]; intros st; simpl;
    destruct (current_date st <? end_date) eqn:Hlt; try discriminate.
  apply Z.ltb_lt in Hlt.
  destruct (iter st) as [st1|e1] eqn:Hiter.
  - intros Hloop Hlo.
    apply iteration_ok in Hiter as (Hcur & _).
    destruct (IH st1 Hloop ltac:(lia)) as (f & data & Hf & Hfetch & Hnorm).
    exists f, data. repeat split; auto; lia.
  - intros [= ->] Hlo.
    unfold iteration in Hiter.
    rewrite (add_days_ok (current_date st) 30 ltac:(lia)) in Hiter.
    cbn [rbind] in Hiter.
    destruct (fetch_historical_data _ _ _) as [data|] eqn:Hfetch;
      [|discriminate].
    destruct (normalize_value data) as [df|e2] eqn:Hnorm;
      cbn [rbind] in Hiter; [discriminate|].
    injection Hiter as ->.
    exists (current_date st), data. repeat split; auto; lia.
Qed.

(** X16: over valid years the only exception that can end a run is one
    raised while normalising a batch the source has delivered: no date
    arithmetic overflows and no failed fetch raises. *)
Theorem run_aborts_only_in_normalising start_year end_year e :
  MINYEAR <= start_year <= MAXYEAR ->
  MINYEAR <= end_year <= MAXYEAR ->
  main getCandleData start_year end_year = Some (Raise e) ->
  exists from_date data,
    fetch from_date (from_date + 30) = Some data /\
    normalize_value data = Raise e.
Proof.
  intros [Hs1 Hs2] [He1 He2]. unfold main.
  destruct (jan1 start_year) as [start|] eqn:Hs.
  2:{ unfold jan1 in Hs. apply Z.leb_le in Hs1, Hs2.
      rewrite Hs1, Hs2 in Hs. discriminate. }
  destruct (jan1 end_year) as [end_date|] eqn:He.
  2:{ unfold jan1 in He. apply Z.leb_le in He1, He2.
      rewrite He1, He2 in He. discriminate. }
  apply jan1_bounds in Hs, He.
  destruct (loop _ _ _ _) as [[st|e1]|] eqn:Hloop; try discriminate.
  intros [= ->].
  destruct (loop_raises _ _ _ _ Hloop) as (f & data & _ & Hfetch & Hnorm);
    simpl; try lia.
  eauto.
Qed.

End BackfillLedger.

Section BackfillMerged.
Import Table Normalizer Backfill.
Local Open Scope string_scope.

Variable getCandleData : HistoricParam -> nat -> ApiResult.

Lemma delivered_normalised r df :
  delivered getCandleData r df -> exists rows, normalize rows = Ok df.
Proof.
  intros (data & _ & Hnorm). destruct data; try discriminate. eauto.
Qed.

Lemma columns_in_order n (dfs : list Frame) :
  Forall (fun df => exists col, getcol n df = Ok col) dfs ->
  exists cols,
    Forall2 (fun df col => getcol n df = Ok col) dfs cols /\
    flat_map (fun f => match getcol n f with
                       | Ok v => v
                       | Raise _ => repeat CNone (nrows f)
                       end) dfs
    = List.concat cols.
Proof.
  induction 1 as [|df dfs [col Hcol] _ (cols & Hall & Heq)].
  - exists []. split; [constructor | reflexivity].
  - exists (col :: cols). split; [now constructor|].
    simpl. now rewrite Hcol, Heq.
Qed.

Lemma concat_cons d rest :
  Table.concat (d :: rest)
  = {| index := None;
       columns :=
         map (fun c =>
                (fst c,
                 flat_map (fun f => match getcol (fst c) f with
                                    | Ok v => v
                                    | Raise _ => repeat CNone (nrows f)
                                    end) (d :: rest)))
             (columns d) |}.
Proof. reflexivity. Qed.

(** X17: the merged data of a finished run carries the seven labels of
    the normaliser and no index of its own, and under each label it is the
    columns of the delivered frames one after the other, in the order in
    which the ranges were fetched. *)
Theorem merged_series_in_fetch_order start_year end_year out f l merged :
  main getCandleData start_year end_year = Some (Ok out) ->
  hdf out = Some (f, l, merged) ->
  index merged = None /\
  names merged = out_labels /\
  (forall n, In n out_labels ->
     exists cols,
       Forall2 (fun df col => getcol n df = Ok col)
               (all_data (final out)) cols /\
       getcol n merged = Ok (List.concat cols)).
Proof.
  intros Hmain Hhdf.
  apply main_ok in Hmain as (start & end_date & st & _ & _ & Hloop & ->).
  destruct (loop_keeps getCandleData (booked getCandleData) end_date
              (booked_step getCandleData end_date) _ _ _ Hloop
              (booked_enter getCandleData start))
    as [[_ Hdata] _].
  assert (Hnorm : Forall (fun df => exists rows, normalize rows = Ok df)
                    (all_data st)).
  { clear -Hdata. induction Hdata as [|r df rs dfs Hd _ IH]; constructor.
    - exact (delivered_normalised r df Hd).
    - exact IH. }
  cbn [final finish]. unfold finish in Hhdf. cbn [hdf] in Hhdf.
  destruct (all_data st) as [|d rest] eqn:Hall; [discriminate|].
  destruct (first_date st); [|discriminate].
  destruct (last_date st); [|discriminate].
  assert (Hm : merged = Table.concat (d :: rest)) by congruence.
  clear Hhdf. subst merged.
  assert (Hd : exists rows, normalize rows = Ok d)
    by (inversion Hnorm; assumption).
  destruct Hd as [rows Hd].
  apply normalize_ok in Hd as (dc & tc & tc' & tz & _ & _ & Hd).
  split; [reflexivity|].
  split; [rewrite concat_cons; unfold names; rewrite Hd; reflexivity|].
  intros n Hn.
  assert (Hcols : Forall (fun df => exists col, getcol n df = Ok col)
                    (d :: rest)).
  { apply List.Forall_forall. intros df Hdf.
    pose proof (proj1 (List.Forall_forall _ _) Hnorm df Hdf) as [rows' Hr].
    destruct (proj1 (normalize_keeps_rows rows' df Hr) n Hn) as (col & Hc & _).
    eauto. }
  destruct (columns_in_order n (d :: rest) Hcols) as (cols & Hall2 & Heq).
  exists cols. split; [exact Hall2|].
  rewrite <- Heq. clear Heq Hall2 Hcols Hnorm Hdata.
  rewrite concat_cons. set (dfs := d :: rest). clearbody dfs.
  rewrite Hd. unfold out_labels in Hn. simpl in Hn.
  destruct Hn as [<- | [<- | [<- | [<- | [<- | [<- | [<- | []]]]]]]];
    reflexivity.
Qed.

End BackfillMerged.

Section BackfillMoreRuns.
Import Table Normalizer Backfill.

Lemma number_of_ranges_witness :
  let api := fun (_ : HistoricParam) (_ : nat) => Raises in
  exists out,
    main api 2024 2025 = Some (Ok out) /\
    length (fetching (final out)) = 13%nat.
Proof.
  intros api.
  eassert (Hs : jan1 2024 = Ok _) by (vm_compute; reflexivity).
  eassert (He : jan1 2025 = Ok _) by (vm_compute; reflexivity).
  eassert (Hm : main api 2024 2025 = Some (Ok _)) by (vm_compute; reflexivity).
  eexists. split; [exact Hm|].
  rewrite (number_of_ranges api 2024 2025 _ _ _ Hs He Hm).
  vm_compute. reflexivity.
Defined.

Lemma successive_windows_share_a_session_witness :
  let api := fun (_ : HistoricParam) (_ : nat) => Raises in
  exists out a b,
    main api 2024 2025 = Some (Ok out) /\
    fetching (final out) !! 0%nat = Some a /\
    fetching (final out) !! 1%nat = Some b /\
    minutes (todate (historicParam (fst a) (snd a)))
    - minutes (fromdate (historicParam (fst b) (snd b))) = 390.
Proof.
  intros api.
  eassert (Hm : main api 2024 2025 = Some (Ok _)) by (vm_compute; reflexivity).
  match type of Hm with
  | _ = Some (Ok ?o) =>
      eassert (Ha : fetching (final o) !! 0%nat = Some _)
        by (vm_compute; reflexivity);
      eassert (Hb : fetching (final o) !! 1%nat = Some _)
        by (vm_compute; reflexivity)
  end.
  do 3 eexists. split; [exact Hm|]. split; [exact Ha|]. split; [exact Hb|].
  exact (proj2 (successive_windows_share_a_session api 2024 2025 _ 0%nat
                  _ _ Hm Ha Hb)).
Defined.

Lemma finished_run_ledger_witness :
  let api := fun (_ : HistoricParam) (_ : nat) => Raises in
  exists out,
    main api 2024 2025 = Some (Ok out) /\
    (length (all_data (final out)) + length (missing_dates (final out))
     = length (fetching (final out)))%nat.
Proof.
  intros api.
  eassert (Hm : main api 2024 2025 = Some (Ok _)) by (vm_compute; reflexivity).
  eexists. split; [exact Hm|].
  exact (proj1 (finished_run_ledger api 2024 2025 _ Hm)).
Defined.

Lemma empty_span_asks_nothing_witness :
  let api := fun (_ : HistoricParam) (_ : nat) => Raises in
  exists out,
    main api 2025 2025 = Some (Ok out) /\
    fetching (final out) = [] /\
    hdf out = None /\
    missing_log out = None.
Proof.
  intros api. apply (empty_span_asks_nothing api 2025 2025).
  - vm_compute. split; discriminate.
  - vm_compute. discriminate.
Defined.

Lemma run_aborts_only_in_normalising_witness :
  let bad := VRows [[CStr "2024-01-01T09:15:00+05:30"; CNum 1; CNum 2;
                     CNum 3; CNum 4; CNum 5; CNum 6]] in
  let api := fun (_ : HistoricParam) (_ : nat) =>
               Returns (Some {["data"%string := bad]}) in
  exists from_date data,
    fetch_historical_data api from_date (from_date + 30) = Some data /\
    normalize_value data = Raise ValueError.
Proof.
  intros bad api.
  apply (run_aborts_only_in_normalising api 2024 2025).
  - vm_compute. split; discriminate.
  - vm_compute. split; discriminate.
  - vm_compute. reflexivity.
Defined.

Lemma merged_series_in_fetch_order_witness :
  let good := VRows [[CStr "2024-01-01T09:15:00+05:30"; CNum 1; CNum 2;
                      CNum 3; CNum 4; CNum 5]] in
  let api := fun (_ : HistoricParam) (_ : nat) =>
               Returns (Some {["data"%string := good]}) in
  exists out f l merged,
    main api 2024 2025 = Some (Ok out) /\
    hdf out = Some (f, l, merged) /\
    names merged = out_labels.
Proof.
  intros good api.
  eassert (Hm : main api 2024 2025 = Some (Ok _)) by (vm_compute; reflexivity).
  match type of Hm with
  | _ = Some (Ok ?o) =>
      eassert (Hh : hdf o = Some (_, _, _)) by (vm_compute; reflexivity)
  end.
  do 4 eexists. split; [exact Hm|]. split; [exact Hh|].
  exact (proj1 (proj2 (merged_series_in_fetch_order api 2024 2025 _ _ _ _
                         Hm Hh))).
Defined.

End BackfillMoreRuns.

(** ** More on the loader *)

Section LoaderMore.
Import Table Loader.
Local Open Scope string_scope.

Variable add_text : list Cell -> string -> result (list Cell).
Variable to_datetime_sum : list Cell -> list Cell -> result (list Cell).

Local Abbreviation lab n := (fun c : Column => String.eqb n (fst c)).

(** The steps of a call that returns. *)
Lemma load_data_steps df out :
  load_data add_text to_datetime_sum df = Ok out ->
  exists d d' t dt v df4 cols,
    getcol "Date" df = Ok d /\
    add_text d " " = Ok d' /\
    getcol "Time" df = Ok t /\
    to_datetime_sum d' t = Ok dt /\
    let df3 := rename ohlc_names
                 {| index := Some ("Date_Time", v);
                    columns := remove_first "Date_Time"
                                 (columns (setcol "Date_Time" dt df)) |} in
    v = dt /\
    df4 = (if negb (has_col "Volume" df3)
           then setcol "volume" (repeat (CNum 0) (nrows df3)) df3
           else rename [("Volume", "volume")] df3) /\
    pick ["open"; "high"; "low"; "close"; "volume"] (columns df4) = Ok cols /\
    out = {| index := Some ("Date_Time", dt); columns := cols |}.
Proof.
  unfold load_data.
  destruct (getcol "Date" df) as [d|] eqn:Hd; cbn [rbind]; [|discriminate].
  destruct (add_text d " ") as [d'|] eqn:Hd'; cbn [rbind]; [|discriminate].
  destruct (getcol "Time" df) as [t|] eqn:Ht; cbn [rbind]; [|discriminate].
  destruct (to_datetime_sum d' t) as [dt|] eqn:Hdt; cbn [rbind];
    [|discriminate].
  unfold set_index.
  destruct (getcol "Date_Time" _) as [v|] eqn:Hv; cbn [rbind]; [|discriminate].
  assert (Hvdt : v = dt).
  { unfold getcol in Hv. rewrite find_setcol_same in Hv. now injection Hv. }
  unfold select.
  destruct (pick _ _) as [cols|] eqn:Hpick; cbn [rbind]; [|discriminate].
  intros [= <-].
  exists d, d', t, dt, v. eexists. exists cols.
  split; [reflexivity|]. split; [exact Hd'|]. split; [reflexivity|].
  split; [exact Hdt|]. cbv zeta.
  split; [exact Hvdt|]. split; [reflexivity|]. split; [exact Hpick|].
  destruct (negb _); cbn [index setcol rename]; now rewrite Hvdt.
Qed.

Lemma ohlc_pair K k :
  In (K, k) ohlc_names ->
  rename_label ohlc_names K = k /\
  (forall n, rename_label ohlc_names n = k -> n = K \/ n = k) /\
  In k ["open"; "high"; "low"; "close"] /\
  K <> "Date_Time" /\ k <> "Date_Time" /\
  k <> "volume" /\ k <> "Volume".
Proof.
  assert (Hspec : forall n, rename_label ohlc_names n
                  = if String.eqb n "Open" then "open"
                    else if String.eqb n "High" then "high"
                    else if String.eqb n "Low" then "low"
                    else if String.eqb n "Close" then "close" else n).
  { intros n. unfold rename_label, ohlc_names. cbn [find fst snd].
    destruct (String.eqb n "Open"); [reflexivity|].
    destruct (String.eqb n "High"); [reflexivity|].
    destruct (String.eqb n "Low"); [reflexivity|].
    destruct (String.eqb n "Close"); reflexivity. }
  unfold ohlc_names. simpl.
  intros [[= <- <-] | [[= <- <-] | [[= <- <-] | [[= <- <-] | []]]]];
    (split; [reflexivity|]);
    (split; [|repeat split; simpl; auto; discriminate]);
    intros n; rewrite Hspec;
    destruct (String.eqb n "Open") eqn:H1;
    try (apply String.eqb_eq in H1; subst n; auto; discriminate);
    destruct (String.eqb n "High") eqn:H2;
    try (apply String.eqb_eq in H2; subst n; auto; discriminate);
    destruct (String.eqb n "Low") eqn:H3;
    try (apply String.eqb_eq in H3; subst n; auto; discriminate);
    destruct (String.eqb n "Close") eqn:H4;
    try (apply String.eqb_eq in H4; subst n; auto; discriminate);
    auto.
Qed.

(** A renamed frame has a column [k] only if the frame had a column that
    the dictionary sends to [k]. *)
Lemma find_rename_source m k df :
  find (lab k) (columns (rename m df)) <> None ->
  exists c, In c (columns df) /\ rename_label m (fst c) = k.
Proof.
  unfold rename. simpl.
  induction (columns df) as [|c cols IH]; simpl; [congruence|].
  destruct (String.eqb k (rename_label m (fst c))) eqn:Hk.
  - apply String.eqb_eq in Hk. eauto.
  - intros Hfound. destruct (IH Hfound) as (c' & Hin & Hc'). eauto.
Qed.

Lemma find_rename_target m K k df :
  rename_label m K = k ->
  (forall n, rename_label m n = k -> n = K \/ n = k) ->
  find (lab k) (columns df) = None ->
  find (lab k) (columns (rename m df))
  = option_map (fun c => (k, snd c)) (find (lab K) (columns df)).
Proof.
  intros HK Honly. unfold rename. simpl.
  induction (columns df) as [|c cols IH]; simpl; [reflexivity|].
  destruct (String.eqb k (fst c)) eqn:Hk; [discriminate|].
  intros Hnone.
  destruct (String.eqb K (fst c)) eqn:HKc; simpl.
  - apply String.eqb_eq in HKc. rewrite <- HKc, HK, String.eqb_refl.
    reflexivity.
  - destruct (String.eqb k (rename_label m (fst c))) eqn:Hr; [|auto].
    apply String.eqb_eq in Hr. symmetry in Hr.
    apply String.eqb_neq in Hk, HKc.
    destruct (Honly _ Hr); congruence.
Qed.

Lemma find_in (n : string) (cols : list Column) c :
  In c cols -> fst c = n -> find (lab n) cols <> None.
Proof.
  intros Hin Hc. induction cols as [|c' cols IH]; [destruct Hin|].
  simpl. destruct Hin as [-> | Hin].
  - subst n. rewrite String.eqb_refl. discriminate.
  - destruct (String.eqb n (fst c')); [discriminate | auto].
Qed.

(** Untouched by the [Volume] step. *)
Lemma after_volume_step k df3 :
  k <> "volume" -> k <> "Volume" ->
  find (lab k)
    (columns (if negb (has_col "Volume" df3)
              then setcol "volume" (repeat (CNum 0) (nrows df3)) df3
              else rename [("Volume", "volume")] df3))
  = find (lab k) (columns df3).
Proof.
  intros Hv HV. destruct (negb _).
  - now apply find_setcol_other.
  - apply find_rename_fixed. intros n.
    unfold rename_label. cbn [find fst snd].
    destruct (String.eqb n "Volume") eqn:Hn.
    + apply String.eqb_eq in Hn. subst n. simpl. split; congruence.
    + tauto.
Qed.

Lemma before_rename K df dt :
  K <> "Date_Time" ->
  find (lab K)
    (remove_first "Date_Time" (columns (setcol "Date_Time" dt df)))
  = find (lab K) (columns df).
Proof.
  intros HK. rewrite find_remove_first_other by exact HK.
  now apply find_setcol_other.
Qed.

(** X18: what [load_data] returns.  It returns only for a file that has
    the columns Date and Time and each of the four prices under its
    capitalised or its lower-case name; the frame it returns is indexed by
    the parsed date and time, and under each lower-case price name it
    carries the file's capitalised column unchanged (when the file has no
    lower-case column of that name beside it). *)
Theorem load_data_passes_prices df out :
  load_data add_text to_datetime_sum df = Ok out ->
  has_col "Date" df = true /\
  has_col "Time" df = true /\
  (exists d d' t dt,
     getcol "Date" df = Ok d /\ add_text d " " = Ok d' /\
     getcol "Time" df = Ok t /\ to_datetime_sum d' t = Ok dt /\
     index out = Some ("Date_Time", dt)) /\
  (forall K k, In (K, k) ohlc_names ->
     (has_col K df = true \/ has_col k df = true) /\
     (has_col K df = true -> has_col k df = false ->
      getcol k out = getcol K df)).
Proof.
  intros Hload.
  apply load_data_steps in Hload
    as (d & d' & t & dt & v & df4 & cols
        & Hd & Hd' & Ht & Hdt & Hv & Hdf4 & Hpick & ->).
  cbv zeta in Hdf4. subst v.
  split; [|split; [|split]].
  - apply has_col_find. unfold getcol in Hd.
    destruct (find _ (columns df)); [discriminate | discriminate].
  - apply has_col_find. unfold getcol in Ht.
    destruct (find _ (columns df)); [discriminate | discriminate].
  - exists d, d', t, dt. auto.
  - intros K k Hpair.
    destruct (ohlc_pair K k Hpair)
      as (HKk & Honly & Hk & HKdt & Hkdt & Hkv & HkV).
    assert (Hin : In k ["open"; "high"; "low"; "close"; "volume"])
      by (simpl in *; tauto).
    pose proof (pick_find _ _ _ _ Hpick Hin) as Hfind.
    pose proof (pick_has _ _ _ _ Hpick Hin) as Hhas.
    rewrite Hdf4 in Hfind, Hhas.
    rewrite (after_volume_step k _ Hkv HkV) in Hfind, Hhas.
    split.
    + apply find_rename_source in Hhas as (c & Hc & Hren).
      cbn [columns] in Hc.
      destruct (Honly _ Hren) as [HcK | Hck].
      * left. apply has_col_find.
        rewrite <- (before_rename K df dt HKdt).
        now apply (find_in K _ c).
      * right. apply has_col_find.
        rewrite <- (before_rename k df dt Hkdt).
        now apply (find_in k _ c).
    + intros HK Hnok.
      apply has_col_false_find in Hnok.
      unfold getcol at 1. cbn [columns]. rewrite Hfind.
      rewrite (find_rename_target ohlc_names K k _ HKk Honly).
      * cbn [columns].
        rewrite (before_rename K df dt HKdt).
        unfold getcol. destruct (find (lab K) (columns df)); reflexivity.
      * cbn [columns].
        rewrite (before_rename k df dt Hkdt). exact Hnok.
Qed.

End LoaderMore.

Section LoaderMoreRuns.
Import Table Loader.
Local Open Scope string_scope.

Lemma load_data_passes_prices_witness :
  let add_text := fun (col : list Cell) (_ : string) => Ok col in
  let to_datetime_sum := fun (a _ : list Cell) => Ok a in
  let df := {| index := None;
               columns :=
                 [("Date", [CStr "2025-01-05"]);
                  ("Time", [CStr "09:15:00"]);
                  ("Open", [CNum 1]); ("High", [CNum 2]);
                  ("Low", [CNum 3]); ("Close", [CNum 4])] |} in
  exists out,
    load_data add_text to_datetime_sum df = Ok out /\
    getcol "close" out = Ok [CNum 4].
Proof.
  intros add_text to_datetime_sum df.
  eassert (Hl : load_data add_text to_datetime_sum df = Ok _)
    by (vm_compute; reflexivity).
  eexists. split; [exact Hl|].
  destruct (load_data_passes_prices add_text to_datetime_sum df _ Hl)
    as (_ & _ & _ & Hprices).
  destruct (Hprices "Close" "close") as [_ Hpass].
  - simpl. auto.
  - now rewrite Hpass.
Defined.

End LoaderMoreRuns.

(** ** More on the trade summary *)

Section AnalyticsMore.
Import SpecFloat Analytics.

Lemma times_hundred_zero : times_hundred (S754_zero false) = S754_zero false.
Proof. vm_compute. reflexivity. Qed.

(** X19: for counts that make sense -- at least one closed trade, and the
    winners among them -- the win probability is computed without an
    exception and is a percentage: a finite double between 0 and 100,
    [0.0] when no trade won and [100.0] when all did. *)
Theorem win_probability_is_a_percentage won total :
  0 <= won <= total -> 0 < total ->
  exists f,
    win_probability won total = Ok (NFloat f) /\
    is_finite f = true /\
    (0 <= value f <= 100)%Q /\
    (won = 0 -> f = S754_zero false) /\
    (won = total -> f = hundred).
Proof.
  intros [Hlo Hhi] Hpos. unfold win_probability.
  assert (Hp : (0 <? total) = true) by (apply Z.ltb_lt; lia).
  rewrite Hp, truediv_counts by lia. cbn [rbind].
  eexists. split; [reflexivity|].
  assert (Hzero : is_finite (S754_zero false) = true /\
                  (0 <= value (S754_zero false) <= 100)%Q)
    by (repeat split; vm_compute; discriminate).
  destruct total as [|t|t]; try lia.
  destruct won as [|p|p]; try lia.
  - cbn [of_int SFdiv xorb]. rewrite times_hundred_zero.
    destruct Hzero as [Hf Hv].
    repeat split; try apply Hv; try exact Hf; discriminate.
  - cbn [of_int].
    assert (Hall : Zpos p = Zpos t ->
              times_hundred
                (SFdiv 53 1024 (S754_finite false p 0) (S754_finite false t 0))
              = hundred).
    { intros [= ->]. rewrite div_self. vm_compute. reflexivity. }
    split; [|split; [|split; [discriminate | exact Hall]]].
    + pose proof (div_le_one p t ltac:(lia)) as Hq.
      destruct (SFdiv 53 1024 _ _) as [s|s| |s m e]; try contradiction.
      * subst s. now rewrite times_hundred_zero.
      * destruct Hq as (-> & He & Hm).
        pose proof (times_hundred_le m e He Hm) as Hh.
        destruct (times_hundred _) as [s'|s'| |s' m' e']; try contradiction;
          reflexivity.
    + pose proof (div_le_one p t ltac:(lia)) as Hq.
      destruct (SFdiv 53 1024 _ _) as [s|s| |s m e]; try contradiction.
      * subst s. rewrite times_hundred_zero. apply Hzero.
      * destruct Hq as (-> & He & Hm).
        pose proof (times_hundred_le m e He Hm) as Hh.
        destruct (times_hundred _) as [s'|s'| |s' m' e']; try contradiction.
        -- apply Hzero.
        -- destruct Hh as (-> & Hgt & Hle).
           split; [apply Qlt_le_weak, Hgt | exact Hle].
Qed.

Lemma win_probability_is_a_percentage_witness :
  exists f, win_probability 3 4 = Ok (NFloat f) /\ (0 <= value f <= 100)%Q.
Proof.
  destruct (win_probability_is_a_percentage 3 4) as (f & Hf & _ & Hb & _).
  - lia.
  - lia.
  - eauto.
Defined.

(** Rounding is felt at the top: all trades but one won, out of [2^60],
    and the win probability is [100.0] all the same. *)
Example all_but_one_rounds_to_hundred :
  win_probability (2 ^ 60 - 1) (2 ^ 60) = Ok (NFloat hundred).
Proof. vm_compute. reflexivity. Qed.

End AnalyticsMore.

(** ** The single-window fetch *)

Section ScriptFacts.
Import Table Normalizer Backfill Script.
Local Open Scope string_scope.

(** The test of [main.py] is the negation of the test of
    [fetch_historical_data]. *)
Lemma unusable_usable r : unusable r = true <-> usable r = None.
Proof.
  unfold unusable, usable. destruct r as [d|]; [|tauto].
  destruct (bool_decide (d = ∅)); simpl; [tauto|].
  destruct (d !! "data") as [v|]; [|tauto].
  destruct (truthy v); simpl; split; congruence.
Qed.

Variable getCandleData : HistoricParam -> ApiResult.
Variable return_column : list Cell -> list Cell -> result (list Cell).

(** X20: the single-window script makes its one call and saves a table
    exactly when that call returns a response the backfill's fetch would
    accept, the batch normalises and the Return column can be computed;
    the saved table is then the normalised batch with the Return column
    added on the right.  On a response the fetch would count as failed
    the script raises ValueError, and an exception of the call is raised
    again. *)
Theorem script_saves_normalised_batch :
  (forall df,
     script getCandleData return_column = Saved df <->
     exists r data nf c o ret,
       getCandleData (historicParam from_date to_date) = Returns r /\
       usable r = Some data /\
       normalize_value data = Ok nf /\
       getcol "Close" nf = Ok c /\
       getcol "Open" nf = Ok o /\
       return_column c o = Ok ret /\
       names nf = out_labels /\
       df = {| index := None;
               columns := columns nf ++ [("Return", ret)] |}) /\
  (getCandleData (historicParam from_date to_date) = Raises ->
   script getCandleData return_column = ApiRaised) /\
  (forall r,
     getCandleData (historicParam from_date to_date) = Returns r ->
     failed (Returns r) = true ->
     script getCandleData return_column = Raised ValueError).
Proof.
  split; [|split].
  - intros df. unfold script, table_of. split.
    + destruct (getCandleData _) as [|r] eqn:Hcall; [discriminate|].
      destruct (unusable r) eqn:Hun; [discriminate|].
      assert (Hus : exists data, usable r = Some data).
      { destruct (usable r) as [data|] eqn:Hu; [eauto|].
        apply unusable_usable in Hu. congruence. }
      destruct Hus as [data Hu].
      assert (Hdata : data_of r = Ok data).
      { unfold usable in Hu. unfold data_of.
        destruct r as [d|]; [|discriminate].
        destruct (bool_decide (d = ∅)); [discriminate|].
        destruct (d !! "data") as [v|]; [|discriminate].
        destruct (truthy v); [|discriminate]. congruence. }
      rewrite Hdata. cbn [rbind].
      destruct (normalize_value data) as [nf|] eqn:Hnf; cbn [rbind];
        [|discriminate].
      assert (Hrows : exists rows, normalize rows = Ok nf)
        by (destruct data; try discriminate; eauto).
      destruct Hrows as [rows Hrows].
      apply normalize_ok in Hrows as (dc & tc & tc' & tz & _ & _ & Hshape).
      destruct (getcol "Close" nf) as [c|] eqn:Hc; cbn [rbind];
        [|discriminate].
      destruct (getcol "Open" nf) as [o|] eqn:Ho; cbn [rbind];
        [|discriminate].
      destruct (return_column c o) as [ret|] eqn:Hret; cbn [rbind];
        [|discriminate].
      intros [= <-].
      exists r, data, nf, c, o, ret.
      repeat (split; [assumption || reflexivity|]).
      rewrite Hshape. split; reflexivity.
    + intros (r & data & nf & c & o & ret
              & Hcall & Hu & Hnf & Hc & Ho & Hret & Hnames & ->).
      rewrite Hcall.
      assert (Hun : unusable r = false).
      { destruct (unusable r) eqn:Hun; [|reflexivity].
        apply unusable_usable in Hun. congruence. }
      rewrite Hun.
      assert (Hdata : data_of r = Ok data).
      { unfold usable in Hu. unfold data_of.
        destruct r as [d|]; [|discriminate].
        destruct (bool_decide (d = ∅)); [discriminate|].
        destruct (d !! "data") as [v|]; [|discriminate].
        destruct (truthy v); [|discriminate]. congruence. }
      rewrite Hdata. cbn [rbind]. rewrite Hnf. cbn [rbind].
      rewrite Hc. cbn [rbind]. rewrite Ho. cbn [rbind].
      rewrite Hret. cbn [rbind].
      assert (Hrows : exists rows, normalize rows = Ok nf)
        by (destruct data; try discriminate; eauto).
      destruct Hrows as [rows Hrows].
      apply normalize_ok in Hrows as (dc & tc & tc' & tz & _ & _ & ->).
      reflexivity.
  - intros Hcall. unfold script. now rewrite Hcall.
  - intros r Hcall Hfail. unfold script, table_of. rewrite Hcall.
    assert (Hun : unusable r = true).
    { apply unusable_usable. unfold failed in Hfail.
      destruct (usable r); [discriminate | reflexivity]. }
    now rewrite Hun.
Qed.

End ScriptFacts.

(** ** The credentials *)

Section ConfigFacts.
Import Config.
Local Open Scope string_scope.

Lemma missing_false v :
  missing v = false <-> exists s, v = Some s /\ s <> "".
Proof.
  unfold missing. destruct v as [s|].
  - split.
    + intros Hs. apply String.eqb_neq in Hs. eauto.
    + intros (s' & [= <-] & Hne). now apply String.eqb_neq.
  - split; [discriminate | intros (s & Hs & _); discriminate].
Qed.

(** X21: the credentials load exactly when all four variables are set to
    something other than the empty text -- an empty value counts like a
    missing one -- and the loaded values are those of the environment;
    otherwise the module raises ValueError. *)
Theorem credentials_need_all_four (env : gmap string string) :
  (forall c,
     load env = Ok c <->
     (exists a u m t,
        env !! "API_KEY" = Some a /\ a <> "" /\
        env !! "USERNAME" = Some u /\ u <> "" /\
        env !! "MPIN" = Some m /\ m <> "" /\
        env !! "TOTP_SECRET" = Some t /\ t <> "" /\
        c = {| API_KEY := Some a; USERNAME := Some u;
               MPIN := Some m; TOTP_SECRET := Some t |})) /\
  (load env = Raise ValueError \/ exists c, load env = Ok c).
Proof.
  unfold load. split.
  - intros c. split.
    + destruct (missing (env !! "API_KEY")) eqn:Ha; [discriminate|].
      destruct (missing (env !! "USERNAME")) eqn:Hu; [discriminate|].
      destruct (missing (env !! "MPIN")) eqn:Hm; [discriminate|].
      destruct (missing (env !! "TOTP_SECRET")) eqn:Ht; [discriminate|].
      simpl. intros [= <-].
      apply missing_false in Ha as (a & Ha & Hane).
      apply missing_false in Hu as (u & Hu & Hune).
      apply missing_false in Hm as (m & Hm & Hmne).
      apply missing_false in Ht as (t & Ht & Htne).
      exists a, u, m, t. rewrite Ha, Hu, Hm, Ht. repeat split; auto.
    + intros (a & u & m & t & Ha & Hane & Hu & Hune & Hm & Hmne
              & Ht & Htne & ->).
      rewrite Ha, Hu, Hm, Ht. simpl.
      apply String.eqb_neq in Hane, Hune, Hmne, Htne.
      now rewrite Hane, Hune, Hmne, Htne.
  - destruct (_ || _); eauto.
Qed.

End ConfigFacts.
